(** * Destination connectors of the loader: LanceDB and Postgres clients

    A shallow embedding of
      - [dlt/destinations/impl/lancedb/lancedb_client.py]
        (type mapper, [write_records], schema store, life cycle of the
        storage, load jobs and follow-up jobs),
      - [dlt/destinations/impl/postgres/postgres.py]
        ([PostgresClient.create_load_job], the csv copy job and the
        rewriting of insert_values fragments), and
      - [dlt/destinations/dataset.py] ([ReadableDBAPIRelation]),
    followed by the properties the specification states about them and
    by further properties read off the code.

    Python exceptions are values of [Exn]; a function that may raise
    returns [Res A]; a function that also touches the vector store is a
    state transformer over the store that keeps the store reached when an
    exception is raised. *)

From Stdlib Require Import ZArith String Ascii List Bool Lia.
From Stdlib Require Import OrderedTypeEx DecimalString.
From stdpp Require Import base option list gmap strings.

Local Open Scope string_scope.
Local Open Scope list_scope.
Local Open Scope Z_scope.

(* ===================================================================== *)
(** * Exceptions and results *)
(* ===================================================================== *)

(** The exception classes that occur in the embedded code.  Messages are
    not modelled. *)
Inductive Exn : Type :=
  | KeyError
  | IndexError
  | ValueError
  | TypeError
  | AttributeError
  | StopIteration
  | FileNotFoundError
  | OSError
  | ArrowInvalid
  | DestinationTransientException
  | DestinationTerminalException
  | DestinationUndefinedEntity
  | TerminalValueError.

#[global] Instance Exn_eq_dec : EqDecision Exn.
Proof. solve_decision. Defined.

(** [pyarrow.lib.ArrowInvalid] derives from the builtin [ValueError]; an
    [except ValueError] clause therefore catches both. *)
Definition isinstance_ValueError (e : Exn) : bool :=
  match e with
  | ValueError | ArrowInvalid => true
  | _ => false
  end.

(** The exception classes that the embedded code raises as terminal,
    that is, never to be retried. *)
Definition is_terminal (e : Exn) : bool :=
  match e with
  | DestinationTerminalException | TerminalValueError => true
  | _ => false
  end.

Inductive Res (A : Type) : Type :=
  | Ok (a : A)
  | Raise (e : Exn).
Arguments Ok {A} a.
Arguments Raise {A} e.

#[global] Instance Res_ret : MRet Res := fun A a => Ok a.
#[global] Instance Res_bind : MBind Res := fun A B f m =>
  match m with
  | Ok a => f a
  | Raise e => Raise e
  end.

(** A Python [dict] with a handful of literal keys, in insertion order. *)
Fixpoint dict_get {K V : Type} `{EqDecision K}
    (d : list (K * V)) (k : K) : option V :=
  match d with
  | [] => None
  | (k', v) :: d' => if decide (k' = k) then Some v else dict_get d' k
  end.

(** [d[k]]: a missing key raises [KeyError]. *)
Definition dict_item {K V : Type} `{EqDecision K}
    (d : list (K * V)) (k : K) : Res V :=
  match dict_get d k with
  | Some v => Ok v
  | None => Raise KeyError
  end.

(* ===================================================================== *)
(** * Arrow data types, fields and tables *)
(* ===================================================================== *)

(** Time units of [pa.timestamp] and [pa.time64], written as in the
    source: ["s"], ["ms"], ["us"], ["ns"]. *)
Inductive ArrowType : Type :=
  | pa_string
  | pa_float64
  | pa_bool
  | pa_int64
  | pa_binary
  | pa_date32
  | pa_timestamp (unit : string) (tz : string)
  | pa_time64 (unit : string)
  | pa_decimal128 (precision scale : Z)
  | pa_other (name : string).

#[global] Instance ArrowType_eq_dec : EqDecision ArrowType.
Proof. solve_decision. Defined.

(** [pa.decimal128(precision, scale)] accepts a precision of 1 to 38
    digits and raises [ValueError] otherwise. *)
Definition pa_decimal128_new (precision scale : Z) : Res ArrowType :=
  if (1 <=? precision) && (precision <=? 38)
  then Ok (pa_decimal128 precision scale)
  else Raise ValueError.

(** [pa.timestamp(unit, tz)] accepts the four units. *)
Definition pa_timestamp_new (unit tz : string) : Res ArrowType :=
  if decide (unit ∈ ["s"; "ms"; "us"; "ns"])
  then Ok (pa_timestamp unit tz)
  else Raise ValueError.

(** [pa.time64(unit)] accepts only ["us"] and ["ns"]. *)
Definition pa_time64_new (unit : string) : Res ArrowType :=
  if decide (unit ∈ ["us"; "ns"])
  then Ok (pa_time64 unit)
  else Raise ValueError.

(** Column schema of the logical schema ([TColumnSchema]); [hints] holds
    the boolean destination hints ([x-...] keys). *)
Record TColumnSchema : Type := {
  col_name : string;
  col_data_type : string;
  col_precision : option Z;
  col_scale : option Z;
  col_hints : list (string * bool)
}.

(** [TColumnType]: the fragment returned by [from_db_type].  A key that is
    absent and a key bound to [None] are both [None] here. *)
Record TColumnType : Type := {
  data_type : string;
  precision : option Z;
  scale : option Z
}.

#[global] Instance TColumnType_eq_dec : EqDecision TColumnType.
Proof. solve_decision. Defined.

Definition column_type_of (c : TColumnSchema) : TColumnType :=
  {| data_type := col_data_type c;
     precision := col_precision c;
     scale := col_scale c |}.

(** The part of [DestinationCapabilitiesContext] the client consumes. *)
Record Capabilities : Type := {
  decimal_precision : Z * Z;
  wei_precision : Z * Z;
  timestamp_precision : Z;
  generates_case_sensitive_identifiers : bool
}.

(* ===================================================================== *)
(** * LanceDBTypeMapper *)
(* ===================================================================== *)

Definition TIMESTAMP_PRECISION_TO_UNIT : list (Z * string) :=
  [(0, "s"); (3, "ms"); (6, "us"); (9, "ns")].

Definition UNIT_TO_TIMESTAMP_PRECISION : list (string * Z) :=
  map (fun kv => (snd kv, fst kv)) TIMESTAMP_PRECISION_TO_UNIT.

Module LanceDBTypeMapper.

Definition sct_to_unbound_dbt : list (string * ArrowType) :=
[ ("text", pa_string);
  ("double", pa_float64);
  ("bool", pa_bool);
  ("bigint", pa_int64);
  ("binary", pa_binary);
  ("date", pa_date32);
  ("complex", pa_string) ].

Definition dbt_to_sct : list (ArrowType * string) :=
[ (pa_string, "text");
  (pa_float64, "double");
  (pa_bool, "bool");
  (pa_int64, "bigint");
  (pa_binary, "binary");
  (pa_date32, "date") ].

Section WithCapabilities.
Variable capabilities : Capabilities.

(** Modelled from the spec: [TypeMapper.decimal_precision] of the base
    class (its source, [dlt/destinations/type_mapping.py], is not
    available), section 4.1: "precision/scale with
    destination-capability-defined defaults". *)
Definition base_decimal_precision
    (precision scale : option Z) : Z * Z :=
  (default (fst (decimal_precision capabilities)) precision,
   default (snd (decimal_precision capabilities)) scale).

Definition to_db_decimal_type
    (precision scale : option Z) : Res ArrowType :=
  let '(precision, scale) := base_decimal_precision precision scale in
  pa_decimal128_new precision scale.

Definition to_db_datetime_type (precision : option Z) : Res ArrowType :=
  unit ← dict_item TIMESTAMP_PRECISION_TO_UNIT
            (timestamp_precision capabilities);
  pa_timestamp_new unit "UTC".

Definition to_db_time_type (precision : option Z) : Res ArrowType :=
  unit ← dict_item TIMESTAMP_PRECISION_TO_UNIT
            (timestamp_precision capabilities);
  pa_time64_new unit.

(** Modelled from the spec: [TypeMapper.from_db_type] of the base
    class (source not available): the generic lookup
    through the mapper's [dbt_to_sct] table, precision and scale
    passed through; a native type the table does not list is read as
    text. *)
Definition base_from_db_type
    (db_type : ArrowType) (precision scale : option Z) : TColumnType :=
  {| data_type := default "text" (dict_get dbt_to_sct db_type);
     precision := precision;
     scale := scale |}.

Definition from_db_type
    (db_type : ArrowType) (precision scale : option Z)
    : Res TColumnType :=
  match db_type with
  | pa_timestamp unit _ =>
      p ← dict_item UNIT_TO_TIMESTAMP_PRECISION unit;
      Ok {| data_type := "timestamp";
            precision := Some p;
            scale := scale |}
  | pa_time64 unit =>
      p ← dict_item UNIT_TO_TIMESTAMP_PRECISION unit;
      Ok {| data_type := "time";
            precision := Some p;
            scale := scale |}
  | pa_decimal128 precision scale =>
      if decide ((precision, scale) = wei_precision capabilities)
      then Ok {| data_type := "wei";
                 precision := None;
                 scale := None |}
      else Ok {| data_type := "decimal";
                 precision := Some precision;
                 scale := Some scale |}
  | _ => Ok (base_from_db_type db_type precision scale)
  end.

(** Modelled from the spec: [TypeMapper.to_db_type] of the base class
    (source not available), section 4.1: the
    destination-specific overrides serve decimal, timestamp and time;
    every other logical type is looked up in the mapper's table of
    unbound types, and a type the table does not list has no native
    type. *)
Definition to_db_type (column : TColumnSchema) : Res ArrowType :=
  let precision := col_precision column in
  let scale := col_scale column in
  let sc_t := col_data_type column in
  if decide (sc_t = "timestamp") then to_db_datetime_type precision
  else if decide (sc_t = "time") then to_db_time_type precision
  else if decide (sc_t = "decimal") then
    to_db_decimal_type precision scale
  else dict_item sct_to_unbound_dbt sc_t.

(** [from_db_type(to_db_type(c))], the round trip of the
    specification; [from_db_type] is called with the native type
    alone, as [get_storage_table] does. *)
Definition round_trip (column : TColumnSchema) : Res TColumnType :=
  t ← to_db_type column;
  from_db_type t None None.

End WithCapabilities.

End LanceDBTypeMapper.

(* ===================================================================== *)
(** * The vector store *)
(* ===================================================================== *)

(** Cell values.  [VTimestamp] counts microseconds since the epoch and
    [VDate] days since the epoch; [VFloat] carries the bits of a double. *)
Inductive Value : Type :=
  | VNull
  | VBool (b : bool)
  | VInt (z : Z)
  | VFloat (bits : Z)
  | VStr (s : string)
  | VDate (days : Z)
  | VTimestamp (us : Z).

#[global] Instance Value_eq_dec : EqDecision Value.
Proof. solve_decision. Defined.

(** A record as Python sees it: a [dict] from column name to value. *)
Definition Row : Type := list (string * Value).

(** [pa.Field]; two fields are equal when name, type and nullability
    agree. *)
Record Field : Type := {
  field_name : string;
  field_type : ArrowType;
  field_nullable : bool
}.

#[global] Instance Field_eq_dec : EqDecision Field.
Proof. solve_decision. Defined.

(** [pa.field(name, type)]: nullable unless stated otherwise. *)
Definition pa_field (name : string) (type : ArrowType) : Field :=
  {| field_name := name; field_type := type; field_nullable := true |}.

(** [pa.Table]: a schema and one column of [num_rows] cells per field. *)
Record ArrowTable : Type := {
  at_schema : list Field;
  at_num_rows : nat;
  at_columns : list (list Value)
}.

(** [Table.append_column(field, array)]. *)
Definition append_column
    (t : ArrowTable) (field : Field) (array : list Value) : ArrowTable :=
  {| at_schema := at_schema t ++ [field];
     at_num_rows := at_num_rows t;
     at_columns := at_columns t ++ [array] |}.

(** [Table.to_pylist()]: row [i] binds every field name to the [i]-th
    cell of its column. *)
Definition to_pylist (t : ArrowTable) : list Row :=
  map (fun i =>
         map (fun fc => (field_name (fst fc), nth i (snd fc) VNull))
             (combine (at_schema t) (at_columns t)))
      (seq 0 (at_num_rows t)).

(** [lancedb.common.DATA]: a list of records or an Arrow table. *)
Inductive DATA : Type :=
  | Records (rows : list Row)
  | Arrow (table : ArrowTable).

Definition rows_of (records : DATA) : list Row :=
  match records with
  | Records rows => rows
  | Arrow t => to_pylist t
  end.

(** A table of the store. *)
Record LanceTable : Type := {
  tbl_schema : list Field;
  tbl_rows : list Row
}.

(** The write requests the client sends to the store. *)
Inductive Operation : Type :=
  | OpCreateTable (schema : list Field)
  | OpAdd (records : DATA)
  | OpOverwrite (records : DATA)
  | OpMergeUpsert (on : string) (records : DATA)
  | OpMergeDeleteOrphans (on : string) (records : DATA)
  | OpAddColumns (new_fields : list (string * string))
  | OpAlterNullable (path : string) (nullable : bool).

(** The world a client call runs in: the tables of the store, the write
    requests the store has accepted (oldest first, with the table each
    one addressed), and the warnings sent to the logger. *)
Record World : Type := {
  tables : gmap string LanceTable;
  requests : list (string * Operation);
  warnings : list string
}.

(** Effectful code: a state transformer over the world; the world is
    kept when an exception is raised. *)
Definition M (A : Type) : Type := World -> Res A * World.

#[global] Instance M_ret : MRet M := fun A a w => (Ok a, w).
#[global] Instance M_bind : MBind M := fun A B f m w =>
  match m w with
  | (Ok a, w') => f a w'
  | (Raise e, w') => (Raise e, w')
  end.

Definition raise {A : Type} (e : Exn) : M A := fun w => (Raise e, w).

Definition lift {A : Type} (r : Res A) : M A := fun w => (r, w).

(** [try: m except <classes accepted by handles> as e: handler e]. *)
Definition try_except {A : Type}
    (m : M A) (handles : Exn -> bool) (handler : Exn -> M A) : M A :=
  fun w =>
    match m w with
    | (Raise e, w') =>
        if handles e then handler e w' else (Raise e, w')
    | r => r
    end.

(** [for x in l: body x]. *)
Fixpoint for_each {A : Type} (l : list A) (body : A -> M ()) : M () :=
  match l with
  | [] => mret ()
  | x :: l' => body x ;; for_each l' body
  end.

Definition logger_warn (msg : string) : M () := fun w =>
  (Ok (), {| tables := tables w;
             requests := requests w;
             warnings := warnings w ++ [msg] |}).

(** The store accepts a write request on a table: the table is
    replaced and the request is recorded. *)
Definition commit
    (table_name : string) (op : Operation) (t : LanceTable) : M () :=
  fun w =>
    (Ok (), {| tables := <[table_name := t]> (tables w);
               requests := requests w ++ [(table_name, op)];
               warnings := warnings w |}).

(** [db_client.open_table(name)] followed by [checkout_latest()]. *)
Definition open_table (table_name : string) : M LanceTable := fun w =>
  match tables w !! table_name with
  | Some t => (Ok t, w)
  | None => (Raise FileNotFoundError, w)
  end.

(** [db_client.table_names()]. *)
Definition table_names : M (list string) := fun w =>
  (Ok (map fst (map_to_list (tables w))), w).

(** ** What the store does with an accepted request

    The capability contract of the store (specification, sections 4.2
    and 4.3): [add] appends, [add(mode="overwrite")] replaces the
    contents, a keyed merge updates matched rows and inserts the others,
    and a merge with [when_not_matched_by_source_delete] alone deletes
    the stored rows whose key no incoming row carries and changes
    nothing else. *)

Definition key_of (on : string) (r : Row) : option Value := dict_get r on.

Definition store_add (t : LanceTable) (records : DATA) : LanceTable :=
  {| tbl_schema := tbl_schema t;
     tbl_rows := tbl_rows t ++ rows_of records |}.

Definition store_overwrite (t : LanceTable) (records : DATA) : LanceTable :=
  {| tbl_schema := tbl_schema t;
     tbl_rows := rows_of records |}.

Definition store_merge_upsert
    (t : LanceTable) (on : string) (records : DATA) : LanceTable :=
  let source := rows_of records in
  let matched (r : Row) : option Row :=
    List.find (fun s => bool_decide (key_of on s = key_of on r)) source in
  let unmatched (s : Row) : bool :=
    negb (existsb (fun r => bool_decide (key_of on s = key_of on r))
                  (tbl_rows t)) in
  {| tbl_schema := tbl_schema t;
     tbl_rows := map (fun r => default r (matched r)) (tbl_rows t)
                 ++ List.filter unmatched source |}.

Definition store_merge_delete_orphans
    (t : LanceTable) (on : string) (records : DATA) : LanceTable :=
  let source_keys := map (key_of on) (rows_of records) in
  {| tbl_schema := tbl_schema t;
     tbl_rows :=
       List.filter (fun r => bool_decide (key_of on r ∈ source_keys))
                   (tbl_rows t) |}.

(** [alter_columns({"path": p, "nullable": b})] touches the column named
    [p] and no other. *)
Definition store_alter_nullable
    (t : LanceTable) (path : string) (nullable : bool) : LanceTable :=
  {| tbl_schema :=
       map (fun f => if decide (field_name f = path)
                     then {| field_name := field_name f;
                             field_type := field_type f;
                             field_nullable := nullable |}
                     else f)
           (tbl_schema t);
     tbl_rows := tbl_rows t |}.

(* ===================================================================== *)
(** * Logical schema and client configuration *)
(* ===================================================================== *)

(** [TTableSchema]: [parent] is present on child tables only. *)
Record TTableSchema : Type := {
  table_name : string;
  parent : option string;
  write_disposition : option string;
  columns : list (string * TColumnSchema)
}.

(** The part of [Schema] the client reads.  [schema_json] is
    [json.dumps(schema.to_dict())]. *)
Record Schema : Type := {
  schema_name : string;
  schema_version : Z;
  ENGINE_VERSION : Z;
  stored_version_hash : string;
  schema_tables : list (string * TTableSchema);
  version_table_name : string;
  loads_table_name : string;
  state_table_name : string;
  dlt_table_names : list string;
  normalize_identifier : string -> string;
  schema_json : string
}.

(** [schema.get_table(name)]: an unknown table raises [KeyError]. *)
Definition get_table (schema : Schema) (name : string) : Res TTableSchema :=
  dict_item (schema_tables schema) name.

(** [TTableSchemaColumns] as [get_storage_table] builds it. *)
Definition TTableSchemaColumns : Type := list (string * (string * TColumnType)).

(** [d[k] = v] on a [dict]: an existing key keeps its place. *)
Fixpoint dict_set {K V : Type} `{EqDecision K}
    (d : list (K * V)) (k : K) (v : V) : list (K * V) :=
  match d with
  | [] => [(k, v)]
  | (k', v') :: d' =>
      if decide (k' = k) then (k, v) :: d' else (k', v') :: dict_set d' k v
  end.

(** [{k1: v1, k2: v2, ...}]: the items are set one after the other, so
    that a key written twice keeps its first place and its last value. *)
Definition dict_literal {K V : Type} `{EqDecision K}
    (items : list (K * V)) : list (K * V) :=
  foldl (fun d kv => dict_set d (fst kv) (snd kv)) [] items.

(** The client object: schema, capabilities and the configuration
    values the embedded methods read. *)
Record LanceDBClientState : Type := {
  schema : Schema;
  capabilities : Capabilities;
  dataset_name : option string;
  dataset_separator : string;
  vector_field_name : string;
  id_field_name : string
}.

(** Code of the repository that the embedded methods call and whose
    source is not available; each is taken as it is declared.

    - [arrow_valid]: whether the store accepts a batch for a table; a
      refusal is the [ArrowInvalid] that [write_records] handles.
    - [get_default_arrow_value]: the default cell of a type, [None] when
      the helper raises [ValueError] for a type it has no default for.
    - [parse_table_name]: [ParsedLoadJobFileName.parse(p).table_name].
    - [get_new_table_columns]: [Schema.get_new_table_columns].
    - [make_arrow_table_schema]: the full native schema of a new table;
      the flag says whether the embedding fields, the vector field name
      and the id field name are passed (a data table) or [None] (a
      bookkeeping table).
    - [base_update_stored_schema]: the checks of
      [JobClientBase.update_stored_schema].
    - [arrow_datatype_to_fusion_datatype]: the name under which the SQL
      dialect of the store knows an Arrow type
      ([dlt/destinations/impl/lancedb/schema.py]).

    With them two facts about the store, which is not part of the
    repository:

    - [sql_expression_type]: the type of the column that [add_columns]
      makes from an SQL expression, [None] when the store cannot
      evaluate the expression.
    - [add_columns_refusal]: the exception class with which the store
      refuses [add_columns]. *)
Class Externals : Type := {
  arrow_valid : LanceTable -> DATA -> bool;
  get_default_arrow_value : ArrowType -> option Value;
  parse_table_name : string -> Res string;
  get_new_table_columns :
    Schema -> string -> TTableSchemaColumns -> bool
    -> Res (list TColumnSchema);
  make_arrow_table_schema :
    LanceDBClientState -> string -> bool -> Res (list Field);
  base_update_stored_schema :
    LanceDBClientState -> option (list string) -> Res ();
  arrow_datatype_to_fusion_datatype : ArrowType -> string;
  sql_expression_type : string -> option ArrowType;
  add_columns_refusal : Exn
}.

(** Python truthiness of an optional string: [None] and [""] are false. *)
Definition truthy (s : option string) : bool :=
  match s with
  | None => false
  | Some s => negb (bool_decide (s = ""))
  end.

(** [l[i]]: an index past the end raises [IndexError]. *)
Definition list_item {A : Type} (l : list A) (i : nat) : Res A :=
  match l !! i with
  | Some x => Ok x
  | None => Raise IndexError
  end.

(** ** Ordering of cell values

    Python orders two values of the same type and raises [TypeError]
    otherwise (NULL included). *)
Definition value_compare (a b : Value) : Res comparison :=
  match a, b with
  | VBool x, VBool y => Ok (Z.b2z x ?= Z.b2z y)
  | VInt x, VInt y => Ok (x ?= y)
  | VStr x, VStr y => Ok (String.compare x y)
  | VDate x, VDate y => Ok (x ?= y)
  | VTimestamp x, VTimestamp y => Ok (x ?= y)
  | _, _ => Raise TypeError
  end.

(** [a <= b] where Python can tell. *)
Definition value_le (a b : Value) : Prop :=
  value_compare a b = Ok Lt \/ value_compare a b = Ok Eq.

(** One step of a stable descending sort: [x], which stood before every
    element of [l], goes in front of the first element that is not
    greater than it. *)
Fixpoint insert_reverse {A : Type}
    (x : Value * A) (l : list (Value * A)) : Res (list (Value * A)) :=
  match l with
  | [] => Ok [x]
  | y :: l' =>
      c ← value_compare (fst y) (fst x);
      match c with
      | Gt => r ← insert_reverse x l'; Ok (y :: r)
      | _ => Ok (x :: y :: l')
      end
  end.

Fixpoint sort_reverse {A : Type}
    (l : list (Value * A)) : Res (list (Value * A)) :=
  match l with
  | [] => Ok []
  | x :: l' => r ← sort_reverse l'; insert_reverse x r
  end.

(** The first element of a decorated list carries a greatest key. *)
Definition head_is_max {A : Type} (l : list (Value * A)) : Prop :=
  match l with
  | [] => True
  | h :: _ => forall z, z ∈ l -> value_le (fst z) (fst h)
  end.

(** The keys of [sorted] are computed for every element before any two
    are compared. *)
Fixpoint decorate {A : Type}
    (key : A -> Res Value) (l : list A) : Res (list (Value * A)) :=
  match l with
  | [] => Ok []
  | x :: l' => k ← key x; r ← decorate key l'; Ok ((k, x) :: r)
  end.

(** [sorted(l, key=key, reverse=True)]: descending, and elements with
    equal keys keep their order. *)
Definition sorted_reverse {A : Type}
    (key : A -> Res Value) (l : list A) : Res (list A) :=
  d ← decorate key l;
  r ← sort_reverse d;
  Ok (map snd r).

Section WithExternals.
Context `{Externals}.

(* ===================================================================== *)
(** * write_records *)
(* ===================================================================== *)

(** The methods of an opened table act on the table as the store holds
    it when they are called. *)
Definition tbl_add (table_name : string) (records : DATA) : M () :=
  tbl ← open_table table_name;
  if arrow_valid tbl records
  then commit table_name (OpAdd records) (store_add tbl records)
  else raise ArrowInvalid.

Definition tbl_add_overwrite (table_name : string) (records : DATA) : M () :=
  tbl ← open_table table_name;
  if arrow_valid tbl records
  then commit table_name (OpOverwrite records) (store_overwrite tbl records)
  else raise ArrowInvalid.

Definition tbl_merge_delete_orphans
    (table_name : string) (on : string) (records : DATA) : M () :=
  tbl ← open_table table_name;
  if arrow_valid tbl records
  then commit table_name (OpMergeDeleteOrphans on records)
              (store_merge_delete_orphans tbl on records)
  else raise ArrowInvalid.

Definition tbl_merge_upsert
    (table_name : string) (on : string) (records : DATA) : M () :=
  tbl ← open_table table_name;
  if arrow_valid tbl records
  then commit table_name (OpMergeUpsert on records)
              (store_merge_upsert tbl on records)
  else raise ArrowInvalid.

(** [add_columns] takes a [dict] from the name of a new column to an SQL
    expression.  The store refuses a name that the table already has and
    an expression it cannot evaluate; otherwise it puts the new columns
    after the existing ones, each of the type of its expression and not
    nullable until [alter_columns] says otherwise.  The expressions the
    client sends are casts of NULL, so that the new cells of every
    stored row are NULL. *)
Definition store_add_columns
    (t : LanceTable) (new_fields : list (string * string))
    : option LanceTable :=
  if bool_decide
       (NoDup (map fst new_fields)
        /\ Forall (fun kv => fst kv ∉ map field_name (tbl_schema t))
                  new_fields)
  then
    added ←
      mapM (fun kv =>
              type ← sql_expression_type (snd kv);
              Some {| field_name := fst kv;
                      field_type := type;
                      field_nullable := false |})
           new_fields;
    Some {| tbl_schema := tbl_schema t ++ added;
            tbl_rows :=
              map (fun r : Row =>
                     (r ++ map (fun kv => (fst kv, VNull)) new_fields)%list)
                  (tbl_rows t) |}
  else None.

Definition tbl_add_columns
    (table_name : string) (new_fields : list (string * string)) : M () :=
  tbl ← open_table table_name;
  match store_add_columns tbl new_fields with
  | Some tbl' => commit table_name (OpAddColumns new_fields) tbl'
  | None => raise add_columns_refusal
  end.

Definition tbl_alter_columns
    (table_name : string) (path : string) (nullable : bool) : M () :=
  tbl ← open_table table_name;
  commit table_name (OpAlterNullable path nullable)
         (store_alter_nullable tbl path nullable).

Definition write_records
    (records : DATA) (table_name : string)
    (write_disposition : option string)
    (id_field_name : option string)
    (remove_orphans : bool) : M () :=
  _ ← try_except (open_table table_name)
        (fun e => bool_decide (e = FileNotFoundError))
        (fun _ => raise DestinationTransientException);
  try_except
    (if bool_decide (write_disposition ∈ [Some "append"; Some "skip"]) then
       tbl_add table_name records
     else if bool_decide (write_disposition = Some "replace") then
       tbl_add_overwrite table_name records
     else if bool_decide (write_disposition = Some "merge") then
       if negb (truthy id_field_name) then
         raise ValueError
       else if remove_orphans then
         tbl_merge_delete_orphans table_name
           (default "" id_field_name) records
       else
         tbl_merge_upsert table_name (default "" id_field_name) records
     else
       raise DestinationTerminalException)
    (fun e => bool_decide (e = ArrowInvalid))
    (fun _ => raise DestinationTerminalException).

(* ===================================================================== *)
(** * LanceDBClient *)
(* ===================================================================== *)

(** Modelled from the spec: the decorator [lancedb_error] of
    [dlt/destinations/impl/lancedb/exceptions.py] (source not
    available), section 7: exceptions are translated at the boundary; a
    store or table that is not there becomes
    [DestinationUndefinedEntity], the class [update_stored_schema]
    handles, and every other exception becomes terminal. *)
Definition lancedb_error {A : Type} (m : M A) : M A := fun w =>
  match m w with
  | (Raise e, w') =>
      (Raise (match e with
              | FileNotFoundError | DestinationUndefinedEntity =>
                  DestinationUndefinedEntity
              | _ => DestinationTerminalException
              end), w')
  | r => r
  end.

Section Client.
Variable self : LanceDBClientState.

Definition make_qualified_table_name (table_name : string) : string :=
  if truthy (dataset_name self)
  then default "" (dataset_name self) +:+ dataset_separator self +:+ table_name
  else table_name.

(** [db_client.create_table(name, schema=schema, mode="create")]: an
    existing table is refused. *)
Definition create_table (table_name : string) (schema : list Field)
    : M () :=
  lancedb_error (fun w =>
    match tables w !! table_name with
    | Some _ => (Raise ValueError, w)
    | None =>
        commit table_name (OpCreateTable schema)
               {| tbl_schema := schema; tbl_rows := [] |} w
    end).

Definition table_exists (table_name : string) : M bool :=
  names ← table_names;
  mret (bool_decide (table_name ∈ names)).

Definition get_storage_table (table_name : string)
    : M (bool * TTableSchemaColumns) :=
  opened ←
    try_except
      (let fq_table_name := make_qualified_table_name table_name in
       table ← open_table fq_table_name;
       mret (Some (tbl_schema table)))
      (fun e => bool_decide (e = FileNotFoundError))
      (fun _ => mret None);
  match opened with
  | None => mret (false, [])
  | Some arrow_schema =>
      table_schema ←
        lift (foldl (fun (acc : Res TTableSchemaColumns) (field : Field) =>
                table_schema ← acc;
                let name :=
                  normalize_identifier (schema self) (field_name field) in
                t ← LanceDBTypeMapper.from_db_type (capabilities self)
                      (field_type field) None None;
                Ok (dict_set table_schema name (name, t)))
              (Ok []) arrow_schema);
      mret (true, table_schema)
  end.

(** Modelled from the spec: [make_arrow_field_schema] of
    [dlt/destinations/impl/lancedb/schema.py] (source not available),
    section 4.2: a new column is a nullable field "typed via
    TypeMapper". *)
Definition make_arrow_field_schema
    (column_name : string) (column : TColumnSchema) : Res Field :=
  dtype ← LanceDBTypeMapper.to_db_type (capabilities self) column;
  Ok (pa_field column_name dtype).

(** The store receives the [dict] [new_fields], in which a name that
    two fields share is kept once, at the place of the first and with
    the expression of the last; the loop of [alter_columns] runs over
    the fields themselves. *)
Definition extend_lancedb_table_schema
    (table_name : string) (field_schemas : list Field) : M () :=
  lancedb_error (
    _ ← open_table table_name;
    try_except
      (let new_fields :=
         dict_literal
           (map (fun field =>
                   (field_name field,
                    "CAST(NULL AS "
                    +:+ arrow_datatype_to_fusion_datatype (field_type field)
                    +:+ ")"))
                field_schemas) in
       tbl_add_columns table_name new_fields;;
       for_each field_schemas (fun field =>
         tbl_alter_columns table_name
           (field_name field) (field_nullable field)))
      (fun e => bool_decide (e = OSError))
      (fun _ => mret ())).

(** [[f(x) for x in l]] where [f] may raise. *)
Fixpoint list_comprehension {A B : Type}
    (f : A -> Res B) (l : list A) : Res (list B) :=
  match l with
  | [] => Ok []
  | x :: l' => y ← f x; r ← list_comprehension f l'; Ok (y :: r)
  end.

(** The clock is an argument: [now] is what [pendulum.now()] returns,
    in microseconds; the store keeps it as a timestamp. *)
Definition update_schema_in_storage (now : Z) : M () :=
  lancedb_error (
    let n := normalize_identifier (schema self) in
    let records :=
      [ dict_literal
          [ (n "version", VInt (schema_version (schema self)));
            (n "engine_version", VInt (ENGINE_VERSION (schema self)));
            (n "inserted_at", VTimestamp now);
            (n "schema_name", VStr (schema_name (schema self)));
            (n "version_hash", VStr (stored_version_hash (schema self)));
            (n "schema", VStr (schema_json (schema self))) ] ] in
    let fq_version_table_name :=
      make_qualified_table_name (version_table_name (schema self)) in
    version_table ←
      lift (get_table (schema self) (version_table_name (schema self)));
    let write_disposition := write_disposition version_table in
    write_records (Records records) fq_version_table_name
      write_disposition None false).

(** Calls of [logger.info] are left out, here and in
    [update_stored_schema]. *)
Definition _execute_schema_update
    (only_tables : option (list string)) (now : Z) : M () :=
  for_each
    (if bool_decide (only_tables = None) || bool_decide (only_tables = Some [])
     then map fst (schema_tables (schema self))
     else default [] only_tables)
    (fun table_name =>
       '(exists_, existing_columns) ← get_storage_table table_name;
       new_columns ←
         lift (get_new_table_columns (schema self) table_name
                 existing_columns
                 (generates_case_sensitive_identifiers (capabilities self)));
       if bool_decide (new_columns = []) then mret ()
       else if (exists_ : bool) then
         field_schemas ←
           lift (list_comprehension
                   (fun column =>
                      make_arrow_field_schema (col_name column) column)
                   new_columns);
         let fq_table_name := make_qualified_table_name table_name in
         extend_lancedb_table_schema fq_table_name field_schemas
       else
         table_schema ←
           lift (make_arrow_table_schema self table_name
                   (bool_decide
                      (table_name ∉ dlt_table_names (schema self))));
         let fq_table_name := make_qualified_table_name table_name in
         create_table fq_table_name table_schema);;
  update_schema_in_storage now.

(** [StorageSchemaInfo], cells as read from the version table. *)
Record StorageSchemaInfo : Type := {
  ssi_version_hash : Value;
  ssi_schema_name : Value;
  ssi_version : Value;
  ssi_engine_version : Value;
  ssi_inserted_at : Value;
  ssi_schema : Value
}.

(** [StorageSchemaInfo(version_hash=row[p_version_hash], ...)]. *)
Definition storage_schema_info (most_recent_schema : Row)
    : Res StorageSchemaInfo :=
  let n := normalize_identifier (schema self) in
  version_hash ← dict_item most_recent_schema (n "version_hash");
  schema_name ← dict_item most_recent_schema (n "schema_name");
  version ← dict_item most_recent_schema (n "version");
  engine_version ← dict_item most_recent_schema (n "engine_version");
  inserted_at ← dict_item most_recent_schema (n "inserted_at");
  schema ← dict_item most_recent_schema (n "schema");
  Ok {| ssi_version_hash := version_hash;
        ssi_schema_name := schema_name;
        ssi_version := version;
        ssi_engine_version := engine_version;
        ssi_inserted_at := inserted_at;
        ssi_schema := schema |}.

(** The body shared by [get_stored_schema_by_hash] and
    [get_stored_schema], which differ in the filter alone: the rows of
    the version table whose column [column] holds the string [value],
    sorted by insertion time, newest first, and the first one taken. *)
Definition most_recent_schema_where
    (column : string) (value : string) : M (option StorageSchemaInfo) :=
  let fq_version_table_name :=
    make_qualified_table_name (version_table_name (schema self)) in
  version_table ← open_table fq_version_table_name;
  let p_inserted_at := normalize_identifier (schema self) "inserted_at" in
  try_except
    (let schemas :=
       List.filter
         (fun r => bool_decide (dict_get r column = Some (VStr value)))
         (tbl_rows version_table) in
     lift (
       sorted ← sorted_reverse (fun x => dict_item x p_inserted_at) schemas;
       most_recent_schema ← list_item sorted 0;
       info ← storage_schema_info most_recent_schema;
       Ok (Some info)))
    (fun e => bool_decide (e = IndexError))
    (fun _ => mret None).

Definition get_stored_schema_by_hash (schema_hash : string)
    : M (option StorageSchemaInfo) :=
  lancedb_error
    (most_recent_schema_where
       (normalize_identifier (schema self) "version_hash") schema_hash).

Definition get_stored_schema : M (option StorageSchemaInfo) :=
  lancedb_error
    (most_recent_schema_where
       (normalize_identifier (schema self) "schema_name")
       (schema_name (schema self))).

Definition update_stored_schema
    (only_tables : option (list string)) (now : Z)
    : M (list (string * TTableSchema)) :=
  lancedb_error (
    lift (base_update_stored_schema self only_tables);;
    let applied_update : list (string * TTableSchema) := [] in
    schema_info ←
      try_except
        (get_stored_schema_by_hash (stored_version_hash (schema self)))
        (fun e => bool_decide (e = DestinationUndefinedEntity))
        (fun _ => mret None);
    match schema_info with
    | None => _execute_schema_update only_tables now
    | Some _ => mret ()
    end;;
    mret applied_update).

(** [StateInfo], cells as read from the joined row. *)
Record StateInfo : Type := {
  si_version : Value;
  si_engine_version : Value;
  si_pipeline_name : Value;
  si_state : Value;
  si_created_at : Value;
  si_version_hash : Value;
  si_dlt_load_id : Value
}.

(** [pendulum.instance(obj)], of the pendulum library: a datetime comes
    back as the same instant and a date as the same day; NULL and every
    other value that is neither a date nor a time is refused, here with
    the [AttributeError] of a value that has no time zone to read. *)
Definition pendulum_instance (obj : Value) : Res Value :=
  match obj with
  | VTimestamp us => Ok (VTimestamp us)
  | VDate days => Ok (VDate days)
  | _ => Raise AttributeError
  end.

(** [left.join(right, keys=k, right_keys=rk, join_type="inner")]: one
    row for every pair of a left and a right row whose keys are equal
    and not NULL; the right key column is dropped. *)
Definition inner_join
    (left right : list Row) (keys right_keys : string) : list Row :=
  flat_map
    (fun l =>
       map (fun r =>
              (l ++ List.filter
                      (fun kv => negb (bool_decide (fst kv = right_keys))) r)
              %list)
           (List.filter
              (fun r =>
                 bool_decide (key_of keys l = key_of right_keys r)
                 && bool_decide (is_Some (key_of keys l))
                 && negb (bool_decide (key_of keys l = Some VNull)))
              right))
    left.

(** [StateInfo(version=state[p_version], ...,
    created_at=pendulum.instance(state[p_created_at]), ...)], the
    arguments evaluated from left to right. *)
Definition state_info (state : Row) : Res StateInfo :=
  let n := normalize_identifier (schema self) in
  version ← dict_item state (n "version");
  engine_version ← dict_item state (n "engine_version");
  pipeline_name ← dict_item state (n "pipeline_name");
  state_ ← dict_item state (n "state");
  created_at ← dict_item state (n "created_at") ≫= pendulum_instance;
  version_hash ← dict_item state (n "version_hash");
  _dlt_load_id ← dict_item state (n "_dlt_load_id");
  Ok {| si_version := version;
        si_engine_version := engine_version;
        si_pipeline_name := pipeline_name;
        si_state := state_;
        si_created_at := created_at;
        si_version_hash := version_hash;
        si_dlt_load_id := _dlt_load_id |}.

Definition get_stored_state (pipeline_name : string) : M (option StateInfo) :=
  lancedb_error (
    let fq_state_table_name :=
      make_qualified_table_name (state_table_name (schema self)) in
    let fq_loads_table_name :=
      make_qualified_table_name (loads_table_name (schema self)) in
    state_table_ ← open_table fq_state_table_name;
    loads_table_ ← open_table fq_loads_table_name;
    let n := normalize_identifier (schema self) in
    let p_load_id := n "load_id" in
    let p_dlt_load_id := n "_dlt_load_id" in
    let p_pipeline_name := n "pipeline_name" in
    let p_status := n "status" in
    let state_table :=
      List.filter
        (fun r =>
           bool_decide (dict_get r p_pipeline_name = Some (VStr pipeline_name)))
        (tbl_rows state_table_) in
    let loads_table :=
      List.filter
        (fun r => bool_decide (dict_get r p_status = Some (VInt 0)))
        (tbl_rows loads_table_) in
    joined_table ←
      lift (sorted_reverse (fun x => dict_item x p_dlt_load_id)
              (inner_join state_table loads_table p_dlt_load_id p_load_id));
    if bool_decide (length joined_table = 0%nat) then mret None
    else
      lift (
        state ← list_item joined_table 0;
        info ← state_info state;
        Ok (Some info))).

End Client.

End WithExternals.

(* ===================================================================== *)
(** * LanceDBRemoveOrphansJob *)
(* ===================================================================== *)

Module LanceDBRemoveOrphansJob.

(** [TTableLineage]: table schema, table name, path of its batch file. *)
Definition TTableLineage : Type := list (TTableSchema * string * string).

(** [next(entry[2] for entry in table_lineage if entry[1] == table)]:
    the first match, [StopIteration] when there is none. *)
Definition get_parent_path
    (table_lineage : TTableLineage) (table : option string) : Res string :=
  match List.filter
          (fun entry : TTableSchema * string * string =>
             bool_decide (Some (snd (fst entry)) = table))
          table_lineage with
  | entry :: _ => Ok (snd entry)
  | [] => Raise StopIteration
  end.

Section Job.
Context `{Externals}.
(** The job: its client, the schema it was bound to, the paths listed by
    the reference file, and the batch files on storage. *)
Variable _job_client : LanceDBClientState.
Variable _schema : Schema.
Variable references : list string.
Variable storage : gmap string ArrowTable.

(** [pq.read_table] on [FileStorage.open_zipsafe_ro(path)]. *)
Definition read_table (path : string) : Res ArrowTable :=
  match storage !! path with
  | Some t => Ok t
  | None => Raise FileNotFoundError
  end.

(** [pq.read_schema] on the same file. *)
Definition read_schema (path : string) : Res (list Field) :=
  t ← read_table path; Ok (at_schema t).

(** [set(a) - set(b)] on fields; a Python set has no order of its own,
    the fields are taken here in the order of [a]. *)
Definition schema_difference (a b : list Field) : list Field :=
  list_difference (remove_dups a) b.

(** The text of the warning, without the text of the exception. *)
Definition null_warning (field : Field) : string :=
  ". Using null values for field '" +:+ field_name field +:+ "'.".

(** The body of [for field in schema_difference]. *)
Definition pad_field (payload_arrow_table : ArrowTable) (field : Field)
    : M ArrowTable :=
  try_except
    (default_value ←
       lift (match get_default_arrow_value (field_type field) with
             | Some v => Ok v
             | None => Raise ValueError
             end);
     let default_array :=
       replicate (at_num_rows payload_arrow_table) default_value in
     mret (append_column payload_arrow_table field default_array))
    isinstance_ValueError
    (fun e =>
       logger_warn (null_warning field);;
       let null_array := replicate (at_num_rows payload_arrow_table) VNull in
       mret (append_column payload_arrow_table field null_array)).

Fixpoint pad_fields (payload_arrow_table : ArrowTable) (fields : list Field)
    : M ArrowTable :=
  match fields with
  | [] => mret payload_arrow_table
  | field :: fields' =>
      payload_arrow_table ← pad_field payload_arrow_table field;
      pad_fields payload_arrow_table fields'
  end.

(** The [if target_is_root_table: ... else: ...] of the loop body: the
    column the merge is keyed on and the file the payload is read
    from. *)
Definition merge_key_and_payload_path
    (table_lineage : TTableLineage)
    (target_table : TTableSchema) (target_table_path : string)
    : Res (string * string) :=
  let target_is_root_table := bool_decide (parent target_table = None) in
  if target_is_root_table
  then Ok ("_dlt_id", target_table_path)
  else
    (file_path ← get_parent_path table_lineage (parent target_table);
     Ok ("_dlt_parent_id", file_path)).

(** The body of [for ... in table_lineage]. *)
Definition run_table (table_lineage : TTableLineage)
    (entry : TTableSchema * string * string) : M () :=
  let '(target_table, target_table_name, target_table_path) := entry in
  let fq_table_name :=
    make_qualified_table_name _job_client target_table_name in
  '(target_table_id_field_name, file_path) ←
    lift (merge_key_and_payload_path table_lineage
            target_table target_table_path);
  payload_arrow_table ← lift (read_table file_path);
  target_table_schema ← lift (read_schema target_table_path);
  payload_arrow_table ←
    pad_fields payload_arrow_table
      (schema_difference target_table_schema (at_schema payload_arrow_table));
  let payload_arrow_table :=
    append_column payload_arrow_table
      (pa_field (id_field_name _job_client) pa_string)
      (replicate (at_num_rows payload_arrow_table) (VStr "")) in
  write_records (Arrow payload_arrow_table) fq_table_name
    (Some "merge") (Some target_table_id_field_name) true.

Definition table_lineage : Res TTableLineage :=
  list_comprehension
    (fun file_path_ =>
       table_name ← parse_table_name file_path_;
       table ← get_table _schema table_name;
       Ok (table, table_name, file_path_))
    references.

Definition run : M () :=
  table_lineage ← lift table_lineage;
  for_each table_lineage (run_table table_lineage).

End Job.

End LanceDBRemoveOrphansJob.

(* ===================================================================== *)
(** * PostgresClient *)
(* ===================================================================== *)

(** [s.endswith(suffix)]: [s] itself, or what is left of it after some
    leading characters, is [suffix]. *)
Fixpoint endswith (s suffix : string) : bool :=
  bool_decide (s = suffix)
  || match s with
     | EmptyString => false
     | String _ s' => endswith s' suffix
     end.

Module PostgresClient.

(** The jobs [create_load_job] hands out; [InheritedLoadJob] stands for
    whatever the base client returned. *)
Inductive LoadJob : Type :=
  | PostgresInsertValuesWithGeometryTypesLoadJob (file_path : string)
  | PostgresCsvCopyJob (file_path : string)
  | InheritedLoadJob (file_path : string).

Section Client.
(** [GEOMETRY_HINT] is declared by the Postgres adapter, and
    [InsertValuesJobClient.create_load_job] by the base client. *)
Variable GEOMETRY_HINT : string.
Variable super_create_load_job :
  TTableSchema -> string -> string -> bool -> Res (option LoadJob).

(** [column.get(GEOMETRY_HINT)], read for its truth value. *)
Definition has_geometry_hint (column : TColumnSchema) : bool :=
  default false (dict_get (col_hints column) GEOMETRY_HINT).

Definition create_load_job
    (table : TTableSchema) (file_path : string) (load_id : string)
    (restore : bool) : Res (option LoadJob) :=
  if existsb has_geometry_hint (map snd (columns table)) then
    if endswith file_path "insert_values" then
      Ok (Some (PostgresInsertValuesWithGeometryTypesLoadJob file_path))
    else
      Raise TerminalValueError
  else
    job ← super_create_load_job table file_path load_id restore;
    if bool_decide (job = None) && endswith file_path "csv"
    then Ok (Some (PostgresCsvCopyJob file_path))
    else Ok job.

End Client.

End PostgresClient.

(* ===================================================================== *)
(** * Vocabulary of the properties *)
(* ===================================================================== *)

Definition is_timestamp (v : Value) : Prop := exists ts, v = VTimestamp ts.


(** A row of the version table as the client writes it: the six columns
    are there and [inserted_at] holds a timestamp. *)
Definition version_row_ok (n : string -> string) (r : Row) : Prop :=
  is_Some (dict_get r (n "version_hash"))
  /\ is_Some (dict_get r (n "schema_name"))
  /\ is_Some (dict_get r (n "version"))
  /\ is_Some (dict_get r (n "engine_version"))
  /\ is_Some (dict_get r (n "schema"))
  /\ exists ts, dict_get r (n "inserted_at") = Some (VTimestamp ts).

(** [r] is one of [candidates] and no candidate was inserted later. *)
Definition newest (p_inserted_at : string) (candidates : list Row) (r : Row)
    : Prop :=
  r ∈ candidates
  /\ exists ts,
       dict_get r p_inserted_at = Some (VTimestamp ts)
       /\ forall r' ts',
            r' ∈ candidates ->
            dict_get r' p_inserted_at = Some (VTimestamp ts') ->
            ts' <= ts.

(** [info] holds the six cells of the row [r], each in its own field. *)
Definition schema_info_of_row
    (n : string -> string) (r : Row) (info : StorageSchemaInfo) : Prop :=
  dict_get r (n "version_hash") = Some (ssi_version_hash info)
  /\ dict_get r (n "schema_name") = Some (ssi_schema_name info)
  /\ dict_get r (n "version") = Some (ssi_version info)
  /\ dict_get r (n "engine_version") = Some (ssi_engine_version info)
  /\ dict_get r (n "inserted_at") = Some (ssi_inserted_at info)
  /\ dict_get r (n "schema") = Some (ssi_schema info).

(** The lookup policy of the version table, for the rows whose column
    [column] holds [value]: the world is left as it was; without a
    matching row the answer is [None]; with matching rows the answer
    holds the cells of a newest one. *)
Definition latest_wins
    (self : LanceDBClientState) (column value : string)
    (version_table : LanceTable) (w : World)
    (result : Res (option StorageSchemaInfo) * World) : Prop :=
  let n := normalize_identifier (schema self) in
  let candidates :=
    List.filter (fun r => bool_decide (dict_get r column = Some (VStr value)))
                (tbl_rows version_table) in
  snd result = w
  /\ (candidates = [] -> fst result = Ok None)
  /\ (candidates <> [] -> Forall (version_row_ok n) candidates ->
      exists r info,
        newest (n "inserted_at") candidates r
        /\ schema_info_of_row n r info
        /\ fst result = Ok (Some info)).



(** The state rows of a pipeline whose load is marked complete: some row
    of the loads table with status 0 carries the load id of the row. *)
Definition completed_state_rows
    (n : string -> string) (pipeline_name : string)
    (state_table loads_table : LanceTable) : list Row :=
  List.filter
    (fun s =>
       bool_decide (dict_get s (n "pipeline_name") = Some (VStr pipeline_name))
       && existsb
            (fun l =>
               bool_decide (dict_get l (n "status") = Some (VInt 0))
               && bool_decide (dict_get s (n "_dlt_load_id")
                               = dict_get l (n "load_id"))
               && bool_decide (is_Some (dict_get s (n "_dlt_load_id")))
               && negb (bool_decide (dict_get s (n "_dlt_load_id")
                                     = Some VNull)))
            (tbl_rows loads_table))
    (tbl_rows state_table).


(** The world after the logger received [msgs]. *)
Definition with_warnings (w : World) (msgs : list string) : World :=
  {| tables := tables w;
     requests := requests w;
     warnings := warnings w ++ msgs |}.

(** The fields that get NULL instead of a default. *)
Definition without_default `{Externals} (fields : list Field) : list Field :=
  List.filter
    (fun f => bool_decide (get_default_arrow_value (field_type f) = None))
    fields.

(** The column the orphan-removal job adds for [field]: the default of
    the type in every row, NULL where the type has no default. *)
Definition padding_column `{Externals} (num_rows : nat) (field : Field)
    : list Value :=
  replicate num_rows
    (default VNull (get_default_arrow_value (field_type field))).

(** The payload the orphan-removal job hands to the merge: the batch,
    then one padding column per field of [missing], then the id field of
    the client filled with empty strings. *)
Definition padded_payload `{Externals}
    (id_field_name : string) (payload : ArrowTable) (missing : list Field)
    : ArrowTable :=
  {| at_schema :=
       at_schema payload ++ missing ++ [pa_field id_field_name pa_string];
     at_num_rows := at_num_rows payload;
     at_columns :=
       at_columns payload
       ++ map (padding_column (at_num_rows payload)) missing
       ++ [replicate (at_num_rows payload) (VStr "")] |}.

(** [file] is the path of the first entry of the lineage whose table is
    named [name]. *)
Definition first_entry_named
    (lineage : LanceDBRemoveOrphansJob.TTableLineage)
    (name file : string) : Prop :=
  exists before entry after,
    lineage = before ++ entry :: after
    /\ snd (fst entry) = name
    /\ snd entry = file
    /\ forall e, e ∈ before -> snd (fst e) <> name.

(** The write request the orphan-removal job sends for one entry of the
    lineage: a merge that only deletes unmatched rows, on the table of
    the entry; a root is keyed on [_dlt_id] and takes its own batch file
    as payload, a child is keyed on [_dlt_parent_id] and takes the batch
    file of its parent, found first in the lineage. *)
Definition orphan_request `{Externals}
    (job_client : LanceDBClientState) (storage : gmap string ArrowTable)
    (lineage : LanceDBRemoveOrphansJob.TTableLineage)
    (entry : TTableSchema * string * string)
    (request : string * Operation) : Prop :=
  exists key file payload target_file,
    match parent (fst (fst entry)) with
    | None => key = "_dlt_id" /\ file = snd entry
    | Some p => key = "_dlt_parent_id" /\ first_entry_named lineage p file
    end
    /\ storage !! file = Some payload
    /\ storage !! snd entry = Some target_file
    /\ request
       = (make_qualified_table_name job_client (snd (fst entry)),
          OpMergeDeleteOrphans key
            (Arrow (padded_payload (id_field_name job_client) payload
                      (LanceDBRemoveOrphansJob.schema_difference
                         (at_schema target_file) (at_schema payload))))).

(** The world after the store accepted [sent] and now holds [t] under
    [name]. *)
Definition set_table (w : World) (name : string) (t : LanceTable)
    (sent : list (string * Operation)) : World :=
  {| tables := <[name := t]> (tables w);
     requests := requests w ++ sent;
     warnings := warnings w |}.

(** Every run of [m] takes a world to one that is [R]-related to it,
    whether [m] returns or raises. *)
Definition respects (R : World -> World -> Prop) {A : Type} (m : M A)
    : Prop :=
  forall w, R w (snd (m w)).

(** [alter_columns] for every field of [fields], in turn. *)
Definition alter_all (t : LanceTable) (fields : list Field) : LanceTable :=
  foldl (fun t f => store_alter_nullable t (field_name f) (field_nullable f))
        t fields.

(** The [dict] that [extend_lancedb_table_schema] hands to
    [add_columns]. *)
Definition null_casts `{Externals} (field_schemas : list Field)
    : list (string * string) :=
  dict_literal
    (map (fun field =>
            (field_name field,
             "CAST(NULL AS "
             +:+ arrow_datatype_to_fusion_datatype (field_type field)
             +:+ ")"))
         field_schemas).

(** The columns [get_storage_table] reports for a table whose physical
    schema is [arrow_schema]. *)
Definition storage_columns
    (self : LanceDBClientState) (arrow_schema : list Field)
    : Res TTableSchemaColumns :=
  foldl (fun (acc : Res TTableSchemaColumns) (field : Field) =>
           table_schema ← acc;
           let name :=
             normalize_identifier (schema self) (field_name field) in
           t ← LanceDBTypeMapper.from_db_type (capabilities self)
                 (field_type field) None None;
           Ok (dict_set table_schema name (name, t)))
        (Ok []) arrow_schema.



(** The field added for the new column [c]: it bears the name of the
    column, it is nullable, and its type is the one the store reads
    from the cast of NULL to the name that
    [arrow_datatype_to_fusion_datatype] gives to the type the mapper
    chose for the column. *)
Definition added_for_column `{Externals}
    (self : LanceDBClientState) (c : TColumnSchema) (f : Field) : Prop :=
  field_name f = col_name c
  /\ field_nullable f = true
  /\ exists dtype,
       LanceDBTypeMapper.to_db_type (capabilities self) c = Ok dtype
       /\ sql_expression_type
            ("CAST(NULL AS " +:+ arrow_datatype_to_fusion_datatype dtype
             +:+ ")")
          = Some (field_type f).

(** One application of the schema delta of the logical table
    [table_name] to a table of physical schema [s]: the columns are read
    from [s], the logical schema reports the new ones, and [s'] is [s]
    followed by one field for every name among the new columns, none of
    which [s] has. *)
Definition delta_applied `{Externals}
    (self : LanceDBClientState) (table_name : string) (s s' : list Field)
    : Prop :=
  exists existing_columns new_columns added,
    storage_columns self s = Ok existing_columns
    /\ get_new_table_columns (schema self) table_name existing_columns
         (generates_case_sensitive_identifiers (capabilities self))
       = Ok new_columns
    /\ s' = s ++ added
    /\ NoDup (map field_name added)
    /\ (forall c, c ∈ new_columns -> col_name c ∈ map field_name added)
    /\ Forall (fun f =>
                 (field_name f ∉ map field_name s)
                 /\ (exists c,
                       c ∈ new_columns /\ added_for_column self c f))
              added.

(** The physical schema [s] of the table stored as [name] has become
    [s'] by applications of the delta of a logical table of which
    [name] is the qualified name, and by nothing else. *)
Definition extended_in_place `{Externals}
    (self : LanceDBClientState) (name : string) (s s' : list Field) : Prop :=
  rtc (fun s s' =>
         exists table_name,
           make_qualified_table_name self table_name = name
           /\ delta_applied self table_name s s')
      s s'.



(** The stored schema records that carry [hash]. *)
Definition version_records
    (self : LanceDBClientState) (hash : string) (w : World) : list Row :=
  match tables w
          !! make_qualified_table_name self (version_table_name (schema self))
  with
  | Some t =>
      List.filter
        (fun r => bool_decide
                    (dict_get r (normalize_identifier (schema self)
                                   "version_hash")
                     = Some (VStr hash)))
        (tbl_rows t)
  | None => []
  end.

(** The columns of the version table. *)
Definition version_columns : list string :=
  ["version"; "engine_version"; "inserted_at"; "schema_name";
   "version_hash"; "schema"].

(** The record [update_schema_in_storage] writes at time [now], when the
    naming convention keeps the six column names apart. *)
Definition stored_schema_record (self : LanceDBClientState) (now : Z) : Row :=
  let n := normalize_identifier (schema self) in
  [ (n "version", VInt (schema_version (schema self)));
    (n "engine_version", VInt (ENGINE_VERSION (schema self)));
    (n "inserted_at", VTimestamp now);
    (n "schema_name", VStr (schema_name (schema self)));
    (n "version_hash", VStr (stored_version_hash (schema self)));
    (n "schema", VStr (schema_json (schema self))) ].

(** No record of [hash] before, none after. *)
Definition keeps_hash_absent
    (self : LanceDBClientState) (hash : string) (w w' : World) : Prop :=
  version_records self hash w = [] -> version_records self hash w' = [].

(* ===================================================================== *)
(** * Sample data *)
(* ===================================================================== *)

(** The characters of a file name before its first dot. *)
Fixpoint before_dot (s : string) : string :=
  match s with
  | EmptyString => EmptyString
  | String c s' =>
      if bool_decide (c = "."%char) then EmptyString
      else String c (before_dot s')
  end.

(** Modelled from the spec: [Schema.get_new_table_columns] (source not
    available), section 4.2: "the logical columns not present physically
    (by normalized name)". *)
Definition new_columns_by_name
    (schema : Schema) (table_name : string)
    (existing_columns : TTableSchemaColumns) (case_sensitive : bool)
    : Res (list TColumnSchema) :=
  table ← get_table schema table_name;
  Ok (List.filter
        (fun c => negb (bool_decide
                          (is_Some (dict_get existing_columns (col_name c)))))
        (map snd (columns table))).

(** Names of Arrow types in SQL, for the examples below: a timestamp
    goes without its unit and its time zone. *)
Definition sample_fusion_datatype (t : ArrowType) : string :=
  match t with
  | pa_bool => "BOOLEAN"
  | pa_int64 => "BIGINT"
  | pa_float64 => "DOUBLE"
  | pa_string => "STRING"
  | pa_binary => "BYTEA"
  | pa_date32 => "DATE"
  | pa_timestamp _ _ => "TIMESTAMP"
  | pa_decimal128 p s =>
      "DECIMAL("
      +:+ DecimalString.NilZero.string_of_int (Z.to_int p) +:+ ", "
      +:+ DecimalString.NilZero.string_of_int (Z.to_int s) +:+ ")"
  | _ => "UNKNOWN"
  end.

(** An instance of the external code for the examples below: every batch
    is accepted, defaults exist for strings, integers, doubles,
    booleans, dates and timestamps, a file is named after its table, a
    new table gets one nullable field per logical column, the store
    reads a cast to one of six plain types as that type and a cast to
    TIMESTAMP as a timestamp in nanoseconds without time zone, and a
    refusal of [add_columns] is reported as [OSError]. *)
#[local] Instance sample_externals : Externals := {|
  arrow_valid := fun _ _ => true;
  get_default_arrow_value := fun t =>
    match t with
    | pa_string => Some (VStr "")
    | pa_int64 => Some (VInt 0)
    | pa_float64 => Some (VFloat 0)
    | pa_bool => Some (VBool false)
    | pa_date32 => Some (VDate 0)
    | pa_timestamp _ _ => Some (VTimestamp 0)
    | _ => None
    end;
  parse_table_name := fun p => Ok (before_dot p);
  get_new_table_columns := new_columns_by_name;
  make_arrow_table_schema := fun self table_name _ =>
    table ← get_table (schema self) table_name;
    list_comprehension
      (fun c => make_arrow_field_schema self (col_name c) c)
      (map snd (columns table));
  base_update_stored_schema := fun _ _ => Ok ();
  arrow_datatype_to_fusion_datatype := sample_fusion_datatype;
  sql_expression_type := fun expression =>
    snd <$> List.find
              (fun p : string * ArrowType =>
                 bool_decide
                   (expression = "CAST(NULL AS " +:+ fst p +:+ ")"))
              [ ("BOOLEAN", pa_bool); ("BIGINT", pa_int64);
                ("DOUBLE", pa_float64); ("STRING", pa_string);
                ("BYTEA", pa_binary); ("DATE", pa_date32);
                ("TIMESTAMP", pa_timestamp "ns" "") ];
  add_columns_refusal := OSError
|}.

(** Capabilities for the examples: decimals of (38, 18) by default, wei
    as (38, 0), timestamps in microseconds. *)
Definition lancedb_capabilities : Capabilities :=
  {| decimal_precision := (38, 18);
     wei_precision := (38, 0);
     timestamp_precision := 6;
     generates_case_sensitive_identifiers := true |}.

Definition plain_column (name data_type : string) : TColumnSchema :=
  {| col_name := name; col_data_type := data_type;
     col_precision := None; col_scale := None; col_hints := [] |}.

Definition version_table_schema : TTableSchema :=
  {| table_name := "_dlt_version"; parent := None;
     write_disposition := Some "skip";
     columns := [ ("version", plain_column "version" "bigint");
                  ("version_hash", plain_column "version_hash" "text") ] |}.

Definition items_table : TTableSchema :=
  {| table_name := "items"; parent := None;
     write_disposition := Some "merge";
     columns := [ ("id", plain_column "id" "bigint");
                  ("name", plain_column "name" "text");
                  ("_dlt_id", plain_column "_dlt_id" "text") ] |}.

Definition tags_table : TTableSchema :=
  {| table_name := "items__tags"; parent := Some "items";
     write_disposition := Some "merge";
     columns := [ ("tag", plain_column "tag" "text");
                  ("_dlt_parent_id", plain_column "_dlt_parent_id" "text");
                  ("_dlt_id", plain_column "_dlt_id" "text") ] |}.

Definition notes_table : TTableSchema :=
  {| table_name := "items__tags__notes"; parent := Some "items__tags";
     write_disposition := Some "merge";
     columns := [ ("note", plain_column "note" "text");
                  ("_dlt_parent_id",
                   plain_column "_dlt_parent_id" "text") ] |}.

(** A schema with the version table, a root table [items] loaded with
    merge, its child [items__tags] and its grandchild
    [items__tags__notes]; identifiers are kept as they are. *)
Definition sample_schema : Schema :=
  {| schema_name := "shop";
     schema_version := 2;
     ENGINE_VERSION := 9;
     stored_version_hash := "H1";
     schema_tables :=
       [ ("_dlt_version", version_table_schema);
         ("items", items_table);
         ("items__tags", tags_table);
         ("items__tags__notes", notes_table) ];
     version_table_name := "_dlt_version";
     loads_table_name := "_dlt_loads";
     state_table_name := "_dlt_pipeline_state";
     dlt_table_names :=
       ["_dlt_version"; "_dlt_loads"; "_dlt_pipeline_state"];
     normalize_identifier := fun s => s;
     schema_json := "{}" |}.

Definition sample_client : LanceDBClientState :=
  {| schema := sample_schema;
     capabilities := lancedb_capabilities;
     dataset_name := Some "ds";
     dataset_separator := "___";
     vector_field_name := "vector";
     id_field_name := "id__" |}.

Definition version_row (hash : string) (inserted_at : Z) (version : Z) : Row :=
  [ ("version", VInt version);
    ("engine_version", VInt 9);
    ("inserted_at", VTimestamp inserted_at);
    ("schema_name", VStr "shop");
    ("version_hash", VStr hash);
    ("schema", VStr "{}") ].

(** A store whose version table holds three rows: hash H1 inserted at
    10, hash H2 at 20 and hash H1 again at 30. *)
Definition versions_world : World :=
  {| tables :=
       {[ "ds____dlt_version" :=
            {| tbl_schema := [];
               tbl_rows := [ version_row "H1" 10 1;
                             version_row "H2" 20 2;
                             version_row "H1" 30 3 ] |} ]};
     requests := [];
     warnings := [] |}.

Definition state_row (pipeline load_id : string) (version : Z) : Row :=
  [ ("version", VInt version);
    ("engine_version", VInt 4);
    ("pipeline_name", VStr pipeline);
    ("state", VStr "..");
    ("created_at", VTimestamp 5);
    ("version_hash", VStr "S");
    ("_dlt_load_id", VStr load_id) ].

Definition load_row (load_id : string) (status : Z) : Row :=
  [ ("load_id", VStr load_id);
    ("schema_name", VStr "shop");
    ("status", VInt status);
    ("inserted_at", VTimestamp 7);
    ("schema_version_hash", VNull) ].

Definition sample_state_table : LanceTable :=
  {| tbl_schema := [];
     tbl_rows := [ state_row "p" "100" 1;
                   state_row "p" "200" 2;
                   state_row "q" "300" 3;
                   state_row "p" "150" 4 ] |}.

Definition sample_loads_table : LanceTable :=
  {| tbl_schema := [];
     tbl_rows := [ load_row "100" 0;
                   load_row "150" 0;
                   load_row "200" 1;
                   load_row "300" 0 ] |}.

(** A store with four state rows, three of pipeline [p], and four
    loads, of which load 200 is not marked complete. *)
Definition states_world : World :=
  {| tables :=
       {[ "ds____dlt_pipeline_state" := sample_state_table;
          "ds____dlt_loads" := sample_loads_table ]};
     requests := [];
     warnings := [] |}.

(** Batch files of one load: the root [items] with three rows, its
    child [items__tags] and its grandchild [items__tags__notes]. *)
Definition items_file : ArrowTable :=
  {| at_schema := [ pa_field "_dlt_id" pa_string;
                    pa_field "id" pa_int64;
                    pa_field "name" pa_string ];
     at_num_rows := 3;
     at_columns := [ [VStr "a"; VStr "b"; VStr "c"];
                     [VInt 1; VInt 2; VInt 3];
                     [VStr "x"; VStr "y"; VStr "z"] ] |}.

Definition tags_file : ArrowTable :=
  {| at_schema := [ pa_field "_dlt_id" pa_string;
                    pa_field "_dlt_parent_id" pa_string;
                    pa_field "tag" pa_string;
                    pa_field "blob" pa_binary ];
     at_num_rows := 1;
     at_columns := [ [VStr "t1"]; [VStr "a"]; [VStr "red"]; [VNull] ] |}.

Definition notes_file : ArrowTable :=
  {| at_schema := [ pa_field "_dlt_parent_id" pa_string;
                    pa_field "note" pa_string ];
     at_num_rows := 1;
     at_columns := [ [VStr "t1"]; [VStr "hello"] ] |}.

Definition sample_storage : gmap string ArrowTable :=
  {[ "items.1.0.parquet" := items_file;
     "items__tags.1.0.parquet" := tags_file;
     "items__tags__notes.1.0.parquet" := notes_file ]}.

(** A store that holds the three data tables from an earlier load, with
    a fourth item [d] and a tag that hangs on it. *)
Definition orphans_world : World :=
  {| tables :=
       {[ "ds___items" :=
            {| tbl_schema := at_schema items_file;
               tbl_rows := [ [("_dlt_id", VStr "a"); ("id", VInt 1)];
                             [("_dlt_id", VStr "b"); ("id", VInt 2)];
                             [("_dlt_id", VStr "c"); ("id", VInt 3)];
                             [("_dlt_id", VStr "d"); ("id", VInt 4)] ] |};
          "ds___items__tags" :=
            {| tbl_schema := at_schema tags_file;
               tbl_rows := [ [("_dlt_id", VStr "t1");
                              ("_dlt_parent_id", VStr "a")];
                             [("_dlt_id", VStr "t9");
                              ("_dlt_parent_id", VStr "d")] ] |};
          "ds___items__tags__notes" :=
            {| tbl_schema := at_schema notes_file;
               tbl_rows := [ [("_dlt_parent_id", VStr "t1")] ] |} ]};
     requests := [];
     warnings := [] |}.

(** The reference file of the whole chain, and one that lacks the file
    of [items__tags], the parent of [items__tags__notes]. *)
Definition sample_references : list string :=
  [ "items.1.0.parquet";
    "items__tags.1.0.parquet";
    "items__tags__notes.1.0.parquet" ].

Definition broken_references : list string :=
  [ "items.1.0.parquet"; "items__tags__notes.1.0.parquet" ].

Definition sample_lineage : LanceDBRemoveOrphansJob.TTableLineage :=
  [ (items_table, "items", "items.1.0.parquet");
    (tags_table, "items__tags", "items__tags.1.0.parquet");
    (notes_table, "items__tags__notes", "items__tags__notes.1.0.parquet") ].

Definition broken_lineage : LanceDBRemoveOrphansJob.TTableLineage :=
  [ (items_table, "items", "items.1.0.parquet");
    (notes_table, "items__tags__notes", "items__tags__notes.1.0.parquet") ].

(** A store of an earlier schema version: [items] has the columns [id]
    and [name] only, and no other table exists yet. *)
Definition evolving_world : World :=
  {| tables :=
       {[ "ds___items" :=
            {| tbl_schema := [pa_field "id" pa_int64;
                              pa_field "name" pa_string];
               tbl_rows := [ [("id", VInt 1); ("name", VStr "x")] ] |} ]};
     requests := [];
     warnings := [] |}.

Definition empty_world : World :=
  {| tables := ∅; requests := []; warnings := [] |}.

(** A store that holds one empty table [items] with a single column. *)
Definition items_world : World :=
  {| tables :=
       {[ "items" := {| tbl_schema := [pa_field "id" pa_int64];
                        tbl_rows := [] |} ]};
     requests := [];
     warnings := [] |}.

Definition geometry_table : TTableSchema :=
  {| table_name := "places";
     parent := None;
     write_disposition := Some "append";
     columns :=
       [ ("id", {| col_name := "id"; col_data_type := "bigint";
                   col_precision := None; col_scale := None;
                   col_hints := [] |});
         ("geom", {| col_name := "geom"; col_data_type := "text";
                     col_precision := None; col_scale := None;
                     col_hints := [("x-postgres-geometry", true)] |}) ] |}.

(* ===================================================================== *)
(** * Python strings *)
(* ===================================================================== *)

(** A string is read as a sequence of code points below 256.
    [str.isspace] holds for these of them. *)
Definition is_space (c : ascii) : bool :=
  bool_decide
    (nat_of_ascii c ∈ [9; 10; 11; 12; 13; 28; 29; 30; 31; 32; 133; 160]%nat).

Definition is_char (c : ascii) (c' : ascii) : bool := bool_decide (c' = c).

(** [s.lstrip(chars)] and [s.rstrip(chars)], the characters given as a
    test. *)
Fixpoint lstrip_chars (p : ascii -> bool) (s : string) : string :=
  match s with
  | EmptyString => EmptyString
  | String c s' => if p c then lstrip_chars p s' else s
  end.

Fixpoint rstrip_chars (p : ascii -> bool) (s : string) : string :=
  match s with
  | EmptyString => EmptyString
  | String c s' =>
      match rstrip_chars p s' with
      | EmptyString => if p c then EmptyString else String c EmptyString
      | r => String c r
      end
  end.

(** [s.strip()]. *)
Definition strip (s : string) : string :=
  lstrip_chars is_space (rstrip_chars is_space s).

(** [s.startswith(prefix)]. *)
Definition startswith (s prefix : string) : bool := String.prefix prefix s.

(** [for char in text], threading a state. *)
Fixpoint for_char {S : Type} (body : S -> ascii -> S) (text : string) (st : S)
    : S :=
  match text with
  | EmptyString => st
  | String char text' => for_char body text' (body st char)
  end.

(** [current.append(char)] on a list of characters kept as a string. *)
Definition append_char (current : string) (char : ascii) : string :=
  current +:+ String char EmptyString.

(** The exceptions of the code below that [Exn] does not list. *)
Inductive PyError : Type :=
  | AssertionError
  | DestinationInvalidFileFormat
  | Builtin (e : Exn).

Inductive Outcome (A : Type) : Type :=
  | Returns (a : A)
  | Raises (e : PyError).
Arguments Returns {A} a.
Arguments Raises {A} e.

(** The line feed.  [sep.join(parts)] is written [String.concat sep
    parts] below. *)
Definition newline : string := String "010" "".

(** [s.split(sep)]: the pieces of [s] between the occurrences of [sep],
    found from the left; an empty separator raises [ValueError].
    [skip] counts the characters of a separator just found that are
    still to be passed over. *)
Fixpoint split_go (sep : string) (skip : nat) (current : string) (s : string)
    : list string :=
  match s with
  | EmptyString => [current]
  | String c s' =>
      match skip with
      | S skip' => split_go sep skip' current s'
      | O =>
          if startswith s sep
          then current :: split_go sep (String.length sep - 1) "" s'
          else split_go sep 0 (append_char current c) s'
      end
  end.

Definition split (s sep : string) : Outcome (list string) :=
  if bool_decide (sep = "") then Raises (Builtin ValueError)
  else Returns (split_go sep 0 "" s).

(** [l[:n]]. *)
Definition slice_to {A : Type} (l : list A) (n : nat) : list A := take n l.

(* ===================================================================== *)
(** * PostgresCsvCopyJob *)
(* ===================================================================== *)

(** [CsvFormatConfiguration], by the attributes [run] reads. *)
Record CsvFormatConfiguration : Type := {
  delimiter : string;
  include_header : bool;
  encoding : string;
  on_error_continue : bool
}.

Module PostgresCsvCopyJob.

Section Job.
(** [sql_client.escape_column_name(_, escape=True)] and
    [sql_client.make_qualified_table_name] belong to the SQL client,
    [is_nullable_column] to [dlt/common/schema/utils.py]. *)
Variable escape_column_name : string -> string.
Variable make_qualified_table_name : string -> string.
Variable is_nullable_column : TColumnSchema -> bool.
(** The job: its file path, the resolved csv format, the table it
    loads, with the columns the schema has for it, and the first line
    of the file as decoded. *)
Variable _file_path : string.
Variable csv_format : CsvFormatConfiguration.
Variable load_table_name : string.
Variable table_columns : list (string * TColumnSchema).
Variable first_line : string.

Definition double_quote : ascii := "034"%char.

(** [h.strip(q)] where [q] is the double quotation mark. *)
Definition strip_quotes (h : string) : string :=
  lstrip_chars (is_char double_quote) (rstrip_chars (is_char double_quote) h).

(** The first part of [run]: the headers as read or as taken from the
    table, before they are escaped, with the warnings logged (the
    second warning without the texts of the two lists). *)
Definition read_headers : list string * Outcome (list string) :=
  let sep := delimiter csv_format in
  let warnings :=
    if on_error_continue csv_format then
      ["When processing " +:+ _file_path +:+ " on table " +:+ load_table_name
       +:+ " Postgres csv reader does not support on_error_continue"]
    else [] in
  if include_header csv_format then
    let headers_row := strip first_line in
    match split headers_row sep with
    | Returns split_headers => (warnings, Returns split_headers)
    | Raises e => (warnings, Raises e)
    end
  else
    match split (strip first_line) sep with
    | Raises e => (warnings, Raises e)
    | Returns split_first_row =>
        let split_headers := map fst table_columns in
        if (length split_headers <? length split_first_row)%nat then
          (warnings, Raises DestinationInvalidFileFormat)
        else if (length split_first_row <? length split_headers)%nat then
          (warnings
             ++ ["First row has less rows than columns in table "
                 +:+ load_table_name
                 +:+ ". We will not load data to superfluous columns."],
           Returns (slice_to split_headers (length split_first_row)))
        else (warnings, Returns split_headers)
    end.

(** The escaped columns of the table, and those of them that are read
    as headers and may be NULL. *)
Definition split_columns : list string :=
  map (fun col => escape_column_name (col_name col)) (map snd table_columns).

Definition split_null_headers (split_headers : list string) : list string :=
  map (fun col => escape_column_name (col_name col))
    (List.filter
       (fun col =>
          bool_decide (escape_column_name (col_name col) ∈ split_headers)
          && is_nullable_column col)
       (map snd table_columns)).

(** The statement handed to [cursor.copy_expert]. *)
Definition copy_sql (split_headers split_null_headers : list string)
    : string :=
  let headers := String.concat "," split_headers in
  let null_headers :=
    match split_null_headers with
    | [] => ""
    | _ => "FORCE_NULL(" +:+ String.concat "," split_null_headers +:+ "),"
    end in
  "COPY " +:+ make_qualified_table_name load_table_name +:+ " (" +:+ headers
  +:+ ") FROM STDIN WITH (FORMAT CSV, DELIMITER '" +:+ delimiter csv_format
  +:+ "', NULL '', " +:+ null_headers +:+ " ENCODING '"
  +:+ encoding csv_format +:+ "')".

(** [run], up to the call of [copy_expert]: the warnings logged and the
    statement sent. *)
Definition run : list string * Outcome string :=
  match read_headers with
  | (warnings, Raises e) => (warnings, Raises e)
  | (warnings, Returns split_headers) =>
      let split_headers :=
        map (fun h => escape_column_name (strip_quotes h)) split_headers in
      let split_null_headers := split_null_headers split_headers in
      let split_unknown_headers :=
        list_difference (remove_dups split_headers) split_columns in
      match split_unknown_headers with
      | _ :: _ => (warnings, Raises DestinationInvalidFileFormat)
      | [] => (warnings, Returns (copy_sql split_headers split_null_headers))
      end
  end.

End Job.

End PostgresCsvCopyJob.

(* ===================================================================== *)
(** * PostgresInsertValuesWithGeometryTypesLoadJob: text of a fragment *)
(* ===================================================================== *)

Module PostgresInsertValuesWithGeometryTypesLoadJob.

(** The two [while] loops of [_clean_value] drop the opening
    parentheses at the front and the closing ones at the end. *)
Definition _clean_value (value : string) : string :=
  let value := strip value in
  let value := lstrip_chars (is_char "(") value in
  let value := rstrip_chars (is_char ")") value in
  strip value.

Definition _parse_value (value : string) : string :=
  let value := _clean_value value in
  if bool_decide (value = "") || bool_decide (value = "NULL") then "NULL"
  else if startswith value "E'" && endswith value "'" then
    substring 2 (String.length value - 3) value
  else if startswith value "'" && endswith value "'" then
    substring 1 (String.length value - 2) value
  else value.

(** The loop state of [_split_fragment_to_records]. *)
Record FragmentState : Type := {
  fs_records : list string;
  fs_current_record : string;
  fs_paren_count : Z;
  fs_in_quote : bool;
  fs_escape_next : bool
}.

Definition fragment_start : FragmentState :=
  {| fs_records := [];
     fs_current_record := "";
     fs_paren_count := 0;
     fs_in_quote := false;
     fs_escape_next := false |}.

(** The body of [for char in text] in [_split_fragment_to_records]. *)
Definition fragment_step (st : FragmentState) (char : ascii) : FragmentState :=
  if fs_escape_next st then
    {| fs_records := fs_records st;
       fs_current_record := append_char (fs_current_record st) char;
       fs_paren_count := fs_paren_count st;
       fs_in_quote := fs_in_quote st;
       fs_escape_next := false |}
  else if bool_decide (char = "\"%char) then
    {| fs_records := fs_records st;
       fs_current_record := append_char (fs_current_record st) char;
       fs_paren_count := fs_paren_count st;
       fs_in_quote := fs_in_quote st;
       fs_escape_next := true |}
  else if bool_decide (char = "'"%char) && negb (fs_escape_next st) then
    {| fs_records := fs_records st;
       fs_current_record := append_char (fs_current_record st) char;
       fs_paren_count := fs_paren_count st;
       fs_in_quote := negb (fs_in_quote st);
       fs_escape_next := fs_escape_next st |}
  else if bool_decide (char = "("%char) && negb (fs_in_quote st) then
    let paren_count := fs_paren_count st + 1 in
    if paren_count =? 1 then
      {| fs_records := fs_records st;
         fs_current_record := fs_current_record st;
         fs_paren_count := paren_count;
         fs_in_quote := fs_in_quote st;
         fs_escape_next := fs_escape_next st |}
    else
      {| fs_records := fs_records st;
         fs_current_record := append_char (fs_current_record st) char;
         fs_paren_count := paren_count;
         fs_in_quote := fs_in_quote st;
         fs_escape_next := fs_escape_next st |}
  else if bool_decide (char = ")"%char) && negb (fs_in_quote st) then
    let paren_count := fs_paren_count st - 1 in
    if paren_count =? 0 then
      {| fs_records := fs_records st ++ [fs_current_record st];
         fs_current_record := "";
         fs_paren_count := paren_count;
         fs_in_quote := fs_in_quote st;
         fs_escape_next := fs_escape_next st |}
    else
      {| fs_records := fs_records st;
         fs_current_record := append_char (fs_current_record st) char;
         fs_paren_count := paren_count;
         fs_in_quote := fs_in_quote st;
         fs_escape_next := fs_escape_next st |}
  else if (0 <? fs_paren_count st) || fs_in_quote st then
    {| fs_records := fs_records st;
       fs_current_record := append_char (fs_current_record st) char;
       fs_paren_count := fs_paren_count st;
       fs_in_quote := fs_in_quote st;
       fs_escape_next := fs_escape_next st |}
  else st.

Definition _split_fragment_to_records (text : string) : list string :=
  let text := strip (rstrip_chars (is_char ";") (strip text)) in
  fs_records (for_char fragment_step text fragment_start).

(** The loop state of [_split_record_to_datums]. *)
Record DatumState : Type := {
  ds_values : list string;
  ds_current : string;
  ds_paren_count : Z;
  ds_in_quote : bool;
  ds_escape_next : bool;
  ds_in_array : bool
}.

Definition datum_start : DatumState :=
  {| ds_values := [];
     ds_current := "";
     ds_paren_count := 0;
     ds_in_quote := false;
     ds_escape_next := false;
     ds_in_array := false |}.

(** The state with [current.append(char)] done and the flags given. *)
Definition datum_append (st : DatumState) (char : ascii)
    (paren_count : Z) (in_quote escape_next in_array : bool) : DatumState :=
  {| ds_values := ds_values st;
     ds_current := append_char (ds_current st) char;
     ds_paren_count := paren_count;
     ds_in_quote := in_quote;
     ds_escape_next := escape_next;
     ds_in_array := in_array |}.

(** The body of [for char in record] in [_split_record_to_datums]. *)
Definition datum_step (st : DatumState) (char : ascii) : DatumState :=
  if ds_escape_next st then
    datum_append st char (ds_paren_count st) (ds_in_quote st) false
      (ds_in_array st)
  else if bool_decide (char = "\"%char) then
    datum_append st char (ds_paren_count st) (ds_in_quote st) true
      (ds_in_array st)
  else if bool_decide (char = "'"%char) && negb (ds_escape_next st) then
    datum_append st char (ds_paren_count st) (negb (ds_in_quote st))
      (ds_escape_next st) (ds_in_array st)
  else if bool_decide (char = "["%char) then
    datum_append st char (ds_paren_count st) (ds_in_quote st)
      (ds_escape_next st) true
  else if bool_decide (char = "]"%char) then
    datum_append st char (ds_paren_count st) (ds_in_quote st)
      (ds_escape_next st) false
  else if bool_decide (char = "("%char) && negb (ds_in_quote st) then
    datum_append st char (ds_paren_count st + 1) (ds_in_quote st)
      (ds_escape_next st) (ds_in_array st)
  else if bool_decide (char = ")"%char) && negb (ds_in_quote st) then
    datum_append st char (ds_paren_count st - 1) (ds_in_quote st)
      (ds_escape_next st) (ds_in_array st)
  else if bool_decide (char = ","%char) && negb (ds_in_quote st)
          && (ds_paren_count st =? 0) && negb (ds_in_array st) then
    {| ds_values := ds_values st ++ [_parse_value (ds_current st)];
       ds_current := "";
       ds_paren_count := ds_paren_count st;
       ds_in_quote := ds_in_quote st;
       ds_escape_next := ds_escape_next st;
       ds_in_array := ds_in_array st |}
  else
    datum_append st char (ds_paren_count st) (ds_in_quote st)
      (ds_escape_next st) (ds_in_array st).

Definition _split_record_to_datums (record : string) : list string :=
  let st := for_char datum_step record datum_start in
  if bool_decide (ds_current st = "") then ds_values st
  else ds_values st ++ [_parse_value (ds_current st)].

(** The [else] branch of the loop of [_insert]: how a fragment of
    records is rewritten, that is, a fragment other than [VALUES] and
    the [INSERT INTO] line, which pass as they are.  The warnings
    logged are returned beside the outcome. *)
Section Insert.
(** [GEOMETRY_HINT] comes from the Postgres adapter; [_parse_geometry]
    rests on the shapely library and is taken as given; [srid] is the
    text of [columns[column].get(SRID_HINT, 4326)]. *)
Variable GEOMETRY_HINT : string.
Variable _parse_geometry : string -> option string.
Variable srid : TColumnSchema -> string.

(** The body of [for i, (column, column_value) in enumerate(zip(...))]:
    the warning logged, if any, and the new [processed_record[i]]. *)
Definition process_datum (column : TColumnSchema) (column_value : string)
    : list string * string :=
  if PostgresClient.has_geometry_hint GEOMETRY_HINT column then
    match _parse_geometry (strip column_value) with
    | Some geom_value =>
        if bool_decide (geom_value = "") then
          ([column_value +:+ " couldn't be coerced to geometric type."],
           column_value)
        else
          ([], "ST_SetSRID(ST_GeomFromWKB(" +:+ geom_value +:+ "), "
               +:+ srid column +:+ ")")
    | None =>
        ([column_value +:+ " couldn't be coerced to geometric type."],
         column_value)
    end
  else ([], column_value).

Definition quote_datum (datum : string) : string :=
  if negb (startswith datum "ST_") && negb (bool_decide (datum = "NULL"))
  then "'" +:+ datum +:+ "'"
  else datum.

Definition render_record (processed_record : list string) : string :=
  "(" +:+ String.concat "," processed_record +:+ ")".

(** [for record in processed_fragment_records], with the warnings and
    the records rendered so far. *)
Fixpoint process_records (columns : list (string * TColumnSchema))
    (processed_fragment_records : list string)
    (warnings processed_fragment : list string)
    : list string * Outcome (list string) :=
  match processed_fragment_records with
  | [] => (warnings, Returns processed_fragment)
  | record :: rest =>
      let processed_record := _split_record_to_datums record in
      if bool_decide (length columns = length processed_record) then
        let processed := zip_with process_datum (map snd columns)
                           processed_record in
        process_records columns rest
          (warnings ++ concat (map fst processed))
          (processed_fragment
             ++ [render_record (map quote_datum (map snd processed))])
      else (warnings, Raises AssertionError)
  end.

Definition process_fragment (columns : list (string * TColumnSchema))
    (fragment : string) : list string * Outcome string :=
  match process_records columns (_split_fragment_to_records fragment) [] []
  with
  | (warnings, Returns processed_fragment) =>
      (warnings,
       Returns (String.concat ("," +:+ newline) processed_fragment +:+ ";"))
  | (warnings, Raises e) => (warnings, Raises e)
  end.

End Insert.

End PostgresInsertValuesWithGeometryTypesLoadJob.

(** Vocabulary.  [free_of chars text]: none of [chars] occurs in
    [text]. *)
Fixpoint free_of (chars : list ascii) (text : string) : bool :=
  match text with
  | EmptyString => true
  | String c text' => negb (bool_decide (c ∈ chars)) && free_of chars text'
  end.

(** [quotes_paired in_quote text]: [text] has no backslash and no
    parenthesis outside quotation marks and, starting inside a
    quotation or not as [in_quote] tells, it ends outside one. *)
Fixpoint quotes_paired (in_quote : bool) (text : string) : bool :=
  match text with
  | EmptyString => negb in_quote
  | String c text' =>
      if bool_decide (c = "\"%char) then false
      else if bool_decide (c = "'"%char) then
        quotes_paired (negb in_quote) text'
      else if bool_decide (c ∈ ["("; ")"]%char) && negb in_quote then false
      else quotes_paired in_quote text'
  end.

(** A datum between quotation marks, and a record in parentheses. *)
Definition quoted (datum : string) : string := "'" +:+ datum +:+ "'".

Definition in_parentheses (record : string) : string :=
  "(" +:+ record +:+ ")".

(** The fragment whose records are the texts given. *)
Definition fragment_of (records : list string) : string :=
  String.concat ("," +:+ newline) (map in_parentheses records) +:+ ";".

(** The datums of an insert_values file: a quoted text, an escape
    string [E'...'], or a bare token such as a number or [NULL]; the
    text of the datum in the file, and the value it stands for. *)
Inductive DatumText : Type :=
  | Quoted (value : string)
  | EscapeQuoted (value : string)
  | Bare (token : string).

Definition datum_text (datum : DatumText) : string :=
  match datum with
  | Quoted value => quoted value
  | EscapeQuoted value => "E" +:+ quoted value
  | Bare token => token
  end.

Definition datum_value (datum : DatumText) : string :=
  match datum with
  | Quoted value | EscapeQuoted value | Bare value => value
  end.

(** The datums the properties speak of: no quotation mark, backslash
    or square bracket inside the quotation marks; a bare token is not
    empty, has no white space at its ends and none of the characters
    that structure a record. *)
Definition datum_ok (datum : DatumText) : bool :=
  match datum with
  | Quoted value | EscapeQuoted value =>
      free_of ["\"; "'"; "["; "]"]%char value
  | Bare token =>
      negb (bool_decide (token = ""))
      && bool_decide (strip token = token)
      && free_of [","; "\"; "'"; "["; "]"; "("; ")"]%char token
  end.

(* ===================================================================== *)
(** * LanceDBClient: life cycle of the storage *)
(* ===================================================================== *)

(** [db_client.drop_table(name)]: the table leaves the store; a table
    that is not there is reported as [open_table] reports it.  The
    request log lists the writes to the contents of tables; a drop is
    not entered in it. *)
Definition drop_table (table_name : string) : M () := fun w =>
  match tables w !! table_name with
  | Some _ =>
      (Ok (), {| tables := delete table_name (tables w);
                 requests := requests w;
                 warnings := warnings w |})
  | None => (Raise FileNotFoundError, w)
  end.

Section Storage.
Context `{Externals}.
Variable self : LanceDBClientState.
(** [config.sentinel_table_name], and [NULL_SCHEMA] of
    [dlt/destinations/impl/lancedb/schema.py]. *)
Variable sentinel_table_name : string.
Variable NULL_SCHEMA : list Field.

Definition sentinel_table : string :=
  make_qualified_table_name self sentinel_table_name.

Definition get_table_schema (table_name : string) : M (list Field) :=
  schema_table ← open_table table_name;
  mret (tbl_schema schema_table).

Definition delete_table (table_name : string) : M () :=
  drop_table table_name.

Definition _get_table_names : M (list string) :=
  lancedb_error (
    table_names_ ←
      (if truthy (dataset_name self) then
         let prefix :=
           default "" (dataset_name self) +:+ dataset_separator self in
         names ← table_names;
         mret (List.filter (fun table_name => startswith table_name prefix)
                 names)
       else table_names);
    mret (List.filter
            (fun table_name => negb (bool_decide (table_name = sentinel_table)))
            table_names_)).

Definition _create_sentinel_table : M () :=
  create_table sentinel_table NULL_SCHEMA.

Definition _delete_sentinel_table : M () :=
  drop_table sentinel_table.

Definition drop_storage : M () :=
  lancedb_error (
    names ← _get_table_names;
    for_each names drop_table;;
    _delete_sentinel_table).

Definition is_storage_initialized : M bool :=
  lancedb_error (table_exists sentinel_table).

(** [truncate_tables] is [None] or a list; [elif truncate_tables:]
    holds for a list that is not empty. *)
Definition initialize_storage (truncate_tables : option (list string))
    : M () :=
  lancedb_error (
    initialized ← is_storage_initialized;
    if negb initialized then _create_sentinel_table
    else
      match truncate_tables with
      | Some (table_name :: truncate_tables') =>
          for_each (table_name :: truncate_tables') (fun table_name =>
            let fq_table_name := make_qualified_table_name self table_name in
            exists_ ← table_exists fq_table_name;
            if negb exists_ then mret ()
            else
              (schema_ ← get_table_schema fq_table_name;
               drop_table fq_table_name;;
               create_table fq_table_name schema_))
      | _ => mret ()
      end).

(** [now] is the text of [str(pendulum.now())]. *)
Definition complete_load (load_id : string) (now : string) : M () :=
  lancedb_error (
    let n := normalize_identifier (schema self) in
    let records :=
      [ dict_literal
          [ (n "load_id", VStr load_id);
            (n "schema_name", VStr (schema_name (schema self)));
            (n "status", VInt 0);
            (n "inserted_at", VStr now);
            (n "schema_version_hash", VNull) ] ] in
    let fq_loads_table_name :=
      make_qualified_table_name self (loads_table_name (schema self)) in
    loads_table ←
      lift (get_table (schema self) (loads_table_name (schema self)));
    let write_disposition := write_disposition loads_table in
    write_records (Records records) fq_loads_table_name
      write_disposition None false).

End Storage.

(* ===================================================================== *)
(** * LanceDBClient: follow-up jobs of a table chain *)
(* ===================================================================== *)

(** [LoadJobInfo], by the two attributes the client reads:
    [job.file_path] and [job.job_file_info.table_name]. *)
Record LoadJobInfo : Type := {
  job_file_path : string;
  job_table_name : string
}.

(** The follow-up job requests: the reference job the client makes, and
    those of the base class. *)
Inductive FollowupJobRequest : Type :=
  | ReferenceFollowupJobRequest
      (original_file_name : string) (remote_paths : list string)
  | InheritedFollowupJobRequest (tag : string).

Section FollowupJobs.
(** The method of the base class and
    [FileStorage.get_file_name_from_file_path] are taken as given. *)
Variable super_create_table_chain_completed_followup_jobs :
  list TTableSchema -> option (list LoadJobInfo) -> list FollowupJobRequest.
Variable get_file_name_from_file_path : string -> string.

(** [[job.file_path for table in table_chain
       for job in completed_table_chain_jobs
       if job.job_file_info.table_name == table.get("name")]]. *)
Definition all_job_paths_ordered
    (table_chain : list TTableSchema)
    (completed_table_chain_jobs : list LoadJobInfo) : list string :=
  flat_map
    (fun table =>
       map job_file_path
         (List.filter
            (fun job => bool_decide (job_table_name job = table_name table))
            completed_table_chain_jobs))
    table_chain.

(** Iterating over [None] raises [TypeError]. *)
Definition create_table_chain_completed_followup_jobs
    (table_chain : list TTableSchema)
    (completed_table_chain_jobs : option (list LoadJobInfo))
    : Res (list FollowupJobRequest) :=
  let jobs :=
    super_create_table_chain_completed_followup_jobs table_chain
      completed_table_chain_jobs in
  root ← list_item table_chain 0;
  if bool_decide (write_disposition root = Some "merge") then
    match completed_table_chain_jobs with
    | None => Raise TypeError
    | Some completed_table_chain_jobs =>
        let all_job_paths_ordered :=
          all_job_paths_ordered table_chain completed_table_chain_jobs in
        first ← list_item all_job_paths_ordered 0;
        let root_table_file_name := get_file_name_from_file_path first in
        Ok (jobs ++ [ReferenceFollowupJobRequest root_table_file_name
                       all_job_paths_ordered])
    end
  else Ok jobs.

End FollowupJobs.

(** Vocabulary.  A table with its schema and without rows. *)
Definition emptied (t : LanceTable) : LanceTable :=
  {| tbl_schema := tbl_schema t; tbl_rows := [] |}.

(** [in_dataset self name]: [name] carries the prefix of the dataset of
    the client; without a dataset name every table counts. *)
Definition in_dataset (self : LanceDBClientState) (name : string) : bool :=
  if truthy (dataset_name self)
  then startswith name
         (default "" (dataset_name self) +:+ dataset_separator self)
  else true.

(** A store of the dataset [ds] with its sentinel table and one table
    of two rows, beside a table of another dataset. *)
Definition initialized_world : World :=
  {| tables :=
       {[ "ds___dltSentinelTable" := {| tbl_schema := []; tbl_rows := [] |};
          "ds___items" :=
            {| tbl_schema := [pa_field "id" pa_int64];
               tbl_rows := [ [("id", VInt 1)]; [("id", VInt 2)] ] |};
          "other___items" :=
            {| tbl_schema := [pa_field "id" pa_int64];
               tbl_rows := [ [("id", VInt 7)] ] |} ]};
     requests := [];
     warnings := [] |}.

(** The column names of the loads table, before normalization, and the
    record [complete_load] writes when the naming convention keeps them
    apart. *)
Definition loads_columns : list string :=
  ["load_id"; "schema_name"; "status"; "inserted_at"; "schema_version_hash"].

Definition load_record (self : LanceDBClientState) (load_id now : string)
    : Row :=
  let n := normalize_identifier (schema self) in
  [ (n "load_id", VStr load_id);
    (n "schema_name", VStr (schema_name (schema self)));
    (n "status", VInt 0);
    (n "inserted_at", VStr now);
    (n "schema_version_hash", VNull) ].

(** A client whose schema lists the loads table. *)
Definition loads_table_schema : TTableSchema :=
  {| table_name := "_dlt_loads"; parent := None;
     write_disposition := Some "skip";
     columns := [ ("load_id", plain_column "load_id" "text");
                  ("status", plain_column "status" "bigint") ] |}.

Definition loads_client : LanceDBClientState :=
  {| schema :=
       {| schema_name := "shop";
          schema_version := 2;
          ENGINE_VERSION := 9;
          stored_version_hash := "H1";
          schema_tables := [ ("_dlt_loads", loads_table_schema);
                             ("items", items_table) ];
          version_table_name := "_dlt_version";
          loads_table_name := "_dlt_loads";
          state_table_name := "_dlt_pipeline_state";
          dlt_table_names :=
            ["_dlt_version"; "_dlt_loads"; "_dlt_pipeline_state"];
          normalize_identifier := fun s => s;
          schema_json := "{}" |};
     capabilities := lancedb_capabilities;
     dataset_name := Some "ds";
     dataset_separator := "___";
     vector_field_name := "vector";
     id_field_name := "id__" |}.

(** The lineage of the paths [all_job_paths_ordered] lists: for every
    table of the chain, in order, one entry for each of its completed
    jobs. *)
Definition chain_lineage
    (table_chain : list TTableSchema)
    (completed_table_chain_jobs : list LoadJobInfo)
    : LanceDBRemoveOrphansJob.TTableLineage :=
  flat_map
    (fun table =>
       map (fun job => (table, table_name table, job_file_path job))
         (List.filter
            (fun job => bool_decide (job_table_name job = table_name table))
            completed_table_chain_jobs))
    table_chain.

(** The completed jobs of one load of the sample schema. *)
Definition sample_jobs : list LoadJobInfo :=
  [ {| job_file_path := "items__tags.1.parquet";
       job_table_name := "items__tags" |};
    {| job_file_path := "items.1.parquet"; job_table_name := "items" |};
    {| job_file_path := "items.2.parquet"; job_table_name := "items" |} ].

(** A csv job of the examples: comma as delimiter, a header row, and a
    table [items] of two columns of which [name] may be NULL; column
    names are escaped by square brackets. *)
Definition sample_csv_format : CsvFormatConfiguration :=
  {| delimiter := ","; include_header := true; encoding := "utf-8";
     on_error_continue := false |}.

Definition headerless_csv_format : CsvFormatConfiguration :=
  {| delimiter := ","; include_header := false; encoding := "utf-8";
     on_error_continue := false |}.

Definition sample_escape (name : string) : string := "[" +:+ name +:+ "]".

Definition sample_nullable (column : TColumnSchema) : bool :=
  negb (bool_decide (col_name column = "id")).

Definition sample_csv_columns : list (string * TColumnSchema) :=
  [ ("id", plain_column "id" "bigint");
    ("name", plain_column "name" "text") ].

(* ===================================================================== *)
(** * ReadableDBAPIRelation *)
(* ===================================================================== *)

(** [x ← m; k] on outcomes. *)
Definition Outcome_bind {A B : Type} (m : Outcome A) (k : A -> Outcome B)
    : Outcome B :=
  match m with
  | Returns a => k a
  | Raises e => Raises e
  end.

(** [str(n)] of an integer. *)
Definition str_of_int (n : Z) : string := NilZero.string_of_int (Z.to_int n).

(** [bool(l)] of an optional list. *)
Definition truthy_list {A : Type} (l : option (list A)) : bool :=
  match l with
  | Some (_ :: _) => true
  | _ => false
  end.

Module ReadableDBAPIRelation.

(** The relation object, by the attributes that make its query; the
    provided query is a text. *)
Record Relation : Type := {
  _provided_query : option string;
  _table_name : option string;
  _schema_columns : option (list (string * TColumnSchema));
  _limit : option Z;
  _selected_columns : option (list string)
}.

Definition __init__
    (provided_query table_name : option string)
    (schema_columns : option (list (string * TColumnSchema)))
    (limit : option Z) (selected_columns : option (list string))
    : Outcome Relation :=
  if bool_decide (truthy table_name <> truthy provided_query) then
    Returns {| _provided_query := provided_query;
               _table_name := table_name;
               _schema_columns := schema_columns;
               _limit := limit;
               _selected_columns := selected_columns |}
  else Raises AssertionError.

Section Relation.
(** [client.make_qualified_table_name], [client.escape_column_name] and
    [naming.normalize_identifier] are taken as given. *)
Variable make_qualified_table_name : option string -> string.
Variable escape_column_name : string -> string.
Variable normalize_identifier : string -> string.

Definition query (self : Relation) : string :=
  if truthy (_provided_query self) then default "" (_provided_query self)
  else
    let table_name := make_qualified_table_name (_table_name self) in
    let maybe_limit_clause :=
      match _limit self with
      | Some limit =>
          if limit =? 0 then "" else "LIMIT " +:+ str_of_int limit
      | None => ""
      end in
    let selector :=
      if truthy_list (_selected_columns self) then
        String.concat ","
          (map (fun c => escape_column_name (normalize_identifier c))
             (default [] (_selected_columns self)))
      else "*" in
    "SELECT " +:+ selector +:+ " FROM " +:+ table_name +:+ " "
    +:+ maybe_limit_clause.

(** The loop of [computed_schema_columns], with the dictionary filled
    so far. *)
Fixpoint filter_columns
    (schema_columns : list (string * TColumnSchema))
    (selected_columns : list string)
    (filtered_columns : list (string * TColumnSchema))
    : Outcome (list (string * TColumnSchema)) :=
  match selected_columns with
  | [] => Returns filtered_columns
  | sc :: selected_columns' =>
      let sc := normalize_identifier sc in
      match dict_get schema_columns sc with
      | None => Raises AssertionError
      | Some column =>
          filter_columns schema_columns selected_columns'
            (dict_set filtered_columns sc column)
      end
  end.

Definition computed_schema_columns (self : Relation)
    : Outcome (option (list (string * TColumnSchema))) :=
  if negb (truthy_list (_schema_columns self)) then Returns None
  else if negb (truthy_list (_selected_columns self)) then
    Returns (_schema_columns self)
  else
    Outcome_bind
      (filter_columns (default [] (_schema_columns self))
         (default [] (_selected_columns self)) [])
      (fun filtered_columns => Returns (Some filtered_columns)).

Definition __copy__ (self : Relation) : Outcome Relation :=
  __init__ (_provided_query self) (_table_name self) (_schema_columns self)
    (_limit self) (_selected_columns self).

Definition limit (self : Relation) (limit : Z) : Outcome Relation :=
  if truthy (_provided_query self) then Raises AssertionError
  else
    Outcome_bind (__copy__ self) (fun rel =>
      Returns {| _provided_query := _provided_query rel;
                 _table_name := _table_name rel;
                 _schema_columns := _schema_columns rel;
                 _limit := Some limit;
                 _selected_columns := _selected_columns rel |}).

Definition select (self : Relation) (selected_columns : list string)
    : Outcome Relation :=
  if truthy (_provided_query self) then Raises AssertionError
  else
    Outcome_bind (__copy__ self) (fun rel =>
      let rel :=
        {| _provided_query := _provided_query rel;
           _table_name := _table_name rel;
           _schema_columns := _schema_columns rel;
           _limit := _limit rel;
           _selected_columns := Some selected_columns |} in
      Outcome_bind (computed_schema_columns rel) (fun _ => Returns rel)).

Definition head (self : Relation) : Outcome Relation :=
  if truthy (_provided_query self) then Raises AssertionError
  else limit self 5.

End Relation.

End ReadableDBAPIRelation.

(** Vocabulary.  A relation on a table, without query, limit and
    selection. *)
Definition table_relation (table_name : string)
    (schema_columns : option (list (string * TColumnSchema)))
    : ReadableDBAPIRelation.Relation :=
  {| ReadableDBAPIRelation._provided_query := None;
     ReadableDBAPIRelation._table_name := Some table_name;
     ReadableDBAPIRelation._schema_columns := schema_columns;
     ReadableDBAPIRelation._limit := None;
     ReadableDBAPIRelation._selected_columns := None |}.

Definition without_limit (self : ReadableDBAPIRelation.Relation)
    : ReadableDBAPIRelation.Relation :=
  {| ReadableDBAPIRelation._provided_query :=
       ReadableDBAPIRelation._provided_query self;
     ReadableDBAPIRelation._table_name :=
       ReadableDBAPIRelation._table_name self;
     ReadableDBAPIRelation._schema_columns :=
       ReadableDBAPIRelation._schema_columns self;
     ReadableDBAPIRelation._limit := None;
     ReadableDBAPIRelation._selected_columns :=
       ReadableDBAPIRelation._selected_columns self |}.

(* ===================================================================== *)
(** * Properties: sequencing *)
(* ===================================================================== *)

Lemma M_bind_unfold {A B : Type} (m : M A) (f : A -> M B) (w : World) :
  (m ≫= f) w
  = match m w with
    | (Ok a, w') => f a w'
    | (Raise e, w') => (Raise e, w')
    end.
Proof. reflexivity. Qed.

Lemma open_table_unfold (table_name : string) (w : World) :
  open_table table_name w
  = match tables w !! table_name with
    | Some t => (Ok t, w)
    | None => (Raise FileNotFoundError, w)
    end.
Proof. reflexivity. Qed.

Lemma dict_item_Some {K V : Type} `{EqDecision K}
    (d : list (K * V)) (k : K) (v : V) :
  dict_get d k = Some v -> dict_item d k = Ok v.
Proof. unfold dict_item. by intros ->. Qed.

(* ===================================================================== *)
(** * Properties: PostgresClient.create_load_job *)
(* ===================================================================== *)

Lemma endswith_spec (s suffix : string) :
  endswith s suffix = true <-> exists p, s = p +:+ suffix.
Proof.
  induction s as [|a s IH]; simpl.
  - rewrite orb_false_r, bool_decide_eq_true. split.
    + intros ->. by exists "".
    + intros [p Hp]. destruct p; simpl in Hp; [done | discriminate].
  - rewrite orb_true_iff, bool_decide_eq_true, IH. split.
    + intros [-> | [p ->]]; [by exists "" | by exists (String a p)].
    + intros [p Hp]. destruct p as [|b p]; simpl in Hp.
      * by left.
      * right. exists p. by injection Hp.
Qed.

(** C10.  A table with at least one geometry-hinted column is loaded from
    insert_values files only: a path that ends in [insert_values] gets
    the geometry-aware insert job, every other path raises
    [TerminalValueError], a terminal error, and no job is made. *)
Theorem create_load_job_geometry_only_insert_values
    (GEOMETRY_HINT : string)
    (super_create_load_job :
       TTableSchema -> string -> string -> bool
       -> Res (option PostgresClient.LoadJob))
    (table : TTableSchema) (file_path load_id : string) (restore : bool) :
  (exists name column,
      (name, column) ∈ columns table
      /\ dict_get (col_hints column) GEOMETRY_HINT = Some true) ->
  ((exists p, file_path = p +:+ "insert_values") ->
   PostgresClient.create_load_job GEOMETRY_HINT super_create_load_job
     table file_path load_id restore
   = Ok (Some
           (PostgresClient.PostgresInsertValuesWithGeometryTypesLoadJob
              file_path)))
  /\ (~ (exists p, file_path = p +:+ "insert_values") ->
      PostgresClient.create_load_job GEOMETRY_HINT super_create_load_job
        table file_path load_id restore
      = Raise TerminalValueError
      /\ is_terminal TerminalValueError = true).
Proof.
  intros (name & column & Hin & Hhint).
  assert (Hany : existsb (PostgresClient.has_geometry_hint GEOMETRY_HINT)
                   (map snd (columns table)) = true).
  { apply existsb_exists. exists column. split.
    - apply in_map_iff. exists (name, column). split; [done|].
      by apply list_elem_of_In.
    - unfold PostgresClient.has_geometry_hint. by rewrite Hhint. }
  unfold PostgresClient.create_load_job. rewrite Hany.
  split; intros Hsuffix.
  - apply endswith_spec in Hsuffix. by rewrite Hsuffix.
  - destruct (endswith file_path "insert_values") eqn:E; [|done].
    apply endswith_spec in E. contradiction.
Qed.

Lemma create_load_job_geometry_only_insert_values_witness :
  PostgresClient.create_load_job "x-postgres-geometry"
    (fun _ p _ _ => Ok (Some (PostgresClient.InheritedLoadJob p)))
    geometry_table "places.1234.0.insert_values" "load1" false
  = Ok (Some (PostgresClient.PostgresInsertValuesWithGeometryTypesLoadJob
                "places.1234.0.insert_values")).
Proof.
  refine (proj1 (create_load_job_geometry_only_insert_values
            "x-postgres-geometry" _ geometry_table
            "places.1234.0.insert_values" "load1" false _) _).
  - exists "geom", {| col_name := "geom"; col_data_type := "text";
                      col_precision := None; col_scale := None;
                      col_hints := [("x-postgres-geometry", true)] |}.
    split; [|reflexivity]. apply list_elem_of_In. simpl. by right; left.
  - by exists "places.1234.0.".
Defined.

Example create_load_job_geometry_csv :
  PostgresClient.create_load_job "x-postgres-geometry"
    (fun _ p _ _ => Ok (Some (PostgresClient.InheritedLoadJob p)))
    geometry_table "places.1234.0.csv" "load1" false
  = Raise TerminalValueError.
Proof. reflexivity. Qed.

(* ===================================================================== *)
(** * Properties: write_records *)
(* ===================================================================== *)

Section WriteRecordsFacts.
Context `{Externals}.

(** [write_records] on a table the store does not hold: the transient
    error, and the world as it was. *)
Lemma write_records_missing_table
    (records : DATA) (table_name : string)
    (write_disposition id_field_name : option string)
    (remove_orphans : bool) (w : World) :
  tables w !! table_name = None ->
  write_records records table_name write_disposition id_field_name
    remove_orphans w
  = (Raise DestinationTransientException, w).
Proof.
  intros Hnone. unfold write_records, mbind, M_bind, try_except.
  rewrite open_table_unfold, Hnone. reflexivity.
Qed.

(** C5, amended.  A write whose disposition is none of append, skip,
    replace and merge changes nothing in the world; it raises the
    terminal [DestinationTerminalException] when the table can be
    opened, and the transient [DestinationTransientException] when the
    table is not in the store. *)
Theorem write_records_unsupported_disposition
    (records : DATA) (table_name : string)
    (write_disposition id_field_name : option string)
    (remove_orphans : bool) (w : World) :
  write_disposition
    ∉ [Some "append"; Some "skip"; Some "replace"; Some "merge"] ->
  write_records records table_name write_disposition id_field_name
    remove_orphans w
  = (Raise (if bool_decide (is_Some (tables w !! table_name))
            then DestinationTerminalException
            else DestinationTransientException), w)
  /\ is_terminal DestinationTerminalException = true
  /\ is_terminal DestinationTransientException = false.
Proof.
  intros Hd. split; [|done].
  destruct (tables w !! table_name) as [t|] eqn:Ht.
  - rewrite bool_decide_eq_true_2 by eauto.
    unfold write_records, mbind, M_bind, try_except.
    rewrite open_table_unfold, Ht.
    rewrite !not_elem_of_cons in Hd. destruct Hd as (Ha & Hs & Hr & Hm & _).
    rewrite !bool_decide_eq_false_2; [reflexivity | done | done |].
    rewrite !not_elem_of_cons. repeat split; [done | done |].
    apply not_elem_of_nil.
  - rewrite bool_decide_eq_false_2 by (intros [? ?]; done).
    by apply write_records_missing_table.
Qed.

(** C6, amended.  A merge write without an id field ([None] or the
    empty string) changes nothing in the world; it raises the builtin
    [ValueError] when the table can be opened, and the transient
    [DestinationTransientException] when the table is not in the
    store. *)
Theorem write_records_merge_without_id_field
    (records : DATA) (table_name : string)
    (id_field_name : option string) (remove_orphans : bool) (w : World) :
  truthy id_field_name = false ->
  write_records records table_name (Some "merge") id_field_name
    remove_orphans w
  = (Raise (if bool_decide (is_Some (tables w !! table_name))
            then ValueError
            else DestinationTransientException), w).
Proof.
  intros Hid.
  destruct (tables w !! table_name) as [t|] eqn:Ht.
  - rewrite bool_decide_eq_true_2 by eauto.
    unfold write_records, mbind, M_bind, try_except.
    rewrite open_table_unfold, Ht, Hid. reflexivity.
  - rewrite bool_decide_eq_false_2 by (intros [? ?]; done).
    by apply write_records_missing_table.
Qed.

End WriteRecordsFacts.

Lemma write_records_unsupported_disposition_witness :
  write_records (Records [[("id", VInt 1)]]) "items" (Some "foo") None
    false items_world
  = (Raise DestinationTerminalException, items_world).
Proof.
  refine (proj1 (write_records_unsupported_disposition
            (Records [[("id", VInt 1)]]) "items" (Some "foo") None false
            items_world _)).
  rewrite !not_elem_of_cons. repeat split; try discriminate.
  apply not_elem_of_nil.
Defined.

(** C5 as stated fails when the table cannot be opened: the error is the
    transient one, which the loader retries. *)
Lemma write_records_unsupported_disposition_not_always_terminal :
  ~ (exists e,
       fst (write_records (Records [[("id", VInt 1)]]) "items" (Some "foo")
              None false empty_world) = Raise e
       /\ is_terminal e = true).
Proof.
  intros (e & He & Hterm). vm_compute in He. inversion He; subst.
  discriminate Hterm.
Qed.

Lemma write_records_merge_without_id_field_witness :
  write_records (Records [[("id", VInt 1)]]) "items" (Some "merge")
    (Some "") true items_world
  = (Raise ValueError, items_world).
Proof.
  exact (write_records_merge_without_id_field
           (Records [[("id", VInt 1)]]) "items" (Some "") true items_world
           eq_refl).
Defined.

(** C6 as stated fails: the exception that leaves [write_records] is the
    builtin [ValueError], not one of the loader's terminal classes. *)
Lemma write_records_merge_without_id_field_raises_builtin :
  ~ (exists e,
       fst (write_records (Records [[("id", VInt 1)]]) "items"
              (Some "merge") None false items_world) = Raise e
       /\ is_terminal e = true).
Proof.
  intros (e & He & Hterm). vm_compute in He. inversion He; subst.
  discriminate Hterm.
Qed.

(* ===================================================================== *)
(** * Properties: LanceDBTypeMapper *)
(* ===================================================================== *)

Section TypeMapperFacts.
Import LanceDBTypeMapper.
Variable caps : Capabilities.

(** A timestamp or time column comes back with the precision of the
    destination, whatever precision the column asked for. *)
Lemma from_db_type_of_datetime (precision : option Z) (t : ArrowType) :
  to_db_datetime_type caps precision = Ok t ->
  from_db_type caps t None None
  = Ok {| data_type := "timestamp";
          precision := Some (timestamp_precision caps);
          scale := None |}.
Proof.
  unfold to_db_datetime_type, dict_item. simpl.
  repeat case_decide; subst; simpl; try discriminate;
    intros [= <-]; simpl; congruence.
Qed.

Lemma from_db_type_of_time (precision : option Z) (t : ArrowType) :
  to_db_time_type caps precision = Ok t ->
  from_db_type caps t None None
  = Ok {| data_type := "time";
          precision := Some (timestamp_precision caps);
          scale := None |}.
Proof.
  unfold to_db_time_type, dict_item. simpl.
  repeat case_decide; subst; simpl; try discriminate;
    intros [= <-]; simpl; congruence.
Qed.

(** A decimal column comes back with the precision and scale it was
    created with, unless that pair is the one reserved for wei. *)
Lemma from_db_type_of_decimal (precision scale : option Z) (t : ArrowType) :
  to_db_decimal_type caps precision scale = Ok t ->
  from_db_type caps t None None
  = let ps := base_decimal_precision caps precision scale in
    if decide (ps = wei_precision caps)
    then Ok {| data_type := "wei"; precision := None; scale := None |}
    else Ok {| data_type := "decimal";
               precision := Some (fst ps);
               scale := Some (snd ps) |}.
Proof.
  unfold to_db_decimal_type, pa_decimal128_new.
  destruct (base_decimal_precision caps precision scale) as [p s].
  destruct ((1 <=? p) && (p <=? 38)); [|discriminate].
  intros [= <-]. reflexivity.
Qed.

(** C4, amended.  [from_db_type(to_db_type(c))] gives back the data
    type, precision and scale of [c] when [c] is
    - a text, double, bool, bigint, binary or date column without
      precision and scale, or
    - a timestamp column (destination precision 0, 3, 6 or 9) or a time
      column (destination precision 6 or 9) whose precision is the
      timestamp precision of the destination, without scale, or
    - a decimal column with a precision of 1 to 38 and a scale, both
      given, whose pair is not the wei pair of the destination. *)
Theorem round_trip_exact (c : TColumnSchema) :
  (col_data_type c ∈ ["text"; "double"; "bool"; "bigint"; "binary"; "date"]
   /\ col_precision c = None /\ col_scale c = None)
  \/ (col_data_type c = "timestamp"
      /\ timestamp_precision caps ∈ [0; 3; 6; 9]
      /\ col_precision c = Some (timestamp_precision caps)
      /\ col_scale c = None)
  \/ (col_data_type c = "time"
      /\ timestamp_precision caps ∈ [6; 9]
      /\ col_precision c = Some (timestamp_precision caps)
      /\ col_scale c = None)
  \/ (col_data_type c = "decimal"
      /\ exists p s,
           col_precision c = Some p /\ col_scale c = Some s
           /\ 1 <= p <= 38 /\ (p, s) <> wei_precision caps) ->
  round_trip caps c = Ok (column_type_of c).
Proof.
  destruct c as [nm dt pr sc hints]. unfold column_type_of. simpl.
  intros [(Hdt & -> & ->) | [(-> & Hp & -> & ->) | [(-> & Hp & -> & ->)
          | (-> & p & s & -> & -> & Hrange & Hwei)]]].
  - rewrite !elem_of_cons in Hdt.
    destruct Hdt as [-> | [-> | [-> | [-> | [-> | [-> | Hnil]]]]]];
      try reflexivity.
    by apply elem_of_nil in Hnil.
  - unfold round_trip, to_db_type. simpl.
    destruct (to_db_datetime_type caps (Some (timestamp_precision caps)))
      as [t|e] eqn:E.
    + simpl. by rewrite (from_db_type_of_datetime _ _ E).
    + exfalso. revert E. unfold to_db_datetime_type, dict_item.
      rewrite !elem_of_cons in Hp.
      destruct Hp as [-> | [-> | [-> | [-> | Hnil]]]]; try discriminate.
      by apply elem_of_nil in Hnil.
  - unfold round_trip, to_db_type. simpl.
    destruct (to_db_time_type caps (Some (timestamp_precision caps)))
      as [t|e] eqn:E.
    + simpl. by rewrite (from_db_type_of_time _ _ E).
    + exfalso. revert E. unfold to_db_time_type, dict_item.
      rewrite !elem_of_cons in Hp.
      destruct Hp as [-> | [-> | Hnil]]; try discriminate.
      by apply elem_of_nil in Hnil.
  - unfold round_trip, to_db_type, to_db_decimal_type, pa_decimal128_new.
    simpl.
    replace ((1 <=? p) && (p <=? 38)) with true
      by (symmetry; apply andb_true_iff; split; apply Z.leb_le; lia).
    simpl. rewrite decide_False by done. reflexivity.
Qed.

(** What the round trip returns for the remaining declared type:
    complex is stored as a string and read back as text. *)
Lemma round_trip_complex (c : TColumnSchema) :
  col_data_type c = "complex" ->
  round_trip caps c
  = Ok {| data_type := "text"; precision := None; scale := None |}.
Proof.
  destruct c as [nm dt pr sc hints]. simpl. intros ->. reflexivity.
Qed.

(** The wei type has no native type of its own in this mapper. *)
Lemma to_db_type_wei (c : TColumnSchema) :
  col_data_type c = "wei" -> to_db_type caps c = Raise KeyError.
Proof.
  destruct c as [nm dt pr sc hints]. simpl. intros ->. reflexivity.
Qed.

End TypeMapperFacts.

Lemma round_trip_exact_witness :
  LanceDBTypeMapper.round_trip lancedb_capabilities
    {| col_name := "price"; col_data_type := "decimal";
       col_precision := Some 10; col_scale := Some 2; col_hints := [] |}
  = Ok {| data_type := "decimal";
          precision := Some 10; scale := Some 2 |}.
Proof.
  apply (round_trip_exact lancedb_capabilities
           {| col_name := "price"; col_data_type := "decimal";
              col_precision := Some 10; col_scale := Some 2;
              col_hints := [] |}).
  right; right; right. split; [reflexivity|].
  exists 10, 2. repeat split; [lia | lia | discriminate].
Defined.

(** C4 as stated fails on a timestamp column: the native type is built
    from the timestamp precision of the destination, so a column of
    precision 3 comes back with precision 6. *)
Lemma round_trip_timestamp_precision_lost :
  (t ← LanceDBTypeMapper.to_db_datetime_type lancedb_capabilities (Some 3);
   LanceDBTypeMapper.from_db_type lancedb_capabilities t None None)
  = Ok {| data_type := "timestamp"; precision := Some 6; scale := None |}
  /\ LanceDBTypeMapper.round_trip lancedb_capabilities
       {| col_name := "at"; col_data_type := "timestamp";
          col_precision := Some 3; col_scale := None; col_hints := [] |}
     <> Ok {| data_type := "timestamp";
              precision := Some 3; scale := None |}.
Proof. split; [reflexivity | discriminate]. Qed.

(* ===================================================================== *)
(** * Properties: sorted(..., reverse=True) *)
(* ===================================================================== *)

Section SortFacts.
Context {A : Type}.
(** [P] singles out the keys of one column: values of one type, which
    Python orders totally. *)
Variable P : Value -> Prop.
Hypothesis P_comparable :
  forall a b, P a -> P b -> exists c, value_compare a b = Ok c.
Hypothesis P_refl : forall a, P a -> value_le a a.
Hypothesis P_flip :
  forall a b, P a -> P b -> value_compare a b = Ok Gt -> value_le b a.
Hypothesis P_trans :
  forall a b c, P a -> P b -> P c ->
    value_le a b -> value_le b c -> value_le a c.

Lemma insert_reverse_perm (x : Value * A) (l : list (Value * A)) :
  P (fst x) -> Forall (fun z => P (fst z)) l ->
  exists r, insert_reverse x l = Ok r /\ r ≡ₚ x :: l.
Proof.
  intros Hx. induction l as [|y l IH]; intros Hl.
  - by exists [x].
  - apply Forall_cons in Hl as [Hy Hl]. simpl.
    destruct (P_comparable _ _ Hy Hx) as [c Hc]. rewrite Hc. simpl.
    destruct c; try by eexists.
    destruct (IH Hl) as (r & -> & Hperm). simpl.
    exists (y :: r). split; [done|]. rewrite Hperm. apply Permutation_swap.
Qed.

Lemma insert_reverse_head
    (x : Value * A) (l r : list (Value * A)) :
  P (fst x) -> Forall (fun z => P (fst z)) l -> head_is_max l ->
  insert_reverse x l = Ok r -> head_is_max r.
Proof.
  intros Hx Hl Hmax. destruct l as [|y l]; simpl.
  - intros [= <-]. intros z Hz. apply list_elem_of_singleton in Hz as ->.
    by apply P_refl.
  - pose proof Hl as Hl'. apply Forall_cons in Hl' as [Hy Htl].
    destruct (P_comparable _ _ Hy Hx) as [c Hc]. rewrite Hc. simpl.
    assert (Hnotgt : c <> Gt -> head_is_max (x :: y :: l)).
    { intros Hne z Hz. apply elem_of_cons in Hz as [-> | Hz].
      - by apply P_refl.
      - apply (P_trans _ (fst y)).
        + rewrite Forall_forall in Hl. by apply Hl.
        + done.
        + done.
        + by apply Hmax.
        + unfold value_le. rewrite Hc. destruct c; auto. congruence. }
    destruct c; try (intros [= <-]; by apply Hnotgt).
    destruct (insert_reverse_perm x l Hx Htl) as (r' & -> & Hperm).
    simpl. intros [= <-]. intros z Hz.
    apply elem_of_cons in Hz as [-> | Hz]; [by apply P_refl|].
    rewrite Hperm in Hz. apply elem_of_cons in Hz as [-> | Hz].
    + by apply P_flip.
    + apply Hmax. by right.
Qed.

Lemma sort_reverse_head_is_max (d : list (Value * A)) :
  Forall (fun z => P (fst z)) d ->
  exists r, sort_reverse d = Ok r /\ r ≡ₚ d /\ head_is_max r.
Proof.
  induction d as [|x d IH]; intros Hd.
  - by exists [].
  - apply Forall_cons in Hd as [Hx Hd].
    destruct (IH Hd) as (r & Hr & Hperm & Hmax). simpl. rewrite Hr. simpl.
    assert (Hr' : Forall (fun z => P (fst z)) r) by by rewrite Hperm.
    destruct (insert_reverse_perm x r Hx Hr') as (r2 & Hr2 & Hperm2).
    exists r2. split; [done|]. split.
    + by rewrite Hperm2, Hperm.
    + by apply (insert_reverse_head x r).
Qed.

Lemma decorate_ok (key : A -> Res Value) (l : list A) :
  Forall (fun x => exists v, key x = Ok v /\ P v) l ->
  exists d, decorate key l = Ok d
            /\ map snd d = l
            /\ Forall (fun z => key (snd z) = Ok (fst z) /\ P (fst z)) d.
Proof.
  induction l as [|x l IH]; intros Hl.
  - by exists [].
  - apply Forall_cons in Hl as [(v & Hv & HP) Hl].
    destruct (IH Hl) as (d & Hd & Hmap & Hall).
    exists ((v, x) :: d). simpl. rewrite Hv. simpl. rewrite Hd. simpl.
    split; [done|]. split; [by rewrite Hmap|].
    apply Forall_cons. by split.
Qed.

(** [sorted(l, key=key, reverse=True)] returns, and its first element
    carries a key no other element exceeds. *)
Lemma sorted_reverse_first (key : A -> Res Value) (l : list A) :
  Forall (fun x => exists v, key x = Ok v /\ P v) l ->
  exists r, sorted_reverse key l = Ok r
            /\ r ≡ₚ l
            /\ match r with
               | [] => l = []
               | h :: _ =>
                   exists vh, key h = Ok vh
                     /\ forall z, z ∈ l ->
                          exists vz, key z = Ok vz /\ value_le vz vh
               end.
Proof.
  intros Hl. destruct (decorate_ok key l Hl) as (d & Hd & Hmap & Hall).
  assert (HP : Forall (fun z => P (fst z)) d).
  { eapply Forall_impl; [exact Hall|]. by intros z [_ ?]. }
  destruct (sort_reverse_head_is_max d HP) as (r & Hr & Hperm & Hmax).
  exists (map snd r). unfold sorted_reverse. rewrite Hd. simpl.
  rewrite Hr. simpl. split; [done|].
  assert (Hperm' : map snd r ≡ₚ l) by by rewrite Hperm, Hmap.
  split; [done|].
  destruct r as [|h r]; simpl.
  - apply Permutation_nil_l in Hperm'. done.
  - assert (Hh : h ∈ d) by (rewrite <- Hperm; by left).
    rewrite Forall_forall in Hall.
    destruct (Hall h Hh) as [Hkh _].
    exists (fst h). split; [done|]. intros z Hz.
    rewrite <- Hmap in Hz. apply list_elem_of_fmap in Hz as (p & -> & Hp).
    destruct (Hall p Hp) as [Hkp _].
    exists (fst p). split; [done|]. apply Hmax. by rewrite Hperm.
Qed.

End SortFacts.

Lemma timestamp_comparable (a b : Value) :
  is_timestamp a -> is_timestamp b -> exists c, value_compare a b = Ok c.
Proof. intros [x ->] [y ->]. by eexists. Qed.

Lemma timestamp_le (x y : Z) :
  value_le (VTimestamp x) (VTimestamp y) <-> x <= y.
Proof.
  unfold value_le. simpl. destruct (Z.compare_spec x y); split; intros;
    try lia; auto; destruct_or?; discriminate.
Qed.

Lemma timestamp_refl (a : Value) : is_timestamp a -> value_le a a.
Proof. intros [x ->]. apply timestamp_le. lia. Qed.

Lemma timestamp_flip (a b : Value) :
  is_timestamp a -> is_timestamp b ->
  value_compare a b = Ok Gt -> value_le b a.
Proof.
  intros [x ->] [y ->]. simpl. intros [= Hgt]. apply timestamp_le.
  apply Z.compare_gt_iff in Hgt. lia.
Qed.

Lemma timestamp_trans (a b c : Value) :
  is_timestamp a -> is_timestamp b -> is_timestamp c ->
  value_le a b -> value_le b c -> value_le a c.
Proof.
  intros [x ->] [y ->] [z ->]. rewrite !timestamp_le. lia.
Qed.

(* ===================================================================== *)
(** * Properties: lookups in the version table *)
(* ===================================================================== *)

Section VersionStoreFacts.
Variable self : LanceDBClientState.

Lemma storage_schema_info_ok (r : Row) :
  version_row_ok (normalize_identifier (schema self)) r ->
  exists info,
    storage_schema_info self r = Ok info
    /\ schema_info_of_row (normalize_identifier (schema self)) r info.
Proof.
  intros ([v1 H1] & [v2 H2] & [v3 H3] & [v4 H4] & [v5 H5] & ts & H6).
  unfold storage_schema_info.
  rewrite (dict_item_Some _ _ _ H1), (dict_item_Some _ _ _ H2),
    (dict_item_Some _ _ _ H3), (dict_item_Some _ _ _ H4),
    (dict_item_Some _ _ _ H5), (dict_item_Some _ _ _ H6).
  eexists. split; [reflexivity|].
  by repeat split.
Qed.

Lemma most_recent_schema_where_latest
    (column value : string) (t : LanceTable) (w : World) :
  tables w
    !! make_qualified_table_name self (version_table_name (schema self))
  = Some t ->
  latest_wins self column value t w
    (most_recent_schema_where self column value w).
Proof.
  intros Ht. unfold latest_wins, most_recent_schema_where.
  rewrite M_bind_unfold, open_table_unfold, Ht.
  unfold try_except, lift.
  set (n := normalize_identifier (schema self)).
  set (candidates :=
         List.filter
           (fun r => bool_decide (dict_get r column = Some (VStr value)))
           (tbl_rows t)).
  split; [|split].
  - destruct (_ ≫= _) as [o|e]; [done|]. simpl.
    by destruct (bool_decide _).
  - intros ->. reflexivity.
  - intros Hne Hok.
    destruct (sorted_reverse_first is_timestamp timestamp_comparable
                timestamp_refl timestamp_flip timestamp_trans
                (fun x => dict_item x (n "inserted_at")) candidates)
      as (sorted & Hsorted & Hperm & Hfirst).
    { eapply Forall_impl; [exact Hok|]. intros r Hr.
      destruct Hr as (_ & _ & _ & _ & _ & ts & Hts).
      exists (VTimestamp ts). split; [by apply dict_item_Some | by exists ts]. }
    destruct sorted as [|h tl]; [done|].
    destruct Hfirst as (vh & Hvh & Hmax).
    assert (Hh : h ∈ candidates) by (rewrite <- Hperm; by left).
    rewrite Forall_forall in Hok.
    destruct (storage_schema_info_ok h (Hok h Hh)) as (info & Hinfo & Hcells).
    exists h, info. split; [|split; [done|]].
    + split; [done|].
      destruct (Hok h Hh) as (_ & _ & _ & _ & _ & ts & Hts).
      exists ts. split; [done|]. intros r' ts' Hr' Hts'.
      destruct (Hmax r' Hr') as (vz & Hvz & Hle).
      rewrite (dict_item_Some _ _ _ Hts') in Hvz.
      rewrite (dict_item_Some _ _ _ Hts) in Hvh.
      injection Hvz as <-. injection Hvh as <-. by apply timestamp_le.
    + rewrite Hsorted. simpl. rewrite Hinfo. reflexivity.
Qed.

(** Without the version table [open_table] raises before the [try] is
    entered, and the handler for [IndexError] is never consulted. *)
Lemma most_recent_schema_where_undefined
    (column value : string) (w : World) :
  tables w
    !! make_qualified_table_name self (version_table_name (schema self))
  = None ->
  most_recent_schema_where self column value w
  = (Raise FileNotFoundError, w).
Proof.
  intros Ht. unfold most_recent_schema_where.
  by rewrite M_bind_unfold, open_table_unfold, Ht.
Qed.

Lemma lancedb_error_ok {A : Type} (m : M A) (w w' : World) (a : A) :
  m w = (Ok a, w') -> lancedb_error m w = (Ok a, w').
Proof. unfold lancedb_error. by intros ->. Qed.

Lemma lancedb_error_world {A : Type} (m : M A) (w : World) :
  snd (lancedb_error m w) = snd (m w).
Proof. unfold lancedb_error. by destruct (m w) as [[a|e] w']. Qed.

Lemma latest_wins_lancedb_error
    (column value : string) (t : LanceTable) (w : World)
    (m : M (option StorageSchemaInfo)) :
  latest_wins self column value t w (m w) ->
  latest_wins self column value t w (lancedb_error m w).
Proof.
  unfold latest_wins. intros (Hw & Hnone & Hsome).
  split; [by rewrite lancedb_error_world|]. split.
  - intros Hc. specialize (Hnone Hc).
    destruct (m w) as [r w'] eqn:E. simpl in Hnone. subst r.
    by rewrite (lancedb_error_ok _ _ _ _ E).
  - intros Hc Hok. destruct (Hsome Hc Hok) as (r & info & Hnew & Hinfo & Hres).
    exists r, info. split; [done|]. split; [done|].
    destruct (m w) as [r0 w'] eqn:E. simpl in Hres. subst r0.
    by rewrite (lancedb_error_ok _ _ _ _ E).
Qed.

(** C8.  Latest-wins lookup.  With the version table in the store,
    [get_stored_schema_by_hash(hash)] and [get_stored_schema()] leave
    the store as it was and read the rows that carry the hash, or the
    schema name: without a matching row the answer is [None], not an
    exception; with matching rows the answer holds, field by field, the
    six cells of a row of the greatest insertion timestamp.  Without the
    version table no row matches either, and both lookups raise
    [DestinationUndefinedEntity]. *)
Theorem stored_schema_latest_wins (w : World) :
  match tables w
          !! make_qualified_table_name self (version_table_name (schema self))
  with
  | Some t =>
      (forall schema_hash,
         latest_wins self
           (normalize_identifier (schema self) "version_hash") schema_hash
           t w (get_stored_schema_by_hash self schema_hash w))
      /\ latest_wins self
           (normalize_identifier (schema self) "schema_name")
           (schema_name (schema self)) t w
           (get_stored_schema self w)
  | None =>
      (forall schema_hash,
         get_stored_schema_by_hash self schema_hash w
         = (Raise DestinationUndefinedEntity, w))
      /\ get_stored_schema self w = (Raise DestinationUndefinedEntity, w)
  end.
Proof.
  destruct (tables w !! _) as [t|] eqn:Ht.
  - split; [intros schema_hash|];
      apply latest_wins_lancedb_error;
      by apply most_recent_schema_where_latest.
  - split; [intros schema_hash|];
      unfold get_stored_schema_by_hash, get_stored_schema, lancedb_error;
      by rewrite most_recent_schema_where_undefined.
Qed.

End VersionStoreFacts.

(** On the store with three version rows the lookup by hash H1 answers
    with the cells of a row that carries H1 and was inserted last. *)
Lemma stored_schema_latest_wins_witness :
  exists r info,
    newest "inserted_at" [version_row "H1" 10 1; version_row "H1" 30 3] r
    /\ schema_info_of_row (fun s => s) r info
    /\ fst (get_stored_schema_by_hash sample_client "H1" versions_world)
       = Ok (Some info).
Proof.
  apply (proj1 (stored_schema_latest_wins sample_client versions_world) "H1").
  - discriminate.
  - repeat constructor; by eexists.
Defined.

(** C8 as stated fails on a store that has no version table yet: no
    row matches a hash or the schema name, and both lookups raise
    [DestinationUndefinedEntity] instead of answering [None]. *)
Lemma stored_schema_lookup_raises_on_fresh_store :
  version_records sample_client "H1" empty_world = []
  /\ get_stored_schema_by_hash sample_client "H1" empty_world
     = (Raise DestinationUndefinedEntity, empty_world)
  /\ get_stored_schema sample_client empty_world
     = (Raise DestinationUndefinedEntity, empty_world).
Proof. by repeat split. Qed.

(** The lookup by hash H1 answers with the row inserted at 30, and so
    does the lookup by schema name; an unknown hash is not found. *)
Example get_stored_schema_by_hash_H1 :
  ssi_inserted_at
    <$> default None
          (match fst (get_stored_schema_by_hash sample_client "H1"
                        versions_world) with
           | Ok o => Some o
           | Raise _ => None
           end)
  = Some (VTimestamp 30).
Proof. reflexivity. Qed.

Example get_stored_schema_newest :
  fst (get_stored_schema sample_client versions_world)
  = Ok (Some {| ssi_version_hash := VStr "H1";
                ssi_schema_name := VStr "shop";
                ssi_version := VInt 3;
                ssi_engine_version := VInt 9;
                ssi_inserted_at := VTimestamp 30;
                ssi_schema := VStr "{}" |}).
Proof. reflexivity. Qed.

Example get_stored_schema_by_hash_unknown :
  get_stored_schema_by_hash sample_client "H3" versions_world
  = (Ok None, versions_world).
Proof. reflexivity. Qed.

(* ===================================================================== *)
(** * Properties: the order of strings *)
(* ===================================================================== *)








(* ===================================================================== *)
(** * Properties: get_stored_state *)
(* ===================================================================== *)



Section StateStoreFacts.
Variable self : LanceDBClientState.
Let n := normalize_identifier (schema self).



End StateStoreFacts.



(** A state row whose [created_at] is NULL is not read: the lookup stops
    at [pendulum.instance], which [lancedb_error] reports as terminal. *)
Example get_stored_state_null_created_at :
  get_stored_state sample_client "p"
    {| tables :=
         {[ "ds____dlt_pipeline_state" :=
              {| tbl_schema := [];
                 tbl_rows := [ [ ("version", VInt 1);
                                 ("engine_version", VInt 4);
                                 ("pipeline_name", VStr "p");
                                 ("state", VStr "..");
                                 ("created_at", VNull);
                                 ("version_hash", VStr "S");
                                 ("_dlt_load_id", VStr "100") ] ] |};
            "ds____dlt_loads" := sample_loads_table ]};
       requests := [];
       warnings := [] |}
  = (Raise DestinationTerminalException,
     {| tables :=
         {[ "ds____dlt_pipeline_state" :=
              {| tbl_schema := [];
                 tbl_rows := [ [ ("version", VInt 1);
                                 ("engine_version", VInt 4);
                                 ("pipeline_name", VStr "p");
                                 ("state", VStr "..");
                                 ("created_at", VNull);
                                 ("version_hash", VStr "S");
                                 ("_dlt_load_id", VStr "100") ] ] |};
            "ds____dlt_loads" := sample_loads_table ]};
       requests := [];
       warnings := [] |}).
Proof. reflexivity. Qed.

(** Of the loads 100, 150 and 200 of pipeline [p], load 200 is not
    complete: the state of load 150 is returned. *)
Example get_stored_state_p :
  fst (get_stored_state sample_client "p" states_world)
  = Ok (Some {| si_version := VInt 4;
                si_engine_version := VInt 4;
                si_pipeline_name := VStr "p";
                si_state := VStr "..";
                si_created_at := VTimestamp 5;
                si_version_hash := VStr "S";
                si_dlt_load_id := VStr "150" |}).
Proof. reflexivity. Qed.

Example get_stored_state_unknown_pipeline :
  get_stored_state sample_client "r" states_world = (Ok None, states_world).
Proof. reflexivity. Qed.

(* ===================================================================== *)
(** * Properties: LanceDBRemoveOrphansJob *)
(* ===================================================================== *)

Section OrphansJobFacts.
Import LanceDBRemoveOrphansJob.
Context `{Externals}.

Lemma with_warnings_nil (w : World) : with_warnings w [] = w.
Proof. destruct w. unfold with_warnings. simpl. by rewrite app_nil_r. Qed.

Lemma with_warnings_app (w : World) (a b : list string) :
  with_warnings (with_warnings w a) b = with_warnings w (a ++ b).
Proof. unfold with_warnings. simpl. by rewrite app_assoc. Qed.

Lemma pad_field_spec (payload : ArrowTable) (field : Field) (w : World) :
  pad_field payload field w
  = (Ok (append_column payload field
           (padding_column (at_num_rows payload) field)),
     with_warnings w (map null_warning (without_default [field]))).
Proof.
  unfold pad_field, try_except, padding_column, without_default.
  rewrite M_bind_unfold. unfold lift. simpl.
  destruct (get_default_arrow_value (field_type field)) as [v|]; simpl.
  - by rewrite with_warnings_nil.
  - reflexivity.
Qed.

(** Padding never fails: every field gets its column, filled with the
    default of its type, or with NULL and a warning. *)
Lemma pad_fields_spec (fields : list Field) (payload : ArrowTable)
    (w : World) :
  pad_fields payload fields w
  = (Ok {| at_schema := at_schema payload ++ fields;
           at_num_rows := at_num_rows payload;
           at_columns :=
             at_columns payload
             ++ map (padding_column (at_num_rows payload)) fields |},
     with_warnings w (map null_warning (without_default fields))).
Proof.
  revert payload w. induction fields as [|f fields IH]; intros payload w.
  - simpl. rewrite with_warnings_nil, !app_nil_r. by destruct payload.
  - simpl pad_fields. rewrite M_bind_unfold, pad_field_spec, IH.
    rewrite with_warnings_app. simpl at_schema. simpl at_columns.
    simpl at_num_rows. rewrite <- !app_assoc. simpl.
    f_equal. f_equal. unfold without_default. simpl.
    by destruct (bool_decide _).
Qed.

Lemma write_records_merge_delete_orphans
    (t : ArrowTable) (table_name key : string) (w : World) :
  key <> "" ->
  write_records (Arrow t) table_name (Some "merge") (Some key) true w
  = match tables w !! table_name with
    | None => (Raise DestinationTransientException, w)
    | Some tbl =>
        if arrow_valid tbl (Arrow t)
        then commit table_name (OpMergeDeleteOrphans key (Arrow t))
               (store_merge_delete_orphans tbl key (Arrow t)) w
        else (Raise DestinationTerminalException, w)
    end.
Proof.
  intros Hkey. unfold write_records.
  rewrite M_bind_unfold. unfold try_except at 1.
  rewrite open_table_unfold.
  destruct (tables w !! table_name) as [tbl|] eqn:Ht; [|done].
  unfold try_except. simpl.
  rewrite (bool_decide_eq_false_2 (key = "")) by done. simpl.
  unfold tbl_merge_delete_orphans.
  rewrite M_bind_unfold, open_table_unfold, Ht.
  by destruct (arrow_valid tbl (Arrow t)).
Qed.

Lemma get_parent_path_found
    (lineage : TTableLineage) (p file : string) :
  get_parent_path lineage (Some p) = Ok file
  <-> first_entry_named lineage p file.
Proof.
  unfold get_parent_path, first_entry_named.
  induction lineage as [|e lineage IH]; simpl.
  - split; [discriminate|]. intros (before & e & after & Heq & _).
    by destruct before.
  - destruct (bool_decide (Some (snd (fst e)) = Some p)) eqn:E.
    + apply bool_decide_eq_true in E. injection E as E. split.
      * intros [= <-]. exists [], e, lineage. split; [done|].
        split; [done|]. split; [done|]. intros e' He'.
        by apply elem_of_nil in He'.
      * intros (before & e' & after & Heq & Hname & Hfile & Hbefore).
        destruct before as [|b before]; simpl in Heq.
        -- injection Heq as -> ->. by rewrite Hfile.
        -- injection Heq as -> ->. exfalso.
           apply (Hbefore b); [by left | done].
    + apply bool_decide_eq_false in E. rewrite IH. split.
      * intros (before & e' & after & -> & Hname & Hfile & Hbefore).
        exists (e :: before), e', after. split; [done|].
        split; [done|]. split; [done|]. intros e0 He0.
        apply elem_of_cons in He0 as [-> | He0]; [congruence | by apply Hbefore].
      * intros (before & e' & after & Heq & Hname & Hfile & Hbefore).
        destruct before as [|b before]; simpl in Heq.
        -- injection Heq as -> ->. congruence.
        -- injection Heq as -> ->. exists before, e', after.
           split; [done|]. split; [done|]. split; [done|].
           intros e0 He0. apply Hbefore. by right.
Qed.

Lemma get_parent_path_missing (lineage : TTableLineage) (p : string) :
  (forall e, e ∈ lineage -> snd (fst e) <> p) ->
  get_parent_path lineage (Some p) = Raise StopIteration.
Proof.
  intros Hall. destruct (get_parent_path lineage (Some p)) as [file|ex] eqn:E.
  - apply get_parent_path_found in E
      as (before & e & after & -> & Hname & _).
    exfalso. apply (Hall e); [|done].
    apply elem_of_app. right. by left.
  - unfold get_parent_path in E. by destruct (List.filter _ _).
Qed.

End OrphansJobFacts.

Section OrphansRunFacts.
Import LanceDBRemoveOrphansJob.
Context `{Externals}.
Variable job_client : LanceDBClientState.
Variable storage : gmap string ArrowTable.

Lemma schema_difference_elem (a b : list Field) (f : Field) :
  f ∈ schema_difference a b <-> f ∈ a /\ f ∉ b.
Proof.
  unfold schema_difference.
  by rewrite list_elem_of_difference, elem_of_remove_dups.
Qed.

(** The loop body, once the files are read and the payload is padded,
    is one call of [write_records]. *)
Lemma run_table_unfold
    (lineage : TTableLineage) (target : TTableSchema) (name path : string)
    (w : World) :
  run_table job_client storage lineage (target, name, path) w
  = match merge_key_and_payload_path lineage target path with
    | Raise e => (Raise e, w)
    | Ok (key, file) =>
        match storage !! file, storage !! path with
        | Some payload, Some target_file =>
            let missing :=
              schema_difference (at_schema target_file) (at_schema payload) in
            write_records
              (Arrow (padded_payload (id_field_name job_client)
                        payload missing))
              (make_qualified_table_name job_client name)
              (Some "merge") (Some key) true
              (with_warnings w (map null_warning (without_default missing)))
        | _, _ => (Raise FileNotFoundError, w)
        end
    end.
Proof.
  unfold run_table. rewrite M_bind_unfold. unfold lift at 1.
  destruct (merge_key_and_payload_path lineage target path)
    as [[key file]|e]; [|done].
  rewrite M_bind_unfold. unfold lift at 1. unfold read_table at 1.
  destruct (storage !! file) as [payload|]; [|done].
  rewrite M_bind_unfold. unfold lift at 1. unfold read_schema, read_table.
  destruct (storage !! path) as [target_file|]; [|done].
  simpl. rewrite M_bind_unfold, pad_fields_spec.
  unfold padded_payload, append_column. simpl.
  by rewrite <- !app_assoc.
Qed.

(** C7.  Padding of the orphan-removal payload is best effort.  Once the
    payload file and the file of the target table are read, the job
    adds one column for every field that the schema of the target file
    has and the payload lacks, filled with the default of the type of
    the field, or, where the type has no default, with NULL, and then a
    warning is logged for that field; padding itself never raises, and
    the job goes on to the merge write with the padded payload. *)
Theorem orphan_payload_padding_best_effort
    (lineage : TTableLineage) (target : TTableSchema)
    (name path key file : string) (payload target_file : ArrowTable)
    (w : World) :
  merge_key_and_payload_path lineage target path = Ok (key, file) ->
  storage !! file = Some payload ->
  storage !! path = Some target_file ->
  let missing :=
    schema_difference (at_schema target_file) (at_schema payload) in
  (forall f, f ∈ missing
             <-> f ∈ at_schema target_file /\ f ∉ at_schema payload)
  /\ pad_fields payload missing w
     = (Ok {| at_schema := at_schema payload ++ missing;
              at_num_rows := at_num_rows payload;
              at_columns :=
                at_columns payload
                ++ map (fun f =>
                          replicate (at_num_rows payload)
                            (match get_default_arrow_value (field_type f)
                             with
                             | Some default_value => default_value
                             | None => VNull
                             end))
                       missing |},
        {| tables := tables w;
           requests := requests w;
           warnings :=
             warnings w
             ++ map null_warning
                  (List.filter
                     (fun f => bool_decide
                                 (get_default_arrow_value (field_type f)
                                  = None))
                     missing) |})
  /\ run_table job_client storage lineage (target, name, path) w
     = write_records
         (Arrow (padded_payload (id_field_name job_client) payload missing))
         (make_qualified_table_name job_client name)
         (Some "merge") (Some key) true
         (with_warnings w (map null_warning (without_default missing))).
Proof.
  intros Hsel Hfile Hpath missing. split; [|split].
  - intros f. apply schema_difference_elem.
  - by rewrite pad_fields_spec.
  - by rewrite run_table_unfold, Hsel, Hfile, Hpath.
Qed.

Lemma merge_key_and_payload_path_root
    (lineage : TTableLineage) (target : TTableSchema) (path : string) :
  parent target = None ->
  merge_key_and_payload_path lineage target path = Ok ("_dlt_id", path).
Proof. unfold merge_key_and_payload_path. by intros ->. Qed.

Lemma merge_key_and_payload_path_child
    (lineage : TTableLineage) (target : TTableSchema) (path p : string) :
  parent target = Some p ->
  merge_key_and_payload_path lineage target path
  = (file_path ← get_parent_path lineage (Some p);
     Ok ("_dlt_parent_id", file_path)).
Proof. unfold merge_key_and_payload_path. by intros ->. Qed.

(** A child whose parent has no entry in the lineage stops the job at
    once, before anything is read or written for it. *)
Lemma run_table_parent_missing
    (lineage : TTableLineage) (target : TTableSchema)
    (name path p : string) (w : World) :
  parent target = Some p ->
  (forall e, e ∈ lineage -> snd (fst e) <> p) ->
  run_table job_client storage lineage (target, name, path) w
  = (Raise StopIteration, w).
Proof.
  intros Hp Hmissing.
  rewrite run_table_unfold, (merge_key_and_payload_path_child _ _ _ _ Hp).
  by rewrite (get_parent_path_missing _ _ Hmissing).
Qed.

(** One turn of the loop either sends the request of its entry, or
    raises and sends nothing. *)
Lemma run_table_outcome
    (lineage : TTableLineage) (entry : TTableSchema * string * string)
    (w w' : World) (r : Res ()) :
  run_table job_client storage lineage entry w = (r, w') ->
  match r with
  | Ok _ =>
      exists request,
        orphan_request job_client storage lineage entry request
        /\ requests w' = requests w ++ [request]
  | Raise _ => requests w' = requests w /\ tables w' = tables w
  end.
Proof.
  destruct entry as [[target name] path]. rewrite run_table_unfold.
  destruct (merge_key_and_payload_path lineage target path)
    as [[key file]|e] eqn:Hsel; [|by intros [= <- <-]].
  destruct (storage !! file) as [payload|] eqn:Hfile;
    [|by intros [= <- <-]].
  destruct (storage !! path) as [target_file|] eqn:Hpath;
    [|by intros [= <- <-]].
  cbv zeta.
  assert (Hkey : key <> ""
            /\ match parent target with
               | None => key = "_dlt_id" /\ file = path
               | Some p =>
                   key = "_dlt_parent_id" /\ first_entry_named lineage p file
               end).
  { destruct (parent target) as [p|] eqn:Hp.
    - rewrite (merge_key_and_payload_path_child _ _ _ _ Hp) in Hsel.
      destruct (get_parent_path lineage (Some p)) as [f|] eqn:Hget;
        [|discriminate].
      injection Hsel as <- <-. split; [done|]. split; [done|].
      by apply get_parent_path_found.
    - rewrite (merge_key_and_payload_path_root _ _ _ Hp) in Hsel.
      by injection Hsel as <- <-. }
  destruct Hkey as [Hne Hkey].
  rewrite (write_records_merge_delete_orphans _ _ _ _ Hne). simpl.
  destruct (tables w !! make_qualified_table_name job_client name)
    as [tbl|]; [|by intros [= <- <-]].
  destruct (arrow_valid tbl _); [|by intros [= <- <-]].
  unfold commit. simpl. intros [= <- <-]. simpl.
  eexists. split; [|reflexivity].
  exists key, file, payload, target_file. simpl. done.
Qed.

(** The loop sends the requests of the entries it gets through, in
    order, and stops at the first entry that raises. *)
Lemma for_each_run_table
    (lineage : TTableLineage) (l : TTableLineage) (w w' : World) (r : Res ()) :
  for_each l (run_table job_client storage lineage) w = (r, w') ->
  exists processed rest sent,
    l = processed ++ rest
    /\ Forall2 (orphan_request job_client storage lineage) processed sent
    /\ requests w' = requests w ++ sent
    /\ match r with
       | Ok _ => rest = []
       | Raise ex =>
           exists e rest' w1,
             rest = e :: rest'
             /\ run_table job_client storage lineage e w1 = (Raise ex, w')
       end.
Proof.
  revert w. induction l as [|e l IH]; intros w.
  - simpl. intros [= <- <-]. exists [], [], []. simpl.
    by rewrite app_nil_r.
  - simpl for_each. rewrite M_bind_unfold.
    destruct (run_table job_client storage lineage e w) as [[[]|ex] w1]
      eqn:Hstep.
    + intros Hrest. apply run_table_outcome in Hstep as (req & Hreq & Hw1).
      destruct (IH _ Hrest) as (processed & rest & sent & -> & Hall & Hw' & Hr).
      exists (e :: processed), rest, (req :: sent). split; [done|].
      split; [by constructor|]. split; [|done].
      by rewrite Hw', Hw1, <- app_assoc.
    + intros [= <- <-]. pose proof (run_table_outcome _ _ _ _ _ Hstep) as [Hreq _].
      exists [], (e :: l), []. split; [done|]. split; [constructor|].
      split; [by rewrite app_nil_r|]. by exists e, l, w.
Qed.

End OrphansRunFacts.

Section OrphansLineageFacts.
Import LanceDBRemoveOrphansJob.
Context `{Externals}.
Variable job_client : LanceDBClientState.
Variable storage : gmap string ArrowTable.

Lemma orphan_request_parent_listed
    (lineage : TTableLineage) (target : TTableSchema) (name path p : string)
    (request : string * Operation) :
  orphan_request job_client storage lineage (target, name, path) request ->
  parent target = Some p ->
  exists e, e ∈ lineage /\ snd (fst e) = p.
Proof.
  intros (key & file & payload & target_file & Hsel & _) Hp.
  simpl in Hsel. rewrite Hp in Hsel.
  destruct Hsel as [_ (before & e & after & -> & Hname & _)].
  exists e. split; [|done]. apply elem_of_app. right. by left.
Qed.

Lemma Forall2_elem_l {A B : Type} (R : A -> B -> Prop)
    (l : list A) (k : list B) (x : A) :
  Forall2 R l k -> x ∈ l -> exists y, R x y.
Proof.
  induction 1 as [|a b l k Hab _ IH]; intros Hx.
  - by apply elem_of_nil in Hx.
  - apply elem_of_cons in Hx as [-> | Hx]; [by exists b | by apply IH].
Qed.

(** C1, amended.  The orphan-removal job walks the lineage in order and
    sends one merge that only deletes unmatched rows per table: a root
    is keyed on [_dlt_id] with its own batch file as payload, a child is
    keyed on [_dlt_parent_id] with the batch file of its parent table,
    the first entry of the lineage that bears the parent's name.  When
    a child's parent has no entry in the lineage the job raises, and
    sends nothing for that child or for any table after it. *)
Theorem orphan_removal_lineage_join
    (_schema : Schema) (references : list string)
    (lineage : TTableLineage) (w : World) :
  table_lineage _schema references = Ok lineage ->
  (forall w',
     run job_client _schema references storage w = (Ok (), w') ->
     exists sent,
       Forall2 (orphan_request job_client storage lineage) lineage sent
       /\ requests w' = requests w ++ sent)
  /\ (forall before target name path after p,
        lineage = before ++ (target, name, path) :: after ->
        parent target = Some p ->
        (forall e, e ∈ lineage -> snd (fst e) <> p) ->
        exists ex w' processed rest sent,
          run job_client _schema references storage w = (Raise ex, w')
          /\ before = processed ++ rest
          /\ Forall2 (orphan_request job_client storage lineage)
               processed sent
          /\ requests w' = requests w ++ sent
          /\ (rest = [] -> ex = StopIteration)).
Proof.
  intros Hlineage.
  assert (Hrun : run job_client _schema references storage w
                 = for_each lineage
                     (run_table job_client storage lineage) w).
  { unfold run. rewrite M_bind_unfold. unfold lift. by rewrite Hlineage. }
  split.
  - intros w' Hok. rewrite Hrun in Hok.
    apply for_each_run_table in Hok
      as (processed & rest & sent & Hl & Hall & Hw' & ->).
    rewrite app_nil_r in Hl. subst processed. by exists sent.
  - intros before target name path after p Hsplit Hp Hmissing.
    assert (Hnot : forall l sent,
              Forall2 (orphan_request job_client storage lineage) l sent ->
              (target, name, path) ∉ l).
    { intros l sent Hall Hin.
      destruct (Forall2_elem_l _ _ _ _ Hall Hin) as [req Hreq].
      destruct (orphan_request_parent_listed _ _ _ _ _ _ Hreq Hp)
        as (e & He & Hname).
      by apply (Hmissing e). }
    rewrite Hrun.
    destruct (for_each lineage (run_table job_client storage lineage) w)
      as [r w'] eqn:E.
    apply for_each_run_table in E
      as (processed & rest0 & sent & Hl & Hall & Hw' & Hr).
    destruct r as [[]|ex].
    + exfalso. subst rest0. rewrite app_nil_r in Hl. subst processed.
      apply (Hnot _ _ Hall). rewrite Hsplit.
      apply elem_of_app. right. by left.
    + destruct Hr as (e & rest' & w1 & -> & Hstep).
      rewrite Hsplit in Hl. symmetry in Hl.
      apply app_eq_app in Hl as [l [[Hproc Hrest] | [Hbefore Hrest]]].
      * destruct l as [|x l].
        -- rewrite app_nil_r in Hproc. simpl in Hrest.
           injection Hrest as <- <-. subst processed.
           exists ex, w', before, [], sent. rewrite app_nil_r.
           repeat split; try done. intros _.
           rewrite (run_table_parent_missing _ _ _ _ _ _ _ _ Hp Hmissing)
             in Hstep.
           by injection Hstep as <- <-.
        -- exfalso. simpl in Hrest. injection Hrest as <- _.
           apply (Hnot _ _ Hall). rewrite Hproc.
           apply elem_of_app. right. by left.
      * exists ex, w', processed, l, sent. repeat split; try done.
        intros ->. simpl in Hrest. injection Hrest as -> ->.
        rewrite (run_table_parent_missing _ _ _ _ _ _ _ _ Hp Hmissing)
          in Hstep.
        by injection Hstep as <- <-.
Qed.

End OrphansLineageFacts.

Example table_lineage_sample :
  LanceDBRemoveOrphansJob.table_lineage sample_schema sample_references
  = Ok sample_lineage.
Proof. reflexivity. Qed.

Lemma orphan_removal_lineage_join_witness :
  exists sent,
    Forall2 (orphan_request sample_client sample_storage sample_lineage)
      sample_lineage sent
    /\ requests
         (snd (LanceDBRemoveOrphansJob.run sample_client sample_schema
                 sample_references sample_storage orphans_world))
       = requests orphans_world ++ sent.
Proof.
  assert (Hlineage :
            LanceDBRemoveOrphansJob.table_lineage sample_schema
              sample_references = Ok sample_lineage) by reflexivity.
  destruct (orphan_removal_lineage_join sample_client sample_storage
              sample_schema sample_references sample_lineage orphans_world
              Hlineage) as [Hok _].
  apply Hok. vm_compute. reflexivity.
Defined.

(** The run on the sample chain sends three merges, keyed on [_dlt_id],
    [_dlt_parent_id] and [_dlt_parent_id]; item [d], which the root
    batch no longer carries, is gone from the root table; the binary
    column of the tags table has no default and is reported twice, for
    the child and for the grandchild payload it is missing from. *)
Example run_sample_requests :
  map (fun r => (fst r,
                 match snd r with
                 | OpMergeDeleteOrphans on _ => on
                 | _ => ""
                 end))
      (requests
         (snd (LanceDBRemoveOrphansJob.run sample_client sample_schema
                 sample_references sample_storage orphans_world)))
  = [ ("ds___items", "_dlt_id");
      ("ds___items__tags", "_dlt_parent_id");
      ("ds___items__tags__notes", "_dlt_parent_id") ].
Proof. vm_compute. reflexivity. Qed.

Example run_sample_root_rows :
  tbl_rows
    <$> tables
          (snd (LanceDBRemoveOrphansJob.run sample_client sample_schema
                  sample_references sample_storage orphans_world))
        !! "ds___items"
  = Some [ [("_dlt_id", VStr "a"); ("id", VInt 1)];
           [("_dlt_id", VStr "b"); ("id", VInt 2)];
           [("_dlt_id", VStr "c"); ("id", VInt 3)] ].
Proof. vm_compute. reflexivity. Qed.

(** C1 as stated fails twice.  The payload of the grandchild
    [items__tags__notes] is the batch file of its parent [items__tags],
    not the file of the root.  And with a reference file that lacks the
    parent's batch, the job raises [StopIteration], which is not a
    terminal error of the loader, after the merge on the root table has
    been sent. *)
Lemma orphan_removal_payload_and_failure :
  LanceDBRemoveOrphansJob.merge_key_and_payload_path sample_lineage
    notes_table "items__tags__notes.1.0.parquet"
  = Ok ("_dlt_parent_id", "items__tags.1.0.parquet")
  /\ "items__tags.1.0.parquet" <> "items.1.0.parquet"
  /\ LanceDBRemoveOrphansJob.table_lineage sample_schema broken_references
     = Ok broken_lineage
  /\ fst (LanceDBRemoveOrphansJob.run sample_client sample_schema
            broken_references sample_storage orphans_world)
     = Raise StopIteration
  /\ is_terminal StopIteration = false
  /\ map fst
       (requests
          (snd (LanceDBRemoveOrphansJob.run sample_client sample_schema
                  broken_references sample_storage orphans_world)))
     = ["ds___items"].
Proof.
  split; [reflexivity|]. split; [discriminate|].
  split; [reflexivity|]. split; [vm_compute; reflexivity|].
  split; [reflexivity|]. vm_compute. reflexivity.
Qed.

Lemma orphan_payload_padding_best_effort_witness :
  LanceDBRemoveOrphansJob.run_table sample_client sample_storage
    sample_lineage (tags_table, "items__tags", "items__tags.1.0.parquet")
    orphans_world
  = write_records
      (Arrow (padded_payload "id__" items_file
                [ pa_field "_dlt_parent_id" pa_string;
                  pa_field "tag" pa_string;
                  pa_field "blob" pa_binary ]))
      "ds___items__tags" (Some "merge") (Some "_dlt_parent_id") true
      (with_warnings orphans_world
         [LanceDBRemoveOrphansJob.null_warning
            (pa_field "blob" pa_binary)]).
Proof.
  refine (proj2 (proj2
            (orphan_payload_padding_best_effort sample_client sample_storage
               sample_lineage tags_table "items__tags"
               "items__tags.1.0.parquet" "_dlt_parent_id" "items.1.0.parquet"
               items_file tags_file orphans_world _ _ _)));
    reflexivity.
Defined.

(** The padded payload of the child: the three columns of the root
    batch, then empty strings for the two string fields, NULL for the
    binary field, and the id field of the client. *)
Example padded_payload_columns :
  at_columns
    (padded_payload "id__" items_file
       [ pa_field "_dlt_parent_id" pa_string;
         pa_field "tag" pa_string;
         pa_field "blob" pa_binary ])
  = [ [VStr "a"; VStr "b"; VStr "c"];
      [VInt 1; VInt 2; VInt 3];
      [VStr "x"; VStr "y"; VStr "z"];
      [VStr ""; VStr ""; VStr ""];
      [VStr ""; VStr ""; VStr ""];
      [VNull; VNull; VNull];
      [VStr ""; VStr ""; VStr ""] ].
Proof. reflexivity. Qed.

(* ===================================================================== *)
(** * Properties: relations kept by every step *)
(* ===================================================================== *)

Section Steps.
Variable R : World -> World -> Prop.
Hypothesis R_refl : forall w, R w w.
Hypothesis R_trans : forall a b c, R a b -> R b c -> R a c.

Lemma respects_readonly {A : Type} (m : M A) :
  respects eq m -> respects R m.
Proof. intros Hm w. rewrite <- (Hm w). apply R_refl. Qed.

Lemma respects_ret {A : Type} (a : A) : respects R (mret a).
Proof. intros w. apply R_refl. Qed.

Lemma respects_lift {A : Type} (r : Res A) : respects R (lift r).
Proof. intros w. apply R_refl. Qed.


Lemma respects_bind {A B : Type} (m : M A) (f : A -> M B) :
  respects R m -> (forall a, respects R (f a)) -> respects R (m ≫= f).
Proof.
  intros Hm Hf w. rewrite M_bind_unfold. specialize (Hm w).
  destruct (m w) as [[a|e] w1]; simpl in *; [|done].
  eapply R_trans; [exact Hm | apply Hf].
Qed.

Lemma respects_try_except {A : Type}
    (m : M A) (handles : Exn -> bool) (handler : Exn -> M A) :
  respects R m -> (forall e, respects R (handler e)) ->
  respects R (try_except m handles handler).
Proof.
  intros Hm Hh w. unfold try_except. specialize (Hm w).
  destruct (m w) as [[a|e] w1]; simpl in *; [done|].
  destruct (handles e); [|done].
  eapply R_trans; [exact Hm | apply Hh].
Qed.


Lemma respects_for_each {A : Type} (l : list A) (body : A -> M ()) :
  (forall x, respects R (body x)) -> respects R (for_each l body).
Proof.
  intros Hbody. induction l as [|x l IH]; simpl.
  - apply respects_ret.
  - apply respects_bind; [apply Hbody | by intros _].
Qed.

Lemma respects_open_table (table_name : string) :
  respects R (open_table table_name).
Proof.
  intros w. rewrite open_table_unfold.
  destruct (tables w !! table_name); apply R_refl.
Qed.

End Steps.

Lemma eq_refl_world (w : World) : w = w.
Proof. reflexivity. Qed.

Lemma eq_trans_world (a b c : World) : a = b -> b = c -> a = c.
Proof. congruence. Qed.

(** Reading the physical schema of a table leaves the world alone. *)
Lemma get_storage_table_readonly
    (self : LanceDBClientState) (table_name : string) :
  respects eq (get_storage_table self table_name).
Proof.
  unfold get_storage_table.
  apply (respects_bind eq eq_trans_world).
  - apply (respects_try_except eq eq_trans_world).
    + apply (respects_bind eq eq_trans_world).
      * apply (respects_open_table eq eq_refl_world).
      * intros t. apply (respects_ret eq eq_refl_world).
    + intros e. apply (respects_ret eq eq_refl_world).
  - intros [arrow_schema|].
    + apply (respects_bind eq eq_trans_world).
      * apply (respects_lift eq eq_refl_world).
      * intros ts. apply (respects_ret eq eq_refl_world).
    + apply (respects_ret eq eq_refl_world).
Qed.


(* ===================================================================== *)
(** * Properties: extending a table in place *)
(* ===================================================================== *)

Lemma alter_all_cons (f : Field) (fields : list Field) (t : LanceTable) :
  alter_all t (f :: fields)
  = alter_all (store_alter_nullable t (field_name f) (field_nullable f))
      fields.
Proof. reflexivity. Qed.

Lemma alter_all_rows (fields : list Field) (t : LanceTable) :
  tbl_rows (alter_all t fields) = tbl_rows t.
Proof.
  revert t. induction fields as [|f fields IH]; intros t; [done|].
  unfold alter_all in *. simpl. by rewrite IH.
Qed.


Lemma set_table_id (w : World) (name : string) (t : LanceTable) :
  tables w !! name = Some t -> set_table w name t [] = w.
Proof.
  intros Ht. destruct w as [tbls reqs warns]. unfold set_table. simpl in *.
  by rewrite insert_id, app_nil_r.
Qed.

Lemma set_table_twice (w : World) (name : string) (t1 t2 : LanceTable)
    (sent1 sent2 : list (string * Operation)) :
  set_table (set_table w name t1 sent1) name t2 sent2
  = set_table w name t2 (sent1 ++ sent2).
Proof.
  unfold set_table. simpl. by rewrite insert_insert_eq, app_assoc.
Qed.

Lemma commit_unfold (name : string) (op : Operation) (t : LanceTable)
    (w : World) :
  commit name op t w = (Ok (), set_table w name t [(name, op)]).
Proof. reflexivity. Qed.

(** ** The keys and items of a [dict] *)










Section ExtendFacts.
Context `{Externals}.

Lemma for_each_alter_columns
    (table_name : string) (fields : list Field) (t : LanceTable) (w : World) :
  tables w !! table_name = Some t ->
  for_each fields
    (fun field =>
       tbl_alter_columns table_name (field_name field) (field_nullable field))
    w
  = (Ok (),
     set_table w table_name (alter_all t fields)
       (map (fun f => (table_name,
                       OpAlterNullable (field_name f) (field_nullable f)))
            fields)).
Proof.
  revert t w. induction fields as [|f fields IH]; intros t w Ht.
  - simpl. by rewrite set_table_id.
  - simpl for_each. rewrite M_bind_unfold. unfold tbl_alter_columns at 1.
    rewrite M_bind_unfold, open_table_unfold, Ht, commit_unfold.
    rewrite (IH (store_alter_nullable t (field_name f) (field_nullable f)));
      [|by apply lookup_insert_eq].
    by rewrite set_table_twice, alter_all_cons.
Qed.

Lemma tbl_add_columns_unfold
    (table_name : string) (new_fields : list (string * string))
    (t : LanceTable) (w : World) :
  tables w !! table_name = Some t ->
  tbl_add_columns table_name new_fields w
  = match store_add_columns t new_fields with
    | Some t' =>
        (Ok (),
         set_table w table_name t' [(table_name, OpAddColumns new_fields)])
    | None => (Raise add_columns_refusal, w)
    end.
Proof.
  intros Ht. unfold tbl_add_columns.
  rewrite M_bind_unfold, open_table_unfold, Ht.
  by destruct (store_add_columns t new_fields).
Qed.

(** What the store makes of an accepted [add_columns]. *)
Lemma store_add_columns_Some
    (t t' : LanceTable) (new_fields : list (string * string)) :
  store_add_columns t new_fields = Some t' ->
  NoDup (map fst new_fields)
  /\ Forall (fun kv => fst kv ∉ map field_name (tbl_schema t)) new_fields
  /\ tbl_rows t'
     = map (fun r : Row =>
              (r ++ map (fun kv => (fst kv, VNull)) new_fields)%list)
           (tbl_rows t)
  /\ exists added,
       tbl_schema t' = tbl_schema t ++ added
       /\ Forall2
            (fun kv f =>
               field_name f = fst kv
               /\ field_nullable f = false
               /\ sql_expression_type (snd kv) = Some (field_type f))
            new_fields added.
Proof.
  unfold store_add_columns.
  destruct (bool_decide _) eqn:Hok; [|discriminate].
  apply bool_decide_eq_true in Hok as [Hnodup Hfresh].
  destruct (mapM _ new_fields) as [added|] eqn:Hadded; [|discriminate].
  simpl. intros [= <-]. split; [done|]. split; [done|]. split; [done|].
  exists added. split; [done|].
  apply mapM_Some_1 in Hadded.
  eapply Forall2_impl; [exact Hadded|].
  intros kv f Hf. simpl in Hf.
  destruct (sql_expression_type (snd kv)) as [type|]; [|discriminate].
  simpl in Hf. injection Hf as <-. done.
Qed.

(** [extend_lancedb_table_schema] on a table that is there: the store
    accepts the columns and the table is altered, or the refusal is
    passed over when it is an [OSError] and reported otherwise. *)
Lemma extend_lancedb_table_schema_unfold
    (table_name : string) (field_schemas : list Field)
    (t : LanceTable) (w : World) :
  tables w !! table_name = Some t ->
  extend_lancedb_table_schema table_name field_schemas w
  = match store_add_columns t (null_casts field_schemas) with
    | Some t' =>
        (Ok (),
         set_table w table_name (alter_all t' field_schemas)
           ([(table_name, OpAddColumns (null_casts field_schemas))]
            ++ map (fun f => (table_name,
                              OpAlterNullable (field_name f)
                                (field_nullable f)))
                   field_schemas))
    | None =>
        if bool_decide (add_columns_refusal = OSError) then (Ok (), w)
        else lancedb_error (raise add_columns_refusal) w
    end.
Proof.
  intros Ht. unfold extend_lancedb_table_schema, lancedb_error.
  rewrite M_bind_unfold, open_table_unfold, Ht.
  unfold try_except. cbv zeta. rewrite M_bind_unfold.
  fold (null_casts field_schemas).
  rewrite (tbl_add_columns_unfold _ _ _ _ Ht).
  destruct (store_add_columns t (null_casts field_schemas)) as [t'|].
  - rewrite (for_each_alter_columns _ _ t'); [|by apply lookup_insert_eq].
    by rewrite set_table_twice.
  - unfold raise. by destruct (bool_decide (add_columns_refusal = OSError)).
Qed.

(** What [extend_lancedb_table_schema] leaves behind: the world as it
    was, or the table with the new columns after the old ones. *)
Lemma extend_lancedb_table_schema_outcome
    (table_name : string) (field_schemas : list Field) (w : World) :
  snd (extend_lancedb_table_schema table_name field_schemas w) = w
  \/ exists t t' sent,
       tables w !! table_name = Some t
       /\ store_add_columns t (null_casts field_schemas) = Some t'
       /\ snd (extend_lancedb_table_schema table_name field_schemas w)
          = set_table w table_name (alter_all t' field_schemas) sent.
Proof.
  destruct (tables w !! table_name) as [t|] eqn:Ht.
  - rewrite (extend_lancedb_table_schema_unfold _ _ _ _ Ht).
    destruct (store_add_columns t (null_casts field_schemas)) as [t'|] eqn:E.
    + right. by eexists t, t', _.
    + left. destruct (bool_decide _); [done|].
      by rewrite lancedb_error_world.
  - left. unfold extend_lancedb_table_schema.
    by rewrite lancedb_error_world, M_bind_unfold, open_table_unfold, Ht.
Qed.

Lemma create_table_outcome
    (table_name : string) (schema : list Field) (w : World) :
  snd (create_table table_name schema w) = w
  \/ (tables w !! table_name = None
      /\ snd (create_table table_name schema w)
         = set_table w table_name
             {| tbl_schema := schema; tbl_rows := [] |}
             [(table_name, OpCreateTable schema)]).
Proof.
  unfold create_table. rewrite lancedb_error_world.
  destruct (tables w !! table_name); [by left | by right].
Qed.

Variable self : LanceDBClientState.






End ExtendFacts.

(* ===================================================================== *)
(** * Properties: schema evolution is additive *)
(* ===================================================================== *)









Section AdditiveFacts.
Context `{Externals}.
Variable self : LanceDBClientState.




















(** Where the store reads every cast as the type that was cast to, an
    added field has the type the mapper chose. *)
Lemma added_for_column_mapper_type (c : TColumnSchema) (f : Field) :
  (forall dtype,
     sql_expression_type
       ("CAST(NULL AS " +:+ arrow_datatype_to_fusion_datatype dtype +:+ ")")
     = Some dtype) ->
  added_for_column self c f ->
  LanceDBTypeMapper.to_db_type (capabilities self) c = Ok (field_type f).
Proof.
  intros Hread (_ & _ & dtype & Hdtype & Htype).
  rewrite Hread in Htype. by injection Htype as <-.
Qed.

(** What was there stays: the schema reached in place begins with the
    schema it started from. *)
Lemma extended_in_place_prefix (name : string) (s s' : list Field) :
  extended_in_place self name s s' -> exists added, s' = s ++ added.
Proof.
  induction 1 as [s|s s1 s2 (tn & _ & ex & new & added & _ & _ & -> & _) _
                    [added' ->]].
  - exists []. by rewrite app_nil_r.
  - exists (added ++ added'). by rewrite app_assoc.
Qed.

End AdditiveFacts.

Section AdditiveTheorem.
Context `{Externals}.
Variable self : LanceDBClientState.


End AdditiveTheorem.


(** With [id] and [name] in the store and [id], [name] and [_dlt_id] in
    the logical schema, the update leaves [id] and [name] as they were
    and adds [_dlt_id] as a nullable string. *)
Example update_adds_dlt_id :
  tbl_schema
    <$> tables (snd (update_stored_schema sample_client None 40
                       evolving_world))
        !! "ds___items"
  = Some [ pa_field "id" pa_int64;
           pa_field "name" pa_string;
           pa_field "_dlt_id" pa_string ].
Proof. vm_compute. reflexivity. Qed.

(** The store receives the cast of NULL to the SQL name of the type of
    the new field, under the name of the field. *)
Example update_sends_cast :
  List.filter
    (fun request =>
       match snd request with
       | OpAddColumns _ => true
       | _ => false
       end)
    (requests (snd (update_stored_schema sample_client None 40
                      evolving_world)))
  = [("ds___items", OpAddColumns [("_dlt_id", "CAST(NULL AS STRING)")])].
Proof. vm_compute. reflexivity. Qed.

(* ===================================================================== *)
(** * Properties: idempotent schema upgrade *)
(* ===================================================================== *)

Lemma M_bind_Ok_inv {A B : Type} (m : M A) (f : A -> M B)
    (w w' : World) (b : B) :
  (m ≫= f) w = (Ok b, w') ->
  exists a w1, m w = (Ok a, w1) /\ f a w1 = (Ok b, w').
Proof.
  rewrite M_bind_unfold. destruct (m w) as [[a|e] w1]; [|discriminate].
  intros Hf. by exists a, w1.
Qed.

Lemma lancedb_error_Ok_inv {A : Type} (m : M A) (w w' : World) (a : A) :
  lancedb_error m w = (Ok a, w') -> m w = (Ok a, w').
Proof.
  unfold lancedb_error. destruct (m w) as [[a'|e] w1]; [done|discriminate].
Qed.

Lemma value_compare_error (a b : Value) (e : Exn) :
  value_compare a b = Raise e -> e = TypeError.
Proof. destruct a, b; simpl; congruence. Qed.

Lemma insert_reverse_cases {A : Type} (x : Value * A) (l : list (Value * A)) :
  (exists r, insert_reverse x l = Ok r /\ length r = S (length l))
  \/ insert_reverse x l = Raise TypeError.
Proof.
  induction l as [|y l IH]; simpl.
  - left. by exists [x].
  - destruct (value_compare (fst y) (fst x)) as [c|e] eqn:Hc.
    + simpl. destruct c; try (left; by eexists).
      destruct IH as [(r & -> & Hlen) | ->]; simpl.
      * left. exists (y :: r). simpl. by rewrite Hlen.
      * by right.
    + right. apply value_compare_error in Hc as ->. reflexivity.
Qed.

Lemma sort_reverse_cases {A : Type} (l : list (Value * A)) :
  (exists r, sort_reverse l = Ok r /\ length r = length l)
  \/ sort_reverse l = Raise TypeError.
Proof.
  induction l as [|x l IH]; simpl.
  - left. by exists [].
  - destruct IH as [(r & -> & Hlen) | ->]; simpl; [|by right].
    destruct (insert_reverse_cases x r) as [(r' & -> & Hlen') | ->].
    + left. exists r'. by rewrite Hlen', Hlen.
    + by right.
Qed.

Lemma decorate_cases {A : Type} (key : A -> Res Value) (l : list A) :
  (forall x e, key x = Raise e -> e = KeyError) ->
  (exists d, decorate key l = Ok d /\ length d = length l)
  \/ decorate key l = Raise KeyError.
Proof.
  intros Hkey. induction l as [|x l IH]; simpl.
  - left. by exists [].
  - destruct (key x) as [k|e] eqn:Hx; simpl.
    + destruct IH as [(d & -> & Hlen) | ->]; simpl; [|by right].
      left. eexists. split; [done|]. simpl. by rewrite Hlen.
    + right. by rewrite (Hkey _ _ Hx).
Qed.

Lemma sorted_reverse_cases {A : Type} (key : A -> Res Value) (l : list A) :
  (forall x e, key x = Raise e -> e = KeyError) ->
  (exists r, sorted_reverse key l = Ok r /\ length r = length l)
  \/ sorted_reverse key l = Raise KeyError
  \/ sorted_reverse key l = Raise TypeError.
Proof.
  intros Hkey. unfold sorted_reverse.
  destruct (decorate_cases key l Hkey) as [(d & -> & Hlen) | ->]; simpl;
    [|by right; left].
  destruct (sort_reverse_cases d) as [(r & -> & Hlen') | ->]; simpl.
  - left. eexists. split; [done|]. by rewrite length_map, Hlen', Hlen.
  - by right; right.
Qed.

Lemma dict_item_error {K V : Type} `{EqDecision K}
    (d : list (K * V)) (k : K) (e : Exn) :
  dict_item d k = Raise e -> e = KeyError.
Proof. unfold dict_item. destruct (dict_get d k); congruence. Qed.

Lemma storage_schema_info_error
    (self : LanceDBClientState) (r : Row) (e : Exn) :
  storage_schema_info self r = Raise e -> e = KeyError.
Proof.
  unfold storage_schema_info.
  repeat (match goal with
          | |- context [dict_item ?d ?k] =>
              let E := fresh "E" in
              destruct (dict_item d k) eqn:E; simpl;
              [|apply dict_item_error in E as ->; congruence]
          end).
  discriminate.
Qed.

(** With a record of the hash in the version table, the lookup finds a
    record or fails for good; it never answers "not found". *)
Lemma most_recent_schema_where_found
    (self : LanceDBClientState) (column value : string)
    (t : LanceTable) (w : World) :
  tables w
    !! make_qualified_table_name self (version_table_name (schema self))
  = Some t ->
  List.filter (fun r => bool_decide (dict_get r column = Some (VStr value)))
              (tbl_rows t) <> [] ->
  exists r,
    most_recent_schema_where self column value w = (r, w)
    /\ ((exists info, r = Ok (Some info))
        \/ r = Raise KeyError \/ r = Raise TypeError).
Proof.
  intros Ht Hne. unfold most_recent_schema_where.
  rewrite M_bind_unfold, open_table_unfold, Ht.
  unfold try_except, lift.
  set (candidates :=
         List.filter
           (fun r => bool_decide (dict_get r column = Some (VStr value)))
           (tbl_rows t)) in *.
  destruct (sorted_reverse_cases
              (fun x => dict_item x
                          (normalize_identifier (schema self) "inserted_at"))
              candidates)
    as [(sorted & -> & Hlen) | [-> | ->]].
  - intros x e. apply dict_item_error.
  - destruct sorted as [|h tl];
      [destruct candidates; [done | discriminate]|].
    simpl. destruct (storage_schema_info self h) as [info|e] eqn:Hinfo.
    + simpl. eexists. split; [done|]. left. by eexists.
    + apply storage_schema_info_error in Hinfo as ->. simpl.
      eexists. split; [done|]. by right; left.
  - simpl. eexists. split; [done|]. by right; left.
  - simpl. eexists. split; [done|]. by right; right.
Qed.

Section IdempotentFacts.
Context `{Externals}.
Variable self : LanceDBClientState.
Let hash := stored_version_hash (schema self).
Let fq_version :=
  make_qualified_table_name self (version_table_name (schema self)).

(** The lookup that opens [update_stored_schema], with its handler for a
    store that is not there yet. *)
Lemma stored_hash_lookup (w : World) :
  exists r,
    try_except (get_stored_schema_by_hash self hash)
      (fun e => bool_decide (e = DestinationUndefinedEntity))
      (fun _ => mret None) w
    = (r, w)
    /\ (version_records self hash w = [] -> r = Ok None)
    /\ (version_records self hash w <> [] ->
        (exists info, r = Ok (Some info))
        \/ r = Raise DestinationTerminalException).
Proof.
  unfold version_records, get_stored_schema_by_hash, try_except,
    lancedb_error. fold fq_version.
  destruct (tables w !! fq_version) as [t|] eqn:Ht.
  - destruct (decide
                (List.filter
                   (fun r => bool_decide
                               (dict_get r (normalize_identifier (schema self)
                                              "version_hash")
                                = Some (VStr hash)))
                   (tbl_rows t) = [])) as [Hnil|Hne].
    + destruct (most_recent_schema_where_latest self
                  (normalize_identifier (schema self) "version_hash")
                  hash t w Ht) as (Hw & Hnone & _).
      specialize (Hnone Hnil).
      destruct (most_recent_schema_where self _ hash w) as [r0 w0].
      simpl in *. subst r0 w0. exists (Ok None). by split.
    + destruct (most_recent_schema_where_found self
                  (normalize_identifier (schema self) "version_hash")
                  hash t w Ht Hne) as (r0 & -> & Hr0).
      destruct Hr0 as [[info ->] | [-> | ->]]; simpl; eexists;
        (split; [done|]); (split; [done|]); intros _;
        [left; by eexists | by right | by right].
  - unfold most_recent_schema_where.
    rewrite M_bind_unfold, open_table_unfold. fold fq_version.
    rewrite Ht. simpl. exists (Ok None). by split.
Qed.

(** [update_stored_schema], one case per outcome of that lookup. *)
Lemma update_stored_schema_unfold
    (only_tables : option (list string)) (now : Z) (w : World) :
  update_stored_schema self only_tables now w
  = lancedb_error
      (fun w =>
         match base_update_stored_schema self only_tables with
         | Raise e => (Raise e, w)
         | Ok _ =>
             match try_except (get_stored_schema_by_hash self hash)
                     (fun e => bool_decide (e = DestinationUndefinedEntity))
                     (fun _ => mret None) w with
             | (Ok (Some _), w') => (Ok [], w')
             | (Ok None, w') =>
                 match _execute_schema_update self only_tables now w' with
                 | (Ok _, w'') => (Ok [], w'')
                 | (Raise e, w'') => (Raise e, w'')
                 end
             | (Raise e, w') => (Raise e, w')
             end
         end) w.
Proof.
  unfold update_stored_schema, lancedb_error.
  match goal with
  | |- match ?a with _ => _ end = match ?b with _ => _ end =>
      replace a with b; [reflexivity | symmetry]
  end.
  rewrite M_bind_unfold. unfold lift.
  destruct (base_update_stored_schema self only_tables) as [[]|e]; [|done].
  cbv zeta. rewrite M_bind_unfold. fold hash.
  destruct (try_except (get_stored_schema_by_hash self hash) _ _ w)
    as [[[info|]|e] w'].
  - reflexivity.
  - rewrite M_bind_unfold.
    by destruct (_execute_schema_update self only_tables now w')
      as [[[]|e] w''].
  - reflexivity.
Qed.

(** With a record of the hash in storage, nothing is changed and no
    record is written. *)
Lemma update_stored_schema_noop
    (only_tables : option (list string)) (now : Z) (w : World) :
  version_records self hash w <> [] ->
  snd (update_stored_schema self only_tables now w) = w.
Proof.
  intros Hne. rewrite update_stored_schema_unfold, lancedb_error_world.
  destruct (base_update_stored_schema self only_tables); [|done].
  destruct (stored_hash_lookup w) as (r & -> & _ & Hfound).
  by destruct (Hfound Hne) as [[info ->] | ->].
Qed.

End IdempotentFacts.

Lemma filter_eq_nil {A : Type} (P : A -> bool) (l : list A) :
  List.filter P l = [] <-> forall x, x ∈ l -> P x = false.
Proof.
  induction l as [|a l IH]; simpl.
  - split; [|done]. intros _ x Hx. by apply elem_of_nil in Hx.
  - destruct (P a) eqn:Ha.
    + split; [discriminate|]. intros Hall.
      specialize (Hall a ltac:(by left)). congruence.
    + rewrite IH. split.
      * intros Hall x Hx. apply elem_of_cons in Hx as [-> | Hx]; auto.
      * intros Hall x Hx. apply Hall. by right.
Qed.

Lemma dict_get_app {K V : Type} `{EqDecision K}
    (a b : list (K * V)) (k : K) :
  dict_get (a ++ b) k
  = match dict_get a k with
    | Some v => Some v
    | None => dict_get b k
    end.
Proof.
  induction a as [|[k' v'] a IH]; simpl; [done|].
  by destruct (decide (k' = k)).
Qed.

Lemma dict_get_nulls {A : Type}
    (new_fields : list (string * A)) (k : string) (v : Value) :
  dict_get (map (fun kv => (fst kv, VNull)) new_fields) k = Some v ->
  v = VNull.
Proof.
  induction new_fields as [|kv new_fields IH]; simpl; [discriminate|].
  destruct (decide (fst kv = k)); [congruence | done].
Qed.

Section HashAbsentFacts.
Context `{Externals}.
Variable self : LanceDBClientState.
Variable hash : string.
Let fq_version :=
  make_qualified_table_name self (version_table_name (schema self)).

Lemma keeps_hash_absent_refl (w : World) : keeps_hash_absent self hash w w.
Proof. by intros ?. Qed.

Lemma keeps_hash_absent_trans (a b c : World) :
  keeps_hash_absent self hash a b -> keeps_hash_absent self hash b c ->
  keeps_hash_absent self hash a c.
Proof. unfold keeps_hash_absent. auto. Qed.

Lemma version_records_set_table
    (w : World) (name : string) (t : LanceTable)
    (sent : list (string * Operation)) :
  version_records self hash (set_table w name t sent)
  = if decide (name = fq_version)
    then List.filter
           (fun r => bool_decide
                       (dict_get r (normalize_identifier (schema self)
                                      "version_hash")
                        = Some (VStr hash)))
           (tbl_rows t)
    else version_records self hash w.
Proof.
  unfold version_records. simpl. fold fq_version.
  destruct (decide (name = fq_version)) as [->|Hne].
  - by rewrite lookup_insert_eq.
  - by rewrite lookup_insert_ne.
Qed.

Lemma extend_keeps_hash_absent
    (table_name : string) (field_schemas : list Field) :
  respects (keeps_hash_absent self hash)
    (extend_lancedb_table_schema table_name field_schemas).
Proof.
  intros w.
  destruct (extend_lancedb_table_schema_outcome table_name field_schemas w)
    as [-> | (t & t' & sent & Ht & Hadd & ->)];
    [apply keeps_hash_absent_refl|].
  apply store_add_columns_Some in Hadd as (_ & _ & Hrows & _).
  intros Hnone. rewrite version_records_set_table.
  destruct (decide (table_name = fq_version)) as [->|Hne]; [|done].
  unfold version_records in Hnone. fold fq_version in Hnone.
  rewrite Ht in Hnone. rewrite alter_all_rows, Hrows.
  apply filter_eq_nil. intros r Hr.
  apply list_elem_of_fmap in Hr as (r0 & -> & Hr0).
  rewrite filter_eq_nil in Hnone. specialize (Hnone r0 Hr0).
  apply bool_decide_eq_false in Hnone. apply bool_decide_eq_false.
  rewrite dict_get_app. intros Hget.
  destruct (dict_get r0 _) as [v|] eqn:Hv; [by apply Hnone|].
  by apply dict_get_nulls in Hget.
Qed.

Lemma create_table_keeps_hash_absent
    (table_name : string) (schema : list Field) :
  respects (keeps_hash_absent self hash) (create_table table_name schema).
Proof.
  intros w.
  destruct (create_table_outcome table_name schema w)
    as [-> | [Hnone ->]]; [apply keeps_hash_absent_refl|].
  intros Habsent. rewrite version_records_set_table.
  by destruct (decide (table_name = fq_version)).
Qed.

(** The loop over the tables of [_execute_schema_update] writes no
    schema record. *)
Lemma table_loop_keeps_hash_absent (names : list string) :
  respects (keeps_hash_absent self hash)
    (for_each names
       (fun table_name =>
          '(exists_, existing_columns) ← get_storage_table self table_name;
          new_columns ←
            lift (get_new_table_columns (schema self) table_name
                    existing_columns
                    (generates_case_sensitive_identifiers
                       (capabilities self)));
          if bool_decide (new_columns = []) then mret ()
          else if (exists_ : bool) then
            field_schemas ←
              lift (list_comprehension
                      (fun column =>
                         make_arrow_field_schema self (col_name column)
                           column)
                      new_columns);
            let fq_table_name :=
              make_qualified_table_name self table_name in
            extend_lancedb_table_schema fq_table_name field_schemas
          else
            table_schema ←
              lift (make_arrow_table_schema self table_name
                      (bool_decide
                         (table_name ∉ dlt_table_names (schema self))));
            let fq_table_name :=
              make_qualified_table_name self table_name in
            create_table fq_table_name table_schema)).
Proof.
  apply (respects_for_each _ keeps_hash_absent_refl keeps_hash_absent_trans).
  intros table_name.
  apply (respects_bind _ keeps_hash_absent_trans).
  { apply (respects_readonly _ keeps_hash_absent_refl).
    apply get_storage_table_readonly. }
  intros [exists_ existing_columns].
  apply (respects_bind _ keeps_hash_absent_trans);
    [apply (respects_lift _ keeps_hash_absent_refl)|].
  intros new_columns.
  destruct (bool_decide (new_columns = []));
    [apply (respects_ret _ keeps_hash_absent_refl)|].
  destruct exists_;
    (apply (respects_bind _ keeps_hash_absent_trans);
     [apply (respects_lift _ keeps_hash_absent_refl)|]); intros ?.
  - apply extend_keeps_hash_absent.
  - apply create_table_keeps_hash_absent.
Qed.

End HashAbsentFacts.

Lemma dict_set_fresh {K V : Type} `{EqDecision K}
    (d : list (K * V)) (k : K) (v : V) :
  k ∉ map fst d -> dict_set d k v = d ++ [(k, v)].
Proof.
  induction d as [|[k' v'] d IH]; simpl; [done|].
  intros Hnot. apply not_elem_of_cons in Hnot as [Hne Hnot].
  rewrite decide_False by done. by rewrite IH.
Qed.

Lemma dict_literal_NoDup {K V : Type} `{EqDecision K}
    (items : list (K * V)) :
  NoDup (map fst items) -> dict_literal items = items.
Proof.
  unfold dict_literal.
  assert (Hgen : forall acc,
            NoDup (map fst (acc ++ items)) ->
            foldl (fun d kv => dict_set d (fst kv) (snd kv)) acc items
            = acc ++ items).
  { induction items as [|[k v] items IH]; intros acc Hnodup; simpl.
    - by rewrite app_nil_r.
    - rewrite dict_set_fresh.
      + rewrite IH; rewrite <- app_assoc; done.
      + rewrite map_app in Hnodup. simpl in Hnodup.
        apply NoDup_app in Hnodup as (_ & Hdisj & _).
        intros Hin. apply (Hdisj _ Hin). by left. }
  intros Hnodup. by apply (Hgen []).
Qed.

Lemma dict_get_NoDup {K V : Type} `{EqDecision K}
    (d : list (K * V)) (k : K) (v : V) :
  NoDup (map fst d) -> (k, v) ∈ d -> dict_get d k = Some v.
Proof.
  induction d as [|[k' v'] d IH]; simpl; intros Hnodup Hin.
  - by apply elem_of_nil in Hin.
  - apply NoDup_cons in Hnodup as [Hfresh Hnodup].
    apply elem_of_cons in Hin as [[= -> ->] | Hin].
    + by rewrite decide_True.
    + destruct (decide (k' = k)) as [->|Hne]; [|by apply IH].
      exfalso. apply Hfresh.
      apply (list_elem_of_fmap_2 fst) in Hin. exact Hin.
Qed.

Section WriteFacts.
Context `{Externals}.

(** A write without id field that returns was an append or a
    replacement. *)
Lemma write_records_Ok_inv
    (records : DATA) (table_name : string)
    (write_disposition : option string) (remove_orphans : bool)
    (w w' : World) :
  write_records records table_name write_disposition None remove_orphans w
  = (Ok (), w') ->
  exists t,
    tables w !! table_name = Some t
    /\ ((write_disposition ∈ [Some "append"; Some "skip"]
         /\ w' = set_table w table_name (store_add t records)
                   [(table_name, OpAdd records)])
        \/ (write_disposition = Some "replace"
            /\ w' = set_table w table_name (store_overwrite t records)
                      [(table_name, OpOverwrite records)])).
Proof.
  unfold write_records. rewrite M_bind_unfold. unfold try_except at 1.
  rewrite open_table_unfold.
  destruct (tables w !! table_name) as [t|] eqn:Ht; [|discriminate].
  intros Hrun. exists t. split; [done|]. revert Hrun. unfold try_except.
  destruct (bool_decide (write_disposition ∈ _)) eqn:Happend.
  - apply bool_decide_eq_true in Happend.
    unfold tbl_add. rewrite M_bind_unfold, open_table_unfold, Ht.
    destruct (arrow_valid t records); [|discriminate].
    rewrite commit_unfold. intros [= <-]. by left.
  - destruct (bool_decide (write_disposition = Some "replace")) eqn:Hreplace.
    + apply bool_decide_eq_true in Hreplace.
      unfold tbl_add_overwrite.
      rewrite M_bind_unfold, open_table_unfold, Ht.
      destruct (arrow_valid t records); [|discriminate].
      rewrite commit_unfold. intros [= <-]. by right.
    + destruct (bool_decide (write_disposition = Some "merge"));
        simpl; discriminate.
Qed.

End WriteFacts.

Section IdempotentTheorem.
Context `{Externals}.
Variable self : LanceDBClientState.
Let hash := stored_version_hash (schema self).
Let n := normalize_identifier (schema self).
Let fq_version :=
  make_qualified_table_name self (version_table_name (schema self)).

Lemma stored_schema_record_keys (now : Z) :
  map fst (stored_schema_record self now) = map n version_columns.
Proof. reflexivity. Qed.

Lemma stored_schema_record_ok (now : Z) :
  NoDup (map n version_columns) ->
  version_row_ok n (stored_schema_record self now)
  /\ dict_get (stored_schema_record self now) (n "version_hash")
     = Some (VStr hash).
Proof.
  intros Hnodup. rewrite <- (stored_schema_record_keys now) in Hnodup.
  assert (Hget : forall k v,
            (k, v) ∈ stored_schema_record self now ->
            dict_get (stored_schema_record self now) k = Some v)
    by (intros k v; by apply dict_get_NoDup).
  unfold version_row_ok. fold n.
  repeat split;
    try (eexists; apply Hget; unfold stored_schema_record; fold n;
         rewrite !elem_of_cons; auto 10).
  apply Hget. unfold stored_schema_record. fold n hash.
  rewrite !elem_of_cons. auto 10.
Qed.

(** The record that [update_schema_in_storage] writes, and where. *)
Lemma update_schema_in_storage_Ok_inv (now : Z) (w w' : World) :
  NoDup (map n version_columns) ->
  update_schema_in_storage self now w = (Ok (), w') ->
  exists t t' sent,
    tables w !! fq_version = Some t
    /\ w' = set_table w fq_version t' sent
    /\ (tbl_rows t' = tbl_rows t ++ [stored_schema_record self now]
        \/ tbl_rows t' = [stored_schema_record self now]).
Proof.
  intros Hnodup Hrun. unfold update_schema_in_storage in Hrun.
  apply lancedb_error_Ok_inv in Hrun. cbv zeta in Hrun.
  apply M_bind_Ok_inv in Hrun as (vt & w0 & Hvt & Hwrite).
  unfold lift in Hvt. injection Hvt as _ <-.
  rewrite dict_literal_NoDup in Hwrite by exact Hnodup.
  apply write_records_Ok_inv in Hwrite as (t & Ht & Hcase).
  exists t. destruct Hcase as [[_ ->] | [_ ->]]; eexists _, _;
    (split; [exact Ht|]); (split; [reflexivity|]); simpl; auto.
Qed.

(** C2.  Schema upgrade is idempotent.  When storage holds a schema
    record with the version hash of the current schema,
    [update_stored_schema] changes nothing in the store and writes no
    record.  Hence, starting without such a record, a first upgrade
    that returns leaves exactly one record of that hash, and a second
    upgrade with the same schema returns and leaves the store as the
    first one left it.  (The naming convention is taken to keep the six
    column names of the version table apart.) *)
Theorem update_stored_schema_idempotent
    (only_tables : option (list string)) (now : Z) (w : World) :
  (version_records self hash w <> [] ->
   snd (update_stored_schema self only_tables now w) = w)
  /\ (forall applied w1 now2,
        NoDup (map n version_columns) ->
        version_records self hash w = [] ->
        update_stored_schema self only_tables now w = (Ok applied, w1) ->
        version_records self hash w1 = [stored_schema_record self now]
        /\ update_stored_schema self only_tables now2 w1 = (Ok [], w1)).
Proof.
  split; [apply update_stored_schema_noop|].
  intros applied w1 now2 Hnodup Habsent Hrun.
  rewrite update_stored_schema_unfold in Hrun.
  apply lancedb_error_Ok_inv in Hrun. fold hash in Hrun.
  destruct (base_update_stored_schema self only_tables) as [[]|]
    eqn:Hbase; [|discriminate].
  destruct (stored_hash_lookup self w) as (r & Hlookup & Hnone & _).
  fold hash in Hlookup, Hnone.
  rewrite Hlookup, (Hnone Habsent) in Hrun.
  destruct (_execute_schema_update self only_tables now w) as [[[]|e] w1']
    eqn:Hexec; [|discriminate].
  injection Hrun as <- <-.
  unfold _execute_schema_update in Hexec.
  apply M_bind_Ok_inv in Hexec as ([] & wm & Hloop & Hstore).
  assert (Hkeep : version_records self hash wm = []).
  { pose proof (f_equal snd Hloop) as Hwm. simpl in Hwm. rewrite <- Hwm.
    by apply (table_loop_keeps_hash_absent self hash). }
  destruct (update_schema_in_storage_Ok_inv now wm w1' Hnodup Hstore)
    as (t & t' & sent & Ht & -> & Hrows).
  destruct (stored_schema_record_ok now Hnodup) as [Hok Hhash].
  assert (Hrecords :
    version_records self hash (set_table wm fq_version t' sent)
    = [stored_schema_record self now]).
  { rewrite version_records_set_table. fold fq_version.
    rewrite decide_True by done.
    unfold version_records in Hkeep. fold fq_version in Hkeep.
    rewrite Ht in Hkeep. fold n.
    destruct Hrows as [-> | ->].
    - rewrite List.filter_app.
      match goal with
      | |- ?a ++ ?b = _ =>
          transitivity ([] ++ b); [f_equal; exact Hkeep|]
      end.
      simpl. by rewrite bool_decide_eq_true_2.
    - simpl. by rewrite bool_decide_eq_true_2. }
  split; [exact Hrecords|].
  set (w1 := set_table wm fq_version t' sent) in *.
  rewrite update_stored_schema_unfold. fold hash. rewrite Hbase.
  assert (Ht' : tables w1 !! fq_version = Some t')
    by (unfold w1; simpl; apply lookup_insert_eq).
  destruct (most_recent_schema_where_latest self (n "version_hash") hash
              t' w1 Ht') as (Hw & _ & Hsome).
  assert (Hcand :
    List.filter
      (fun r => bool_decide (dict_get r (n "version_hash") = Some (VStr hash)))
      (tbl_rows t')
    = [stored_schema_record self now]).
  { unfold version_records in Hrecords. fold fq_version in Hrecords.
    by rewrite Ht' in Hrecords. }
  cbv zeta in Hsome. rewrite Hcand in Hsome.
  destruct Hsome as (r0 & info & _ & _ & Hres);
    [done | by constructor |].
  unfold lancedb_error, try_except, get_stored_schema_by_hash, lancedb_error.
  fold n.
  destruct (most_recent_schema_where self (n "version_hash") hash w1)
    as [res w2]. simpl in Hw, Hres. subst res w2. reflexivity.
Qed.

End IdempotentTheorem.

Lemma update_stored_schema_idempotent_witness :
  snd (update_stored_schema sample_client None 60 versions_world)
  = versions_world
  /\ version_records sample_client "H1"
       (snd (update_stored_schema sample_client None 40 evolving_world))
     = [stored_schema_record sample_client 40]
  /\ update_stored_schema sample_client None 50
       (snd (update_stored_schema sample_client None 40 evolving_world))
     = (Ok [],
        snd (update_stored_schema sample_client None 40 evolving_world)).
Proof.
  split.
  - apply (proj1 (update_stored_schema_idempotent sample_client None 60
                    versions_world)).
    vm_compute. discriminate.
  - apply (proj2 (update_stored_schema_idempotent sample_client None 40
                    evolving_world) [] _ 50).
    + apply (bool_decide_unpack _). vm_compute. exact I.
    + reflexivity.
    + vm_compute. reflexivity.
Defined.

(** Two upgrades in a row on the sample store: one schema record, and
    the second upgrade sends nothing to the store. *)
Example update_twice_requests :
  length
    (requests
       (snd (update_stored_schema sample_client None 50
               (snd (update_stored_schema sample_client None 40
                       evolving_world)))))
  = length
      (requests
         (snd (update_stored_schema sample_client None 40 evolving_world))).
Proof. vm_compute. reflexivity. Qed.

(* ===================================================================== *)
(** * Properties: Python strings *)
(* ===================================================================== *)

Lemma string_app_cons (x : ascii) (a b : string) :
  String x a +:+ b = String x (a +:+ b).
Proof. reflexivity. Qed.

Lemma string_app_nil_l (b : string) : "" +:+ b = b.
Proof. reflexivity. Qed.

Lemma string_app_assoc (a b c : string) : (a +:+ b) +:+ c = a +:+ (b +:+ c).
Proof.
  induction a as [|x a IH]; [done|].
  by rewrite !string_app_cons, IH.
Qed.

Lemma string_app_nil_r (a : string) : a +:+ "" = a.
Proof.
  induction a as [|x a IH]; [done|]. by rewrite string_app_cons, IH.
Qed.

Lemma append_char_app (a b : string) (c : ascii) :
  append_char (a +:+ b) c = a +:+ append_char b c.
Proof. unfold append_char. apply string_app_assoc. Qed.

Lemma for_char_app {S : Type} (body : S -> ascii -> S) (a b : string) (st : S) :
  for_char body (a +:+ b) st = for_char body b (for_char body a st).
Proof.
  revert st. induction a as [|x a IH]; intros st; [done|].
  rewrite string_app_cons. simpl. apply IH.
Qed.

Lemma rstrip_chars_last (p : ascii -> bool) (s : string) (c : ascii) :
  p c = false -> rstrip_chars p (s +:+ String c "") = s +:+ String c "".
Proof.
  intros Hc. induction s as [|x s IH].
  - rewrite string_app_nil_l. simpl. by rewrite Hc.
  - rewrite string_app_cons. simpl. rewrite IH.
    destruct s; by rewrite ?string_app_nil_l, ?string_app_cons.
Qed.

Lemma rstrip_chars_drop (p : ascii -> bool) (s : string) (c : ascii) :
  p c = true -> rstrip_chars p (s +:+ String c "") = rstrip_chars p s.
Proof.
  intros Hc. induction s as [|x s IH].
  - rewrite string_app_nil_l. simpl. by rewrite Hc.
  - rewrite string_app_cons. simpl. by rewrite IH.
Qed.

Lemma substring_all (s t : string) : substring 0 (String.length s) (s +:+ t) = s.
Proof.
  induction s as [|x s IH].
  - rewrite string_app_nil_l. by destruct t.
  - rewrite string_app_cons. simpl. by rewrite IH.
Qed.

Lemma string_length_app (s t : string) :
  String.length (s +:+ t) = (String.length s + String.length t)%nat.
Proof.
  induction s as [|x s IH]; [done|].
  rewrite string_app_cons. simpl. by rewrite IH.
Qed.

Lemma startswith_empty (s : string) : startswith s "" = true.
Proof. by destruct s. Qed.

Lemma endswith_app (p suffix : string) : endswith (p +:+ suffix) suffix = true.
Proof. apply endswith_spec. by exists p. Qed.

(* ===================================================================== *)
(** * Properties: text of an insert_values fragment *)
(* ===================================================================== *)

(** A text that neither starts nor ends with white space or the
    parenthesis of its side is left as it is by [_clean_value]. *)
Lemma _clean_value_fixed (c d : ascii) (s : string) :
  is_space c = false -> is_char "(" c = false ->
  is_space d = false -> is_char ")" d = false ->
  PostgresInsertValuesWithGeometryTypesLoadJob._clean_value (String c (s +:+ String d ""))
  = String c (s +:+ String d "").
Proof.
  intros Hc1 Hc2 Hd1 Hd2. unfold PostgresInsertValuesWithGeometryTypesLoadJob._clean_value, strip.
  change (String c (s +:+ String d "")) with (String c s +:+ String d "").
  rewrite (rstrip_chars_last is_space) by done.
  simpl lstrip_chars at 2. rewrite Hc1.
  simpl lstrip_chars at 2. rewrite Hc2.
  change (String c (s +:+ String d "")) with (String c s +:+ String d "").
  rewrite (rstrip_chars_last (is_char ")")) by done.
  rewrite (rstrip_chars_last is_space) by done.
  simpl. by rewrite Hc1.
Qed.

Lemma _parse_value_quoted (s : string) :
  PostgresInsertValuesWithGeometryTypesLoadJob._parse_value ("'" +:+ s +:+ "'") = s.
Proof.
  assert (Hlen : (1 + String.length (s +:+ "'") - 2)%nat = String.length s).
  { rewrite string_length_app. simpl. lia. }
  unfold PostgresInsertValuesWithGeometryTypesLoadJob._parse_value.
  change ("'" +:+ s +:+ "'") with (String "'" (s +:+ String "'" "")).
  rewrite _clean_value_fixed by done.
  assert (He : endswith (String "'" (s +:+ "'")) "'" = true).
  { apply endswith_spec. by exists (String "'" s). }
  rewrite He. rewrite !bool_decide_eq_false_2 by discriminate.
  change (startswith (String "'" (s +:+ "'")) "E'") with false.
  change (startswith (String "'" (s +:+ "'")) "'")
    with (startswith (s +:+ "'") "").
  rewrite startswith_empty.
  change (substring 0 (1 + String.length (s +:+ "'") - 2) (s +:+ "'") = s).
  rewrite Hlen. apply substring_all.
Qed.

Lemma _parse_value_escape_quoted (s : string) :
  PostgresInsertValuesWithGeometryTypesLoadJob._parse_value ("E'" +:+ s +:+ "'") = s.
Proof.
  assert (Hlen : (2 + String.length (s +:+ "'") - 3)%nat = String.length s).
  { rewrite string_length_app. simpl. lia. }
  unfold PostgresInsertValuesWithGeometryTypesLoadJob._parse_value.
  change ("E'" +:+ s +:+ "'")
    with (String "E" (String "'" s +:+ String "'" "")).
  rewrite _clean_value_fixed by done.
  assert (He : endswith (String "E" (String "'" s +:+ "'")) "'" = true).
  { apply endswith_spec. by exists (String "E" (String "'" s)). }
  rewrite He. rewrite !bool_decide_eq_false_2 by discriminate.
  change (startswith (String "E" (String "'" s +:+ "'")) "E'")
    with (startswith (s +:+ "'") "").
  rewrite startswith_empty.
  change (substring 0 (2 + String.length (s +:+ "'") - 3) (s +:+ "'") = s).
  rewrite Hlen. apply substring_all.
Qed.

(** X1.  [_parse_value] takes the quotation marks off a quoted text,
    whatever is between them, and it does so for the escape-string form
    [E'...'] too, whose prefix is thus lost. *)
Theorem parse_value_unquotes (s : string) :
  PostgresInsertValuesWithGeometryTypesLoadJob._parse_value ("'" +:+ s +:+ "'") = s
  /\ PostgresInsertValuesWithGeometryTypesLoadJob._parse_value ("E'" +:+ s +:+ "'") = s.
Proof.
  split; [apply _parse_value_quoted | apply _parse_value_escape_quoted].
Qed.

Lemma strip_fixed (c d : ascii) (s : string) :
  is_space c = false -> is_space d = false ->
  strip (String c (s +:+ String d "")) = String c (s +:+ String d "").
Proof.
  intros Hc Hd. unfold strip.
  change (String c (s +:+ String d "")) with (String c s +:+ String d "").
  rewrite (rstrip_chars_last is_space) by done.
  rewrite string_app_cons. simpl. by rewrite Hc.
Qed.

Lemma fragment_step_quote (R : list string) (cur : string) (n : Z) (q : bool) :
  PostgresInsertValuesWithGeometryTypesLoadJob.fragment_step
    (PostgresInsertValuesWithGeometryTypesLoadJob.Build_FragmentState R cur n q false) "'"
  = PostgresInsertValuesWithGeometryTypesLoadJob.Build_FragmentState R (append_char cur "'") n
      (negb q) false.
Proof. reflexivity. Qed.

Lemma fragment_step_inside (R : list string) (cur : string) (q : bool)
    (c : ascii) :
  c <> "\"%char -> c <> "'"%char ->
  (bool_decide (c ∈ ["("; ")"]%char) && negb q = false) ->
  PostgresInsertValuesWithGeometryTypesLoadJob.fragment_step
    (PostgresInsertValuesWithGeometryTypesLoadJob.Build_FragmentState R cur 1 q false) c
  = PostgresInsertValuesWithGeometryTypesLoadJob.Build_FragmentState R (append_char cur c) 1 q false.
Proof.
  intros H1 H2 H3. unfold PostgresInsertValuesWithGeometryTypesLoadJob.fragment_step. simpl.
  rewrite !bool_decide_eq_false_2 with (P := c = "\"%char) by done.
  rewrite !bool_decide_eq_false_2 with (P := c = "'"%char) by done.
  simpl.
  destruct q; simpl in *.
  - by rewrite !andb_false_r.
  - rewrite andb_true_r in H3. apply bool_decide_eq_false in H3.
    rewrite !bool_decide_eq_false_2; [done| |].
    + intros ->. apply H3. set_solver.
    + intros ->. apply H3. set_solver.
Qed.

Lemma fragment_step_outside (R : list string) (c : ascii) :
  c ∉ ["\"; "'"; "("; ")"]%char ->
  PostgresInsertValuesWithGeometryTypesLoadJob.fragment_step
    (PostgresInsertValuesWithGeometryTypesLoadJob.Build_FragmentState R "" 0 false false) c
  = PostgresInsertValuesWithGeometryTypesLoadJob.Build_FragmentState R "" 0 false false.
Proof.
  intros Hc. unfold PostgresInsertValuesWithGeometryTypesLoadJob.fragment_step. simpl.
  rewrite !bool_decide_eq_false_2; [done|..]; intros ->; apply Hc; set_solver.
Qed.

(** Inside the parentheses of a record, a text with paired quotation
    marks is gathered as it is. *)
Lemma fragment_record_body (r : string) :
  forall (q : bool) (cur : string) (R : list string),
    quotes_paired q r = true ->
    for_char PostgresInsertValuesWithGeometryTypesLoadJob.fragment_step r
      (PostgresInsertValuesWithGeometryTypesLoadJob.Build_FragmentState R cur 1 q false)
    = PostgresInsertValuesWithGeometryTypesLoadJob.Build_FragmentState R (cur +:+ r) 1 false false.
Proof.
  induction r as [|c r IH]; intros q cur R H; simpl in H.
  - destruct q; [done|]. simpl. by rewrite string_app_nil_r.
  - simpl for_char.
    destruct (bool_decide (c = "\"%char)) eqn:E1; [done|].
    apply bool_decide_eq_false in E1.
    destruct (bool_decide (c = "'"%char)) eqn:E2.
    + apply bool_decide_eq_true in E2. subst c.
      rewrite fragment_step_quote, IH by done.
      unfold append_char. by rewrite string_app_assoc.
    + apply bool_decide_eq_false in E2.
      destruct (bool_decide (c ∈ ["("; ")"]%char) && negb q) eqn:E3; [done|].
      rewrite fragment_step_inside, IH by done.
      unfold append_char. by rewrite string_app_assoc.
Qed.

Lemma fragment_one_record (r : string) (R : list string) :
  quotes_paired false r = true ->
  for_char PostgresInsertValuesWithGeometryTypesLoadJob.fragment_step (in_parentheses r)
    (PostgresInsertValuesWithGeometryTypesLoadJob.Build_FragmentState R "" 0 false false)
  = PostgresInsertValuesWithGeometryTypesLoadJob.Build_FragmentState (R ++ [r]) "" 0 false false.
Proof.
  intros H. unfold in_parentheses.
  change ("(" +:+ r +:+ ")") with (String "(" (r +:+ ")")).
  simpl for_char. rewrite for_char_app.
  change (PostgresInsertValuesWithGeometryTypesLoadJob.fragment_step
            (PostgresInsertValuesWithGeometryTypesLoadJob.Build_FragmentState R "" 0 false false) "(")
    with (PostgresInsertValuesWithGeometryTypesLoadJob.Build_FragmentState R "" 1 false false).
  rewrite fragment_record_body by done. reflexivity.
Qed.

Lemma fragment_all_records (rs : list string) :
  forall R,
    Forall (fun r => quotes_paired false r = true) rs ->
    for_char PostgresInsertValuesWithGeometryTypesLoadJob.fragment_step
      (String.concat ("," +:+ newline) (map in_parentheses rs))
      (PostgresInsertValuesWithGeometryTypesLoadJob.Build_FragmentState R "" 0 false false)
    = PostgresInsertValuesWithGeometryTypesLoadJob.Build_FragmentState (R ++ rs) "" 0 false false.
Proof.
  induction rs as [|r rs IH]; intros R Hrs.
  - simpl. by rewrite app_nil_r.
  - inversion Hrs as [|? ? Hr Hrs']; subst.
    destruct rs as [|r' rs].
    + simpl. by apply fragment_one_record.
    + change (String.concat ("," +:+ newline)
                (map in_parentheses (r :: r' :: rs)))
        with (in_parentheses r +:+ ("," +:+ newline)
              +:+ String.concat ("," +:+ newline)
                    (map in_parentheses (r' :: rs))).
      rewrite !for_char_app, fragment_one_record by done.
      change (for_char PostgresInsertValuesWithGeometryTypesLoadJob.fragment_step newline
                (for_char PostgresInsertValuesWithGeometryTypesLoadJob.fragment_step ","
                   (PostgresInsertValuesWithGeometryTypesLoadJob.Build_FragmentState (R ++ [r]) "" 0
                      false false)))
        with (PostgresInsertValuesWithGeometryTypesLoadJob.Build_FragmentState (R ++ [r]) "" 0
                false false).
      rewrite IH by done. by rewrite <- app_assoc.
Qed.

Lemma in_parentheses_concat (rs : list string) :
  rs <> [] ->
  exists m, String.concat ("," +:+ newline) (map in_parentheses rs)
            = String "(" (m +:+ String ")" "").
Proof.
  induction rs as [|r rs IH]; [done|]. intros _.
  destruct rs as [|r' rs].
  - exists r. reflexivity.
  - destruct IH as [m Hm]; [done|].
    change (String.concat ("," +:+ newline)
              (map in_parentheses (r :: r' :: rs)))
      with (in_parentheses r +:+ ("," +:+ newline)
            +:+ String.concat ("," +:+ newline)
                  (map in_parentheses (r' :: rs))).
    rewrite Hm. unfold in_parentheses.
    exists (r +:+ ")" +:+ ("," +:+ newline) +:+ String "(" m).
    change ("(" +:+ r +:+ ")") with (String "(" (r +:+ ")")).
    rewrite string_app_cons. f_equal.
    rewrite !string_app_assoc. f_equal.
Qed.

Lemma _split_fragment_to_records_plain (records : list string) :
  Forall (fun record => quotes_paired false record = true) records ->
  PostgresInsertValuesWithGeometryTypesLoadJob._split_fragment_to_records (fragment_of records)
  = records.
Proof.
  intros Hrs. unfold PostgresInsertValuesWithGeometryTypesLoadJob._split_fragment_to_records,
    fragment_of.
  destruct (decide (records = [])) as [->|Hne]; [reflexivity|].
  destruct (in_parentheses_concat records Hne) as [m Hm].
  pose proof (fragment_all_records records [] Hrs) as Hall.
  rewrite Hm in Hall |- *.
  change (String "(" (m +:+ String ")" "") +:+ ";")
    with (String "(" ((m +:+ String ")" "") +:+ String ";" "")).
  rewrite strip_fixed by done.
  change (String "(" ((m +:+ String ")" "") +:+ String ";" ""))
    with (String "(" (m +:+ String ")" "") +:+ String ";" "").
  rewrite rstrip_chars_drop by done.
  change (String "(" (m +:+ String ")" ""))
    with (String "(" m +:+ String ")" "") at 1.
  rewrite rstrip_chars_last by done.
  rewrite string_app_cons, strip_fixed by done.
  exact (f_equal PostgresInsertValuesWithGeometryTypesLoadJob.fs_records Hall).
Qed.

(** X2.  [_split_fragment_to_records] undoes the way [_insert] writes a
    fragment: records in parentheses, joined by a comma and a line
    break and closed by a semicolon, are got back one by one, provided
    each has no backslash, its quotation marks in pairs and no
    parenthesis outside them. *)
Theorem split_fragment_to_records_round_trip (records : list string) :
  Forall (fun record => quotes_paired false record = true) records ->
  PostgresInsertValuesWithGeometryTypesLoadJob._split_fragment_to_records (fragment_of records)
  = records.
Proof. apply _split_fragment_to_records_plain. Qed.

Lemma split_fragment_to_records_round_trip_witness :
  PostgresInsertValuesWithGeometryTypesLoadJob._split_fragment_to_records
    (fragment_of ["1,'a (b)',NULL"; "'x, y'"])
  = ["1,'a (b)',NULL"; "'x, y'"].
Proof.
  apply (split_fragment_to_records_round_trip ["1,'a (b)',NULL"; "'x, y'"]).
  repeat constructor.
Defined.

Lemma datum_step_inside (V : list string) (cur : string) (c : ascii) :
  c ∉ ["\"; "'"; "["; "]"]%char ->
  PostgresInsertValuesWithGeometryTypesLoadJob.datum_step
    (PostgresInsertValuesWithGeometryTypesLoadJob.Build_DatumState V cur 0 true false false) c
  = PostgresInsertValuesWithGeometryTypesLoadJob.Build_DatumState V (append_char cur c) 0 true false
      false.
Proof.
  intros Hc. unfold PostgresInsertValuesWithGeometryTypesLoadJob.datum_step. simpl.
  rewrite !andb_false_r.
  rewrite !bool_decide_eq_false_2; [done|..]; intros ->; apply Hc; set_solver.
Qed.

Lemma datum_quoted_body (d : string) :
  free_of ["\"; "'"; "["; "]"]%char d = true ->
  forall V cur,
    for_char PostgresInsertValuesWithGeometryTypesLoadJob.datum_step d
      (PostgresInsertValuesWithGeometryTypesLoadJob.Build_DatumState V cur 0 true false false)
    = PostgresInsertValuesWithGeometryTypesLoadJob.Build_DatumState V (cur +:+ d) 0 true false false.
Proof.
  induction d as [|c d IH]; intros H V cur.
  - simpl. by rewrite string_app_nil_r.
  - simpl in H. apply andb_true_iff in H as [Hc Hd].
    apply negb_true_iff, bool_decide_eq_false in Hc.
    simpl for_char. rewrite datum_step_inside, IH by done.
    unfold append_char. by rewrite string_app_assoc.
Qed.

Lemma datum_quoted (d : string) (V : list string) :
  free_of ["\"; "'"; "["; "]"]%char d = true ->
  for_char PostgresInsertValuesWithGeometryTypesLoadJob.datum_step (quoted d)
    (PostgresInsertValuesWithGeometryTypesLoadJob.Build_DatumState V "" 0 false false false)
  = PostgresInsertValuesWithGeometryTypesLoadJob.Build_DatumState V (quoted d) 0 false false false.
Proof.
  intros H. unfold quoted.
  change ("'" +:+ d +:+ "'") with (String "'" (d +:+ "'")).
  simpl for_char. rewrite for_char_app.
  change (PostgresInsertValuesWithGeometryTypesLoadJob.datum_step
            (PostgresInsertValuesWithGeometryTypesLoadJob.Build_DatumState V "" 0 false false false)
            "'")
    with (PostgresInsertValuesWithGeometryTypesLoadJob.Build_DatumState V "'" 0 true false false).
  rewrite datum_quoted_body by done. reflexivity.
Qed.

Lemma last_cons_default {A : Type} (l : list A) (x d d' : A) :
  List.last (x :: l) d = List.last (x :: l) d'.
Proof.
  revert x. induction l as [|y l IH]; intros x; [done|].
  change (List.last (y :: l) d = List.last (y :: l) d'). apply IH.
Qed.

Lemma datum_all_quoted (ds : list string) :
  forall d V,
    Forall (fun d => free_of ["\"; "'"; "["; "]"]%char d = true) (d :: ds) ->
    for_char PostgresInsertValuesWithGeometryTypesLoadJob.datum_step
      (String.concat "," (map quoted (d :: ds)))
      (PostgresInsertValuesWithGeometryTypesLoadJob.Build_DatumState V "" 0 false false false)
    = PostgresInsertValuesWithGeometryTypesLoadJob.Build_DatumState (V ++ removelast (d :: ds))
        (quoted (List.last ds d)) 0 false false false.
Proof.
  induction ds as [|d' ds IH]; intros d V Hds;
    inversion Hds as [|? ? Hd Hds']; subst.
  - simpl String.concat. rewrite datum_quoted by done.
    simpl. by rewrite app_nil_r.
  - change (String.concat "," (map quoted (d :: d' :: ds)))
      with (quoted d +:+ ","
            +:+ String.concat "," (map quoted (d' :: ds))).
    rewrite !for_char_app, datum_quoted by done.
    change (for_char PostgresInsertValuesWithGeometryTypesLoadJob.datum_step ","
              (PostgresInsertValuesWithGeometryTypesLoadJob.Build_DatumState V (quoted d) 0 false
                 false false))
      with (PostgresInsertValuesWithGeometryTypesLoadJob.Build_DatumState
              (V ++ [PostgresInsertValuesWithGeometryTypesLoadJob._parse_value (quoted d)]) "" 0
              false false false).
    rewrite IH by done.
    unfold quoted at 1. rewrite _parse_value_quoted.
    rewrite <- app_assoc. do 2 f_equal.
    destruct ds as [|x l]; [done|].
    change (List.last (x :: l) d' = List.last (x :: l) d).
    apply last_cons_default.
Qed.

Lemma _split_record_to_datums_plain (datums : list string) :
  Forall (fun datum => free_of ["\"; "'"; "["; "]"]%char datum = true)
    datums ->
  PostgresInsertValuesWithGeometryTypesLoadJob._split_record_to_datums
    (String.concat "," (map quoted datums))
  = datums.
Proof.
  intros Hds. destruct datums as [|d ds]; [reflexivity|].
  unfold PostgresInsertValuesWithGeometryTypesLoadJob._split_record_to_datums.
  unfold PostgresInsertValuesWithGeometryTypesLoadJob.datum_start.
  rewrite datum_all_quoted by done.
  cbv zeta. cbn [PostgresInsertValuesWithGeometryTypesLoadJob.ds_current
                 PostgresInsertValuesWithGeometryTypesLoadJob.ds_values].
  rewrite bool_decide_eq_false_2 by done.
  unfold quoted at 1. rewrite _parse_value_quoted.
  change ([] ++ removelast (d :: ds) ++ [List.last ds d])
    with (removelast (d :: ds) ++ [List.last ds d]).
  destruct ds as [|x l]; [done|].
  rewrite (last_cons_default l x d x).
  change (d :: (removelast (x :: l) ++ [List.last (x :: l) x]) = d :: x :: l).
  f_equal. symmetry. by apply app_removelast_last.
Qed.

Lemma quotes_paired_app (a b : string) :
  forall q,
    quotes_paired q a = true -> quotes_paired false b = true ->
    quotes_paired q (a +:+ b) = true.
Proof.
  induction a as [|c a IH]; intros q Ha Hb.
  - destruct q; [done|]. by rewrite string_app_nil_l.
  - rewrite string_app_cons. simpl in *.
    destruct (bool_decide (c = "\"%char)); [done|].
    destruct (bool_decide (c = "'"%char)); [by apply IH|].
    destruct (bool_decide (c ∈ ["("; ")"]%char) && negb q); [done|].
    by apply IH.
Qed.

Lemma quotes_paired_quoted (d : string) :
  free_of ["\"; "'"; "["; "]"]%char d = true ->
  quotes_paired false (quoted d) = true.
Proof.
  intros H. unfold quoted.
  change ("'" +:+ d +:+ "'") with (String "'" (d +:+ "'")).
  change (quotes_paired true (d +:+ "'") = true).
  induction d as [|c d IH]; [done|].
  simpl in H. apply andb_true_iff in H as [Hc Hd].
  apply negb_true_iff, bool_decide_eq_false in Hc.
  rewrite string_app_cons. simpl.
  rewrite (bool_decide_eq_false_2 (c = "\"%char))
    by (intros ->; apply Hc; set_solver).
  rewrite (bool_decide_eq_false_2 (c = "'"%char))
    by (intros ->; apply Hc; set_solver).
  rewrite andb_false_r. by apply IH.
Qed.

Lemma quotes_paired_record (ds : list string) :
  Forall (fun d => free_of ["\"; "'"; "["; "]"]%char d = true) ds ->
  quotes_paired false (String.concat "," (map quoted ds)) = true.
Proof.
  induction ds as [|d ds IH]; intros Hds; [done|].
  inversion Hds as [|? ? Hd Hds']; subst.
  destruct ds as [|d' ds].
  - by apply quotes_paired_quoted.
  - change (String.concat "," (map quoted (d :: d' :: ds)))
      with (quoted d +:+ ","
            +:+ String.concat "," (map quoted (d' :: ds))).
    apply quotes_paired_app; [by apply quotes_paired_quoted|].
    apply (quotes_paired_app "," _ false); [done | by apply IH].
Qed.

Lemma process_datum_plain (GEOMETRY_HINT : string)
    (_parse_geometry : string -> option string)
    (srid : TColumnSchema -> string)
    (columns : list TColumnSchema) :
  forall ds,
    Forall (fun c => PostgresClient.has_geometry_hint GEOMETRY_HINT c = false)
      columns ->
    length columns = length ds ->
    zip_with (PostgresInsertValuesWithGeometryTypesLoadJob.process_datum GEOMETRY_HINT
                _parse_geometry srid) columns ds
    = map (fun d => ([], d)) ds.
Proof.
  induction columns as [|c columns IH]; intros ds Hc Hlen;
    destruct ds as [|d ds]; try done.
  inversion Hc as [|? ? Hc1 Hc2]; subst. simpl.
  unfold PostgresInsertValuesWithGeometryTypesLoadJob.process_datum at 1. rewrite Hc1.
  f_equal. apply IH; [done|]. simpl in Hlen. lia.
Qed.

Lemma quote_datum_quoted (ds : list string) :
  Forall (fun d => startswith d "ST_" = false /\ d <> "NULL") ds ->
  map PostgresInsertValuesWithGeometryTypesLoadJob.quote_datum ds = map quoted ds.
Proof.
  induction 1 as [|d ds [H1 H2] _ IH]; [done|]. simpl. rewrite IH. f_equal.
  unfold PostgresInsertValuesWithGeometryTypesLoadJob.quote_datum.
  by rewrite H1, bool_decide_eq_false_2.
Qed.

Lemma process_records_plain (GEOMETRY_HINT : string)
    (_parse_geometry : string -> option string)
    (srid : TColumnSchema -> string)
    (columns : list (string * TColumnSchema)) (records : list (list string)) :
  Forall (fun c => PostgresClient.has_geometry_hint GEOMETRY_HINT c = false)
    (map snd columns) ->
  Forall (fun ds =>
            length ds = length columns
            /\ Forall (fun d => free_of ["\"; "'"; "["; "]"]%char d = true) ds)
    records ->
  forall warnings processed_fragment,
    PostgresInsertValuesWithGeometryTypesLoadJob.process_records GEOMETRY_HINT _parse_geometry srid
      columns
      (map (fun ds => String.concat "," (map quoted ds)) records)
      warnings processed_fragment
    = (warnings,
       Returns (processed_fragment
                ++ map (fun ds =>
                          in_parentheses
                            (String.concat ","
                               (map PostgresInsertValuesWithGeometryTypesLoadJob.quote_datum ds)))
                     records)).
Proof.
  intros Hcols. induction 1 as [|ds records (Hlen & Hfree) _ IH];
    intros warnings processed_fragment.
  - simpl. by rewrite app_nil_r.
  - simpl. rewrite _split_record_to_datums_plain by done.
    rewrite bool_decide_eq_true_2 by done.
    rewrite process_datum_plain by (by rewrite ?length_map).
    rewrite (map_map (fun d => ([], d)) fst), (map_map (fun d => ([], d)) snd).
    simpl. rewrite map_id.
    replace (concat (map (fun _ : string => ([] : list string)) ds))
      with ([] : list string) by (clear; induction ds; simpl; auto).
    by rewrite app_nil_r, IH, <- app_assoc.
Qed.

Lemma process_fragment_plain (GEOMETRY_HINT : string)
    (_parse_geometry : string -> option string)
    (srid : TColumnSchema -> string)
    (columns : list (string * TColumnSchema)) (records : list (list string)) :
  Forall (fun c => PostgresClient.has_geometry_hint GEOMETRY_HINT c = false)
    (map snd columns) ->
  Forall (fun ds =>
            length ds = length columns
            /\ Forall (fun d => free_of ["\"; "'"; "["; "]"]%char d = true) ds)
    records ->
  PostgresInsertValuesWithGeometryTypesLoadJob.process_fragment GEOMETRY_HINT _parse_geometry srid
    columns
    (fragment_of (map (fun ds => String.concat "," (map quoted ds)) records))
  = ([],
     Returns
       (fragment_of
          (map (fun ds =>
                  String.concat "," (map PostgresInsertValuesWithGeometryTypesLoadJob.quote_datum ds))
             records))).
Proof.
  intros Hcols Hrecords. unfold PostgresInsertValuesWithGeometryTypesLoadJob.process_fragment.
  rewrite _split_fragment_to_records_plain.
  - rewrite (process_records_plain _ _ _ _ _ Hcols Hrecords).
    unfold fragment_of. by rewrite map_map.
  - apply Forall_map. eapply Forall_impl; [exact Hrecords|].
    intros ds (_ & Hfree). by apply quotes_paired_record.
Qed.

(** X4.  A fragment of quoted datums passes through the rewriting of
    [_insert] unchanged and without a warning when the table has no
    geometry column: every record has one datum per column, and no
    datum holds a quotation mark, backslash or square bracket, is the
    text NULL or starts with [ST_]. *)
Theorem process_fragment_plain_identity (GEOMETRY_HINT : string)
    (_parse_geometry : string -> option string)
    (srid : TColumnSchema -> string)
    (columns : list (string * TColumnSchema)) (records : list (list string)) :
  Forall (fun c => PostgresClient.has_geometry_hint GEOMETRY_HINT c = false)
    (map snd columns) ->
  Forall (fun ds =>
            length ds = length columns
            /\ Forall (fun d => free_of ["\"; "'"; "["; "]"]%char d = true) ds
            /\ Forall (fun d => startswith d "ST_" = false /\ d <> "NULL") ds)
    records ->
  PostgresInsertValuesWithGeometryTypesLoadJob.process_fragment GEOMETRY_HINT _parse_geometry srid
    columns
    (fragment_of (map (fun ds => String.concat "," (map quoted ds)) records))
  = ([],
     Returns
       (fragment_of
          (map (fun ds => String.concat "," (map quoted ds)) records))).
Proof.
  intros Hcols Hrecords. rewrite process_fragment_plain; [|done|].
  - do 3 f_equal. apply map_ext_Forall.
    eapply Forall_impl; [exact Hrecords|].
    intros ds (_ & _ & Hq). simpl. by rewrite quote_datum_quoted.
  - eapply Forall_impl; [exact Hrecords|]. by intros ds (? & ? & _).
Qed.

Lemma process_fragment_plain_identity_witness :
  PostgresInsertValuesWithGeometryTypesLoadJob.process_fragment "x-postgres-geometry"
    (fun _ => None) (fun _ => "4326")
    [("id", plain_column "id" "bigint"); ("name", plain_column "name" "text")]
    (fragment_of
       (map (fun ds => String.concat "," (map quoted ds))
          [["1"; "a, (b)"]; ["2"; ""]]))
  = ([],
     Returns
       (fragment_of
          (map (fun ds => String.concat "," (map quoted ds))
             [["1"; "a, (b)"]; ["2"; ""]]))).
Proof.
  apply process_fragment_plain_identity.
  - repeat constructor.
  - repeat constructor; discriminate.
Defined.

(** X5.  In a table without geometry column, a quoted datum that reads
    NULL or starts with [ST_] comes out of the rewriting of [_insert]
    without its quotation marks, while the datums around it keep
    theirs. *)
Theorem process_fragment_quotes_lost (GEOMETRY_HINT : string)
    (_parse_geometry : string -> option string)
    (srid : TColumnSchema -> string)
    (columns : list (string * TColumnSchema))
    (before after : list string) (datum : string) :
  Forall (fun c => PostgresClient.has_geometry_hint GEOMETRY_HINT c = false)
    (map snd columns) ->
  length (before ++ datum :: after) = length columns ->
  Forall (fun d => free_of ["\"; "'"; "["; "]"]%char d = true)
    (before ++ datum :: after) ->
  Forall (fun d => startswith d "ST_" = false /\ d <> "NULL")
    (before ++ after) ->
  datum = "NULL" \/ startswith datum "ST_" = true ->
  PostgresInsertValuesWithGeometryTypesLoadJob.process_fragment GEOMETRY_HINT _parse_geometry srid
    columns
    (fragment_of [String.concat "," (map quoted (before ++ datum :: after))])
  = ([],
     Returns
       (fragment_of
          [String.concat ","
             (map quoted before ++ datum :: map quoted after)])).
Proof.
  intros Hcols Hlen Hfree Hq Hdatum.
  rewrite (process_fragment_plain _ _ _ columns [before ++ datum :: after])
    by (try done; by repeat constructor).
  apply Forall_app in Hq as [Hq1 Hq2].
  simpl. rewrite map_app. simpl.
  rewrite !quote_datum_quoted by done.
  do 5 f_equal. unfold PostgresInsertValuesWithGeometryTypesLoadJob.quote_datum.
  destruct Hdatum as [-> | ->]; [done|]. done.
Qed.

Lemma process_fragment_quotes_lost_witness :
  PostgresInsertValuesWithGeometryTypesLoadJob.process_fragment "x-postgres-geometry"
    (fun _ => None) (fun _ => "4326")
    [("id", plain_column "id" "bigint"); ("name", plain_column "name" "text")]
    (fragment_of [String.concat "," (map quoted (["1"] ++ "ST_x" :: []))])
  = ([],
     Returns
       (fragment_of
          [String.concat "," (map quoted ["1"] ++ "ST_x" :: map quoted [])])).
Proof.
  apply process_fragment_quotes_lost.
  - repeat constructor.
  - reflexivity.
  - repeat constructor.
  - repeat constructor; discriminate.
  - right. reflexivity.
Defined.

(* ===================================================================== *)
(** * Properties: life cycle of the LanceDB storage *)
(* ===================================================================== *)

Lemma table_names_elem (w : World) (name : string) :
  name ∈ map fst (map_to_list (tables w)) <-> is_Some (tables w !! name).
Proof.
  rewrite list_elem_of_fmap. split.
  - intros ([k t] & -> & Hin). apply elem_of_map_to_list in Hin. by exists t.
  - intros [t Ht]. exists (name, t). split; [done|].
    by apply elem_of_map_to_list.
Qed.

Lemma table_exists_unfold (name : string) (w : World) :
  table_exists name w = (Ok (bool_decide (is_Some (tables w !! name))), w).
Proof.
  unfold table_exists. rewrite M_bind_unfold. unfold table_names.
  unfold mret, M_ret. do 2 f_equal. apply bool_decide_ext, table_names_elem.
Qed.

Lemma create_table_fresh (name : string) (schema : list Field) (w : World) :
  tables w !! name = None ->
  create_table name schema w
  = (Ok (), set_table w name {| tbl_schema := schema; tbl_rows := [] |}
              [(name, OpCreateTable schema)]).
Proof. intros Hnone. unfold create_table, lancedb_error. by rewrite Hnone. Qed.

Section StorageFacts.
Variable self : LanceDBClientState.
Variable sentinel_table_name : string.
Variable NULL_SCHEMA : list Field.

Let sentinel := sentinel_table self sentinel_table_name.
Let fq := make_qualified_table_name self.

Lemma is_storage_initialized_unfold (w : World) :
  is_storage_initialized self sentinel_table_name w
  = (Ok (bool_decide (is_Some (tables w !! sentinel))), w).
Proof.
  unfold is_storage_initialized, lancedb_error.
  by rewrite table_exists_unfold.
Qed.

(** The body of the loop over [truncate_tables]. *)
Lemma truncate_step (table_name : string) (w : World) :
  exists w',
    (exists_ ← table_exists (fq table_name);
     if negb exists_ then mret ()
     else
       (schema_ ← get_table_schema (fq table_name);
        drop_table (fq table_name);;
        create_table (fq table_name) schema_)) w
    = (Ok (), w')
    /\ warnings w' = warnings w
    /\ forall name,
         tables w' !! name
         = if bool_decide (name = fq table_name)
           then emptied <$> tables w !! name
           else tables w !! name.
Proof.
  rewrite M_bind_unfold, table_exists_unfold.
  destruct (tables w !! fq table_name) as [t|] eqn:Ht.
  - rewrite bool_decide_eq_true_2 by done.
    change (negb true) with false. cbv iota.
    unfold get_table_schema.
    rewrite !M_bind_unfold, open_table_unfold, Ht. simpl.
    rewrite M_bind_unfold. unfold drop_table at 1. rewrite Ht.
    rewrite create_table_fresh by (simpl; apply lookup_delete_eq).
    eexists. split; [reflexivity|]. split; [done|].
    intros name. simpl. rewrite insert_delete_eq.
    case_bool_decide as Hname.
    + subst name. by rewrite lookup_insert_eq, Ht.
    + by rewrite lookup_insert_ne.
  - rewrite bool_decide_eq_false_2 by (by intros [? ?]). simpl.
    exists w. split; [done|]. split; [done|].
    intros name. case_bool_decide as Hname; [|done].
    subst name. by rewrite Ht.
Qed.

Lemma truncate_loop (names : list string) :
  forall w,
    exists w',
      for_each names (fun table_name =>
        exists_ ← table_exists (fq table_name);
        if negb exists_ then mret ()
        else
          (schema_ ← get_table_schema (fq table_name);
           drop_table (fq table_name);;
           create_table (fq table_name) schema_)) w
      = (Ok (), w')
      /\ warnings w' = warnings w
      /\ forall name,
           tables w' !! name
           = if bool_decide (name ∈ map fq names)
             then emptied <$> tables w !! name
             else tables w !! name.
Proof.
  induction names as [|table_name names IH]; intros w.
  - exists w. split; [done|]. split; [done|]. intros name.
    rewrite bool_decide_eq_false_2; [done|]. apply not_elem_of_nil.
  - destruct (truncate_step table_name w) as (w1 & Hstep & Hwarn1 & Htab1).
    destruct (IH w1) as (w2 & Hloop & Hwarn2 & Htab2).
    exists w2. split; [|split].
    + simpl for_each. rewrite M_bind_unfold. rewrite Hstep. exact Hloop.
    + congruence.
    + intros name. rewrite Htab2, Htab1. simpl map.
      destruct (decide (name = fq table_name)) as [->|Hne].
      * rewrite (bool_decide_eq_true_2 (fq table_name = fq table_name)) by done.
        rewrite (bool_decide_eq_true_2 (_ ∈ _ :: _)) by (apply elem_of_cons; by left).
        case_bool_decide; [|done].
        destruct (tables w !! fq table_name); done.
      * rewrite (bool_decide_eq_false_2 (name = fq table_name)) by done.
        apply (f_equal (fun b : bool =>
                 if b then emptied <$> tables w !! name else tables w !! name)).
        apply bool_decide_ext. rewrite elem_of_cons. tauto.
Qed.

Lemma initialize_storage_fresh_aux
    (truncate_tables : option (list string)) (w : World) :
  tables w !! sentinel_table self sentinel_table_name = None ->
  initialize_storage self sentinel_table_name NULL_SCHEMA truncate_tables w
  = (Ok (),
     set_table w (sentinel_table self sentinel_table_name)
       {| tbl_schema := NULL_SCHEMA; tbl_rows := [] |}
       [(sentinel_table self sentinel_table_name, OpCreateTable NULL_SCHEMA)]).
Proof.
  intros Hnone. unfold initialize_storage.
  unfold lancedb_error at 1.
  rewrite M_bind_unfold, is_storage_initialized_unfold.
  fold sentinel in Hnone |- *. rewrite Hnone.
  rewrite bool_decide_eq_false_2 by (by intros [? ?]).
  change (negb false) with true. cbv iota.
  unfold _create_sentinel_table. fold sentinel.
  by rewrite create_table_fresh.
Qed.

(** X6.  On a store without the sentinel table, [initialize_storage]
    creates the sentinel table and nothing else: the tables it was asked
    to truncate are left as they are. *)
Theorem initialize_storage_fresh
    (truncate_tables : option (list string)) (w : World) :
  tables w !! sentinel_table self sentinel_table_name = None ->
  initialize_storage self sentinel_table_name NULL_SCHEMA truncate_tables w
  = (Ok (),
     set_table w (sentinel_table self sentinel_table_name)
       {| tbl_schema := NULL_SCHEMA; tbl_rows := [] |}
       [(sentinel_table self sentinel_table_name, OpCreateTable NULL_SCHEMA)]).
Proof. apply initialize_storage_fresh_aux. Qed.

Lemma initialize_storage_truncates_aux
    (truncate_tables : list string) (s : LanceTable) (w : World) :
  tables w !! sentinel_table self sentinel_table_name = Some s ->
  exists w',
    initialize_storage self sentinel_table_name NULL_SCHEMA
      (Some truncate_tables) w
    = (Ok (), w')
    /\ warnings w' = warnings w
    /\ forall name,
         tables w' !! name
         = if bool_decide
                (name ∈ map (make_qualified_table_name self) truncate_tables)
           then emptied <$> tables w !! name
           else tables w !! name.
Proof.
  intros Hs. unfold initialize_storage.
  unfold lancedb_error at 1.
  rewrite M_bind_unfold, is_storage_initialized_unfold.
  fold sentinel in Hs |- *. rewrite Hs.
  rewrite bool_decide_eq_true_2 by done.
    change (negb true) with false. cbv iota.
  destruct truncate_tables as [|table_name names].
  - exists w. split; [done|]. split; [done|]. intros name.
    rewrite bool_decide_eq_false_2; [done|]. apply not_elem_of_nil.
  - destruct (truncate_loop (table_name :: names) w)
      as (w' & Hloop & Hwarn & Htab).
    exists w'. split; [|done]. unfold fq in Hloop. by rewrite Hloop.
Qed.

(** X7.  On a store that has the sentinel table, [initialize_storage]
    with tables to truncate returns, and afterwards every table of the
    store whose qualified name is listed has its schema and no rows;
    every other table is as before, a listed table that is not in the
    store is not created, and nothing is logged. *)
Theorem initialize_storage_truncates
    (truncate_tables : list string) (s : LanceTable) (w : World) :
  tables w !! sentinel_table self sentinel_table_name = Some s ->
  exists w',
    initialize_storage self sentinel_table_name NULL_SCHEMA
      (Some truncate_tables) w
    = (Ok (), w')
    /\ warnings w' = warnings w
    /\ forall name,
         tables w' !! name
         = if bool_decide
                (name ∈ map (make_qualified_table_name self) truncate_tables)
           then emptied <$> tables w !! name
           else tables w !! name.
Proof. apply initialize_storage_truncates_aux. Qed.

(** X8.  [initialize_storage] always returns, and it leaves a store
    that [is_storage_initialized] reports as initialized and that a
    second [initialize_storage] without truncation leaves unchanged. *)
Theorem initialize_storage_idempotent
    (truncate_tables : option (list string)) (w : World) :
  exists w',
    initialize_storage self sentinel_table_name NULL_SCHEMA truncate_tables w
    = (Ok (), w')
    /\ is_storage_initialized self sentinel_table_name w' = (Ok true, w')
    /\ initialize_storage self sentinel_table_name NULL_SCHEMA None w'
       = (Ok (), w').
Proof.
  assert (Hdone : forall w' : World,
            is_Some (tables w' !! sentinel) ->
            is_storage_initialized self sentinel_table_name w' = (Ok true, w')
            /\ initialize_storage self sentinel_table_name NULL_SCHEMA None w'
               = (Ok (), w')).
  { intros w' Hsome. split.
    - rewrite is_storage_initialized_unfold.
      by rewrite bool_decide_eq_true_2.
    - unfold initialize_storage, lancedb_error at 1.
      rewrite M_bind_unfold, is_storage_initialized_unfold.
      by rewrite bool_decide_eq_true_2. }
  destruct (tables w !! sentinel) as [s|] eqn:Hs.
  - destruct truncate_tables as [names|].
    + destruct (initialize_storage_truncates_aux names s w Hs)
        as (w' & Hrun & _ & Htab).
      exists w'. split; [done|]. apply Hdone. rewrite Htab.
      case_bool_decide; rewrite Hs; by eexists.
    + exists w. destruct (Hdone w) as [H1 H2]; [by exists s|]. done.
  - eexists. split; [by apply initialize_storage_fresh_aux|].
    apply Hdone. simpl. rewrite lookup_insert_eq. by eexists.
Qed.

Lemma startswith_app (prefix rest : string) :
  startswith (prefix +:+ rest) prefix = true.
Proof. apply prefix_correct, substring_all. Qed.

Lemma sentinel_in_dataset : in_dataset self sentinel = true.
Proof.
  unfold in_dataset, sentinel, sentinel_table, make_qualified_table_name.
  destruct (truthy (dataset_name self)); [|done].
  rewrite <- string_app_assoc. apply startswith_app.
Qed.

Lemma NoDup_List_filter {A : Type} (f : A -> bool) (l : list A) :
  NoDup l -> NoDup (List.filter f l).
Proof. rewrite !NoDup_ListNoDup. apply List.NoDup_filter. Qed.

Lemma _get_table_names_spec (w : World) :
  exists names,
    _get_table_names self sentinel_table_name w = (Ok names, w)
    /\ NoDup names
    /\ forall name,
         name ∈ names
         <-> is_Some (tables w !! name) /\ in_dataset self name = true
             /\ name <> sentinel.
Proof.
  unfold _get_table_names, lancedb_error, in_dataset.
  rewrite M_bind_unfold.
  pose proof (NoDup_fst_map_to_list (tables w)) as Hnodup.
  destruct (truthy (dataset_name self)).
  - rewrite M_bind_unfold. unfold table_names, mret, M_ret.
    eexists. split; [reflexivity|]. split.
    + by do 2 apply NoDup_List_filter.
    + intros name. rewrite <- table_names_elem, !list_elem_of_In, !filter_In.
      rewrite negb_true_iff, bool_decide_eq_false. fold sentinel. tauto.
  - unfold table_names, mret, M_ret.
    eexists. split; [reflexivity|]. split.
    + by apply NoDup_List_filter.
    + intros name. rewrite <- table_names_elem, !list_elem_of_In, !filter_In.
      rewrite negb_true_iff, bool_decide_eq_false. fold sentinel. tauto.
Qed.

Lemma drop_loop (names : list string) :
  forall w,
    NoDup names ->
    (forall name, name ∈ names -> is_Some (tables w !! name)) ->
    exists w',
      for_each names drop_table w = (Ok (), w')
      /\ requests w' = requests w
      /\ warnings w' = warnings w
      /\ forall name,
           tables w' !! name
           = if bool_decide (name ∈ names) then None else tables w !! name.
Proof.
  induction names as [|n names IH]; intros w Hnodup Hin.
  - exists w. split; [done|]. split; [done|]. split; [done|]. intros name.
    rewrite bool_decide_eq_false_2; [done|]. apply not_elem_of_nil.
  - apply NoDup_cons in Hnodup as [Hfresh Hnodup].
    destruct (Hin n) as [t Ht]; [apply elem_of_cons; by left|].
    pose (w1 := {| tables := delete n (tables w);
                   requests := requests w;
                   warnings := warnings w |}).
    destruct (IH w1 Hnodup) as (w2 & Hloop & Hreq & Hwarn & Htab).
    { intros name Hname. simpl. rewrite lookup_delete_ne.
      - apply Hin, elem_of_cons. by right.
      - by intros ->. }
    exists w2. split; [|split; [done|split; [done|]]].
    + simpl for_each. rewrite M_bind_unfold. unfold drop_table at 1.
      rewrite Ht. exact Hloop.
    + intros name. rewrite Htab. simpl.
      destruct (decide (name = n)) as [->|Hne].
      * rewrite (bool_decide_eq_false_2 (n ∈ names)) by done.
        rewrite bool_decide_eq_true_2 by (apply elem_of_cons; by left).
        apply lookup_delete_eq.
      * rewrite lookup_delete_ne by done.
        apply (f_equal (fun b : bool => if b then None else tables w !! name)).
        apply bool_decide_ext. rewrite elem_of_cons. tauto.
Qed.

(** X9.  [_get_table_names] only reads the store and lists, each once,
    the tables of the store that carry the prefix of the dataset (all
    tables when the client has no dataset name), the sentinel table
    left out. *)
Theorem get_table_names_lists_dataset (w : World) :
  exists names,
    _get_table_names self sentinel_table_name w = (Ok names, w)
    /\ NoDup names
    /\ forall name,
         name ∈ names
         <-> is_Some (tables w !! name) /\ in_dataset self name = true
             /\ name <> sentinel_table self sentinel_table_name.
Proof. apply _get_table_names_spec. Qed.

Lemma drop_storage_spec (w : World) :
  exists w',
    drop_storage self sentinel_table_name w
    = (match tables w !! sentinel_table self sentinel_table_name with
       | Some _ => Ok ()
       | None => Raise DestinationUndefinedEntity
       end, w')
    /\ requests w' = requests w
    /\ warnings w' = warnings w
    /\ forall name,
         tables w' !! name
         = if in_dataset self name then None else tables w !! name.
Proof.
  destruct (_get_table_names_spec w) as (names & Hnames & Hnodup & Hin).
  destruct (drop_loop names w Hnodup) as (w1 & Hloop & Hreq & Hwarn & Htab).
  { intros name Hname. by apply Hin in Hname as (? & _). }
  assert (Hsent : tables w1 !! sentinel = tables w !! sentinel).
  { rewrite Htab. rewrite bool_decide_eq_false_2; [done|].
    intros Hs. apply Hin in Hs as (_ & _ & Hne). by apply Hne. }
  assert (Hother : forall name,
            name <> sentinel ->
            tables w1 !! name
            = if in_dataset self name then None else tables w !! name).
  { intros name Hne. rewrite Htab.
    destruct (in_dataset self name) eqn:Hds.
    - destruct (tables w !! name) as [t|] eqn:Ht.
      + rewrite bool_decide_eq_true_2; [done|]. apply Hin.
        split; [by exists t | done].
      + by case_bool_decide.
    - rewrite bool_decide_eq_false_2; [done|].
      intros Hname. apply Hin in Hname as (_ & Hds' & _). congruence. }
  unfold drop_storage, lancedb_error at 1.
  rewrite M_bind_unfold, Hnames, M_bind_unfold, Hloop.
  unfold _delete_sentinel_table, drop_table. fold sentinel.
  rewrite Hsent.
  destruct (tables w !! sentinel) as [s|] eqn:Hs.
  - eexists. split; [reflexivity|]. split; [done|]. split; [done|].
    intros name. simpl. destruct (decide (name = sentinel)) as [->|Hne].
    + by rewrite lookup_delete_eq, sentinel_in_dataset.
    + rewrite lookup_delete_ne by done. by apply Hother.
  - exists w1. split; [reflexivity|]. split; [done|]. split; [done|].
    intros name. destruct (decide (name = sentinel)) as [->|Hne].
    + by rewrite Hsent, Hs, sentinel_in_dataset.
    + by apply Hother.
Qed.


(** X10.  [drop_storage] removes every table whose name carries the
    prefix of the dataset (every table, when the client has no dataset
    name), the sentinel table included, and leaves the other tables,
    the request log and the warnings as they are.  On a store without
    sentinel table it raises [DestinationUndefinedEntity], after those
    tables have been removed all the same. *)
Theorem drop_storage_removes_dataset (w : World) :
  exists w',
    drop_storage self sentinel_table_name w
    = (match tables w !! sentinel_table self sentinel_table_name with
       | Some _ => Ok ()
       | None => Raise DestinationUndefinedEntity
       end, w')
    /\ requests w' = requests w
    /\ warnings w' = warnings w
    /\ forall name,
         tables w' !! name
         = if in_dataset self name then None else tables w !! name.
Proof. apply drop_storage_spec. Qed.

(** X20.  The dataset is told by the prefix of the table name alone:
    [drop_storage] of a dataset also removes the tables of every
    dataset whose name starts with the name of the first followed by
    the separator. *)
Theorem drop_storage_prefix_overlap
    (other : LanceDBClientState) (d rest table_name : string) (w : World) :
  d <> "" ->
  dataset_name self = Some d ->
  dataset_name other = Some (d +:+ dataset_separator self +:+ rest) ->
  tables (snd (drop_storage self sentinel_table_name w))
    !! make_qualified_table_name other table_name
  = None.
Proof.
  intros Hd Hself Hother.
  destruct (drop_storage_spec w) as (w' & -> & _ & _ & Htab).
  simpl. rewrite Htab.
  assert (Hin : in_dataset self (make_qualified_table_name other table_name)
                = true); [|by rewrite Hin].
  unfold in_dataset, make_qualified_table_name.
  rewrite Hself, Hother. simpl default.
  unfold truthy. rewrite bool_decide_eq_false_2 by done. simpl negb.
  rewrite bool_decide_eq_false_2
    by (destruct d; [done | by rewrite string_app_cons]).
  simpl negb. cbv iota.
  rewrite !string_app_assoc, <- (string_app_assoc d). apply startswith_app.
Qed.

End StorageFacts.

Lemma initialize_storage_fresh_witness :
  initialize_storage sample_client "dltSentinelTable" [] (Some ["items"])
    evolving_world
  = (Ok (),
     set_table evolving_world (sentinel_table sample_client "dltSentinelTable")
       {| tbl_schema := []; tbl_rows := [] |}
       [(sentinel_table sample_client "dltSentinelTable", OpCreateTable [])]).
Proof. apply initialize_storage_fresh. reflexivity. Defined.

Lemma initialize_storage_truncates_witness :
  exists w',
    initialize_storage sample_client "dltSentinelTable" []
      (Some ["items"; "missing"]) initialized_world
    = (Ok (), w')
    /\ warnings w' = warnings initialized_world
    /\ forall name,
         tables w' !! name
         = if bool_decide
                (name ∈ map (make_qualified_table_name sample_client)
                          ["items"; "missing"])
           then emptied <$> tables initialized_world !! name
           else tables initialized_world !! name.
Proof.
  eapply (initialize_storage_truncates sample_client "dltSentinelTable" []
            ["items"; "missing"]).
  reflexivity.
Defined.

(* ===================================================================== *)
(** * Properties: complete_load *)
(* ===================================================================== *)

Section CompleteLoadFacts.
Context `{Externals}.
Variable self : LanceDBClientState.

Let n := normalize_identifier (schema self).
Let fq_loads :=
  make_qualified_table_name self (loads_table_name (schema self)).

Lemma complete_load_Ok_inv (load_id now : string) (w w' : World) :
  NoDup (map n loads_columns) ->
  complete_load self load_id now w = (Ok (), w') ->
  exists lt lt' sent,
    tables w !! fq_loads = Some lt
    /\ w' = set_table w fq_loads lt' sent
    /\ (tbl_rows lt' = tbl_rows lt ++ [load_record self load_id now]
        \/ tbl_rows lt' = [load_record self load_id now]).
Proof.
  intros Hnodup Hrun. unfold complete_load in Hrun.
  apply lancedb_error_Ok_inv in Hrun. cbv zeta in Hrun.
  apply M_bind_Ok_inv in Hrun as (vt & w0 & Hvt & Hwrite).
  unfold lift in Hvt. injection Hvt as _ <-.
  rewrite dict_literal_NoDup in Hwrite by exact Hnodup.
  apply write_records_Ok_inv in Hwrite as (t & Ht & Hcase).
  exists t. destruct Hcase as [[_ ->] | [_ ->]]; eexists _, _;
    (split; [exact Ht|]); (split; [reflexivity|]); simpl; auto.
Qed.

(** X11.  When [complete_load(load_id)] returns, the loads table has
    got the record of the load, with status 0, as its last row (its
    only row when the table is written by replacement); no other table
    is touched; and every row of a state table that carries this load
    id then counts as a completed state of its pipeline, which is what
    [get_stored_state] selects from.  The naming convention is taken to
    keep the five column names of the loads table apart. *)
Theorem complete_load_marks_completed
    (load_id now : string) (w w' : World) :
  NoDup (map (normalize_identifier (schema self)) loads_columns) ->
  complete_load self load_id now w = (Ok (), w') ->
  exists lt lt',
    tables w !! make_qualified_table_name self (loads_table_name (schema self))
    = Some lt
    /\ tables w' !! make_qualified_table_name self
                      (loads_table_name (schema self))
       = Some lt'
    /\ (forall name,
          name <> make_qualified_table_name self
                    (loads_table_name (schema self)) ->
          tables w' !! name = tables w !! name)
    /\ (tbl_rows lt' = tbl_rows lt ++ [load_record self load_id now]
        \/ tbl_rows lt' = [load_record self load_id now])
    /\ forall (st : LanceTable) (s : Row) (pipeline_name : string),
         s ∈ tbl_rows st ->
         dict_get s (normalize_identifier (schema self) "pipeline_name")
         = Some (VStr pipeline_name) ->
         dict_get s (normalize_identifier (schema self) "_dlt_load_id")
         = Some (VStr load_id) ->
         s ∈ completed_state_rows (normalize_identifier (schema self))
               pipeline_name st lt'.
Proof.
  intros Hnodup Hrun.
  destruct (complete_load_Ok_inv _ _ _ _ Hnodup Hrun)
    as (lt & lt' & sent & Hlt & -> & Hrows).
  exists lt, lt'. split; [exact Hlt|]. split; [apply lookup_insert_eq|].
  split; [intros name Hne; simpl; by rewrite lookup_insert_ne|].
  split; [exact Hrows|].
  intros st s p Hs Hp Hid. unfold completed_state_rows.
  apply list_elem_of_In, filter_In. split; [by apply list_elem_of_In|].
  apply andb_true_iff. split; [by apply bool_decide_eq_true|].
  apply existsb_exists. exists (load_record self load_id now). split.
  - apply list_elem_of_In.
    destruct Hrows as [-> | ->]; [apply elem_of_app; right|];
      apply elem_of_cons; by left.
  - assert (Hget : forall k v,
              (k, v) ∈ load_record self load_id now ->
              dict_get (load_record self load_id now) k = Some v).
    { intros k v. by apply dict_get_NoDup. }
    cbv beta. fold n.
    rewrite (Hget (n "status") (VInt 0))
      by (unfold load_record; fold n;
          repeat first [ apply elem_of_cons; left; reflexivity
                       | apply elem_of_cons; right ]).
    rewrite (Hget (n "load_id") (VStr load_id))
      by (unfold load_record; fold n;
          repeat first [ apply elem_of_cons; left; reflexivity
                       | apply elem_of_cons; right ]).
    fold n in Hid. rewrite Hid.
    rewrite (bool_decide_eq_true_2 (Some (VInt 0) = Some (VInt 0))) by done.
    rewrite (bool_decide_eq_true_2 (Some (VStr load_id) = Some (VStr load_id)))
      by done.
    rewrite (bool_decide_eq_true_2 (is_Some _)) by done.
    by rewrite bool_decide_eq_false_2.
Qed.

End CompleteLoadFacts.

Lemma complete_load_marks_completed_witness :
  exists lt lt',
    tables states_world
      !! make_qualified_table_name loads_client
           (loads_table_name (schema loads_client))
    = Some lt
    /\ tables (snd (complete_load loads_client "200" "2024-05-01" states_world))
         !! make_qualified_table_name loads_client
              (loads_table_name (schema loads_client))
       = Some lt'
    /\ (forall name,
          name <> make_qualified_table_name loads_client
                    (loads_table_name (schema loads_client)) ->
          tables (snd (complete_load loads_client "200" "2024-05-01"
                         states_world)) !! name
          = tables states_world !! name)
    /\ (tbl_rows lt'
        = tbl_rows lt ++ [load_record loads_client "200" "2024-05-01"]
        \/ tbl_rows lt' = [load_record loads_client "200" "2024-05-01"])
    /\ forall (st : LanceTable) (s : Row) (pipeline_name : string),
         s ∈ tbl_rows st ->
         dict_get s (normalize_identifier (schema loads_client) "pipeline_name")
         = Some (VStr pipeline_name) ->
         dict_get s (normalize_identifier (schema loads_client) "_dlt_load_id")
         = Some (VStr "200") ->
         s ∈ completed_state_rows (normalize_identifier (schema loads_client))
               pipeline_name st lt'.
Proof.
  apply (complete_load_marks_completed loads_client "200" "2024-05-01"
           states_world).
  - apply (bool_decide_unpack _). vm_compute. exact I.
  - vm_compute. reflexivity.
Defined.

(* ===================================================================== *)
(** * Properties: follow-up jobs of a table chain *)
(* ===================================================================== *)

Lemma list_comprehension_Ok {A B : Type}
    (f : A -> Res B) (l : list A) (r : list B) :
  Forall2 (fun x y => f x = Ok y) l r -> list_comprehension f l = Ok r.
Proof.
  induction 1 as [|x y l r Hxy _ IH]; [done|].
  simpl. by rewrite Hxy, IH.
Qed.

Section FollowupFacts.
Context `{Externals}.
Variable super_create_table_chain_completed_followup_jobs :
  list TTableSchema -> option (list LoadJobInfo) -> list FollowupJobRequest.
Variable get_file_name_from_file_path : string -> string.
Variable _schema : Schema.

Lemma chain_lineage_elem
    (table_chain : list TTableSchema) (jobs : list LoadJobInfo)
    (entry : TTableSchema * string * string) :
  entry ∈ chain_lineage table_chain jobs
  <-> exists table job,
        table ∈ table_chain /\ job ∈ jobs
        /\ job_table_name job = table_name table
        /\ entry = (table, table_name table, job_file_path job).
Proof.
  unfold chain_lineage. rewrite list_elem_of_In, in_flat_map. split.
  - intros (table & Htable & Hentry).
    apply in_map_iff in Hentry as (job & <- & Hjob).
    apply filter_In in Hjob as [Hjob Hname].
    apply bool_decide_eq_true in Hname.
    exists table, job. by rewrite !list_elem_of_In.
  - intros (table & job & Htable & Hjob & Hname & ->).
    exists table. split; [by apply list_elem_of_In|].
    apply in_map_iff. exists job. split; [done|].
    apply filter_In. split; [by apply list_elem_of_In|].
    by apply bool_decide_eq_true.
Qed.

Lemma chain_lineage_paths
    (table_chain : list TTableSchema) (jobs : list LoadJobInfo) :
  (forall job, job ∈ jobs ->
     parse_table_name (job_file_path job) = Ok (job_table_name job)) ->
  (forall table, table ∈ table_chain ->
     get_table _schema (table_name table) = Ok table) ->
  Forall2
    (fun file_path_ entry =>
       (table_name ← parse_table_name file_path_;
        table ← get_table _schema table_name;
        Ok (table, table_name, file_path_)) = Ok entry)
    (all_job_paths_ordered table_chain jobs)
    (chain_lineage table_chain jobs).
Proof.
  intros Hparse Hget. unfold all_job_paths_ordered, chain_lineage.
  induction table_chain as [|table table_chain IH]; [constructor|].
  simpl. apply Forall2_app.
  - assert (Htable : get_table _schema (table_name table) = Ok table)
      by (apply Hget, elem_of_cons; by left).
    clear IH Hget. induction jobs as [|job jobs IHj]; [constructor|].
    simpl. assert (Hjob : parse_table_name (job_file_path job)
                          = Ok (job_table_name job))
      by (apply Hparse, elem_of_cons; by left).
    destruct (bool_decide (job_table_name job = table_name table)) eqn:Hname.
    + apply bool_decide_eq_true in Hname. simpl. constructor.
      * rewrite Hjob. simpl. rewrite Hname, Htable. reflexivity.
      * apply IHj. intros j Hj. apply Hparse, elem_of_cons. by right.
    + apply IHj. intros j Hj. apply Hparse, elem_of_cons. by right.
  - apply IH. intros t Ht. apply Hget, elem_of_cons. by right.
Qed.

(** X12.  For a chain whose root table is loaded with merge, in which
    every table has a completed job and every parent named is a table
    of the chain, the client adds one reference job to those of the
    base class; the orphan-removal job reads the paths of that
    reference as a lineage in which every entry finds the file its
    merge is keyed on: the job cannot stop for a missing parent.  Files
    are taken to be named after their tables, and the schema to hold
    the tables of the chain. *)
Theorem followup_reference_lineage_closed
    (root : TTableSchema) (children : list TTableSchema)
    (jobs : list LoadJobInfo) :
  write_disposition root = Some "merge" ->
  (forall table, table ∈ root :: children ->
     exists job, job ∈ jobs /\ job_table_name job = table_name table) ->
  (forall table p, table ∈ root :: children -> parent table = Some p ->
     exists table', table' ∈ root :: children /\ table_name table' = p) ->
  (forall job, job ∈ jobs ->
     parse_table_name (job_file_path job) = Ok (job_table_name job)) ->
  (forall table, table ∈ root :: children ->
     get_table _schema (table_name table) = Ok table) ->
  exists first paths,
    all_job_paths_ordered (root :: children) jobs = first :: paths
    /\ create_table_chain_completed_followup_jobs
         super_create_table_chain_completed_followup_jobs
         get_file_name_from_file_path (root :: children) (Some jobs)
       = Ok (super_create_table_chain_completed_followup_jobs
               (root :: children) (Some jobs)
             ++ [ReferenceFollowupJobRequest
                   (get_file_name_from_file_path first) (first :: paths)])
    /\ LanceDBRemoveOrphansJob.table_lineage _schema (first :: paths)
       = Ok (chain_lineage (root :: children) jobs)
    /\ forall entry,
         entry ∈ chain_lineage (root :: children) jobs ->
         exists key file_path,
           LanceDBRemoveOrphansJob.merge_key_and_payload_path
             (chain_lineage (root :: children) jobs)
             (fst (fst entry)) (snd entry)
           = Ok (key, file_path).
Proof.
  intros Hmerge Hjobs Hparents Hparse Hget.
  pose proof (chain_lineage_paths (root :: children) jobs Hparse Hget)
    as Hlineage.
  destruct (all_job_paths_ordered (root :: children) jobs)
    as [|first paths] eqn:Hpaths.
  { exfalso. destruct (Hjobs root) as (job & Hjob & Hname);
      [apply elem_of_cons; by left|].
    assert (Hin : (root, table_name root, job_file_path job)
                  ∈ chain_lineage (root :: children) jobs).
    { apply chain_lineage_elem. exists root, job.
      split; [apply elem_of_cons; by left | done]. }
    apply Forall2_nil_inv_l in Hlineage. rewrite Hlineage in Hin.
    by apply elem_of_nil in Hin. }
  exists first, paths. split; [done|]. split; [|split].
  - unfold create_table_chain_completed_followup_jobs.
    cbv zeta. rewrite Hpaths.
    change (list_item (root :: children) 0) with (Ok root).
    simpl. by rewrite bool_decide_eq_true_2.
  - unfold LanceDBRemoveOrphansJob.table_lineage.
    by apply list_comprehension_Ok.
  - intros entry Hentry. pose proof Hentry as Hin.
    apply chain_lineage_elem in Hin
      as (table & job & Htable & Hjob & Hname & ->).
    cbn [fst snd]. destruct (parent table) as [p|] eqn:Hp.
    + rewrite (merge_key_and_payload_path_child _ _ _ p) by done.
      destruct (Hparents table p Htable Hp) as (table' & Htable' & Hname').
      destruct (Hjobs table' Htable') as (job' & Hjob' & Hjname').
      assert (Hin' : (table', table_name table', job_file_path job')
                     ∈ chain_lineage (root :: children) jobs).
      { apply chain_lineage_elem. by exists table', job'. }
      destruct (LanceDBRemoveOrphansJob.get_parent_path
                  (chain_lineage (root :: children) jobs) (Some p))
        as [file|e] eqn:Hfile.
      * by exists "_dlt_parent_id", file.
      * exfalso. unfold LanceDBRemoveOrphansJob.get_parent_path in Hfile.
        destruct (List.filter _ _) as [|x l] eqn:Hfilter; [|discriminate].
        assert (Hx : In (table', table_name table', job_file_path job')
                       (List.filter
                          (fun entry : TTableSchema * string * string =>
                             bool_decide (Some (snd (fst entry)) = Some p))
                          (chain_lineage (root :: children) jobs))).
        { apply filter_In. split; [by apply list_elem_of_In|].
          apply bool_decide_eq_true. simpl. by rewrite Hname'. }
        rewrite Hfilter in Hx. destruct Hx.
    + rewrite merge_key_and_payload_path_root by done.
      by exists "_dlt_id", (job_file_path job).
Qed.

End FollowupFacts.

Lemma followup_reference_lineage_closed_witness :
  exists first paths,
    all_job_paths_ordered [items_table; tags_table] sample_jobs
    = first :: paths
    /\ create_table_chain_completed_followup_jobs
         (fun _ _ => []) before_dot [items_table; tags_table]
         (Some sample_jobs)
       = Ok ([] ++ [ReferenceFollowupJobRequest (before_dot first)
                      (first :: paths)])
    /\ LanceDBRemoveOrphansJob.table_lineage sample_schema (first :: paths)
       = Ok (chain_lineage [items_table; tags_table] sample_jobs)
    /\ forall entry,
         entry ∈ chain_lineage [items_table; tags_table] sample_jobs ->
         exists key file_path,
           LanceDBRemoveOrphansJob.merge_key_and_payload_path
             (chain_lineage [items_table; tags_table] sample_jobs)
             (fst (fst entry)) (snd entry)
           = Ok (key, file_path).
Proof.
  apply (followup_reference_lineage_closed (fun _ _ => []) before_dot
           sample_schema items_table [tags_table] sample_jobs).
  - reflexivity.
  - intros table Htable.
    apply elem_of_cons in Htable as [-> | Htable].
    + exists {| job_file_path := "items.1.parquet";
                job_table_name := "items" |}.
      split; [|reflexivity].
      apply elem_of_cons; right. apply elem_of_cons; by left.
    + apply elem_of_cons in Htable as [-> | Htable];
        [|by apply elem_of_nil in Htable].
      exists {| job_file_path := "items__tags.1.parquet";
                job_table_name := "items__tags" |}.
      split; [|reflexivity]. apply elem_of_cons; by left.
  - intros table p Htable Hp.
    apply elem_of_cons in Htable as [-> | Htable]; [discriminate|].
    apply elem_of_cons in Htable as [-> | Htable];
      [|by apply elem_of_nil in Htable].
    injection Hp as <-. exists items_table.
    split; [apply elem_of_cons; by left | reflexivity].
  - intros job Hjob.
    repeat (apply elem_of_cons in Hjob as [-> | Hjob]; [reflexivity|]).
    by apply elem_of_nil in Hjob.
  - intros table Htable.
    repeat (apply elem_of_cons in Htable as [-> | Htable]; [reflexivity|]).
    by apply elem_of_nil in Htable.
Defined.

(** X13.  For a chain loaded with merge none of whose tables has a
    completed job, [create_table_chain_completed_followup_jobs] makes no
    reference job but raises [IndexError]; without a list of completed
    jobs it raises [TypeError]. *)
Theorem followup_merge_without_jobs
    (super_create_table_chain_completed_followup_jobs :
       list TTableSchema -> option (list LoadJobInfo)
       -> list FollowupJobRequest)
    (get_file_name_from_file_path : string -> string)
    (root : TTableSchema) (children : list TTableSchema)
    (jobs : list LoadJobInfo) :
  write_disposition root = Some "merge" ->
  (forall table job, table ∈ root :: children -> job ∈ jobs ->
     job_table_name job <> table_name table) ->
  create_table_chain_completed_followup_jobs
    super_create_table_chain_completed_followup_jobs
    get_file_name_from_file_path (root :: children) (Some jobs)
  = Raise IndexError
  /\ create_table_chain_completed_followup_jobs
       super_create_table_chain_completed_followup_jobs
       get_file_name_from_file_path (root :: children) None
     = Raise TypeError.
Proof.
  intros Hmerge Hnone.
  assert (Hpaths : all_job_paths_ordered (root :: children) jobs = []).
  { unfold all_job_paths_ordered.
    induction (root :: children) as [|table chain IH]; [done|].
    simpl. rewrite IH.
    - rewrite app_nil_r.
      replace (List.filter _ jobs) with ([] : list LoadJobInfo); [done|].
      symmetry. apply filter_eq_nil. intros job Hjob.
      apply bool_decide_eq_false, Hnone; [apply elem_of_cons; by left|done].
    - intros t j Ht Hj. apply Hnone; [|done]. apply elem_of_cons. by right. }
  unfold create_table_chain_completed_followup_jobs. cbv zeta.
  rewrite Hpaths. change (list_item (root :: children) 0) with (Ok root).
  simpl. by rewrite bool_decide_eq_true_2.
Qed.

Lemma followup_merge_without_jobs_witness :
  create_table_chain_completed_followup_jobs
    (fun _ _ => []) before_dot [items_table; tags_table]
    (Some [ {| job_file_path := "notes.1.parquet";
               job_table_name := "notes" |} ])
  = Raise IndexError
  /\ create_table_chain_completed_followup_jobs
       (fun _ _ => []) before_dot [items_table; tags_table] None
     = Raise TypeError.
Proof.
  apply followup_merge_without_jobs.
  - reflexivity.
  - intros table job Htable Hjob.
    apply elem_of_cons in Hjob as [-> | Hjob];
      [|by apply elem_of_nil in Hjob].
    repeat (apply elem_of_cons in Htable as [-> | Htable]; [discriminate|]).
    by apply elem_of_nil in Htable.
Defined.

(* ===================================================================== *)
(** * Properties: write_records, all or nothing *)
(* ===================================================================== *)

(** X14.  [write_records] writes all or nothing: when it raises, the
    store, the request log and the warnings are as before; when it
    returns, the table named was in the store, it alone has changed,
    and exactly one request, addressed to it, has been logged. *)
Theorem write_records_all_or_nothing `{Externals}
    (records : DATA) (table_name : string)
    (write_disposition id_field_name : option string)
    (remove_orphans : bool) (w : World) :
  match write_records records table_name write_disposition id_field_name
          remove_orphans w with
  | (Raise _, w') => w' = w
  | (Ok _, w') =>
      exists t t' op,
        tables w !! table_name = Some t
        /\ w' = set_table w table_name t' [(table_name, op)]
  end.
Proof.
  unfold write_records. rewrite M_bind_unfold. unfold try_except at 1.
  rewrite open_table_unfold.
  destruct (tables w !! table_name) as [t|] eqn:Ht; [|done].
  unfold try_except.
  assert (Hstep : forall op t',
            match
              (if arrow_valid t records then commit table_name op t'
               else raise ArrowInvalid) w
            with
            | (Raise e, w') =>
                if bool_decide (e = ArrowInvalid)
                then raise DestinationTerminalException w'
                else (Raise e, w')
            | r => r
            end
            = (if arrow_valid t records
               then (Ok (), set_table w table_name t' [(table_name, op)])
               else (Raise DestinationTerminalException, w))).
  { intros op t'. by destruct (arrow_valid t records). }
  destruct (bool_decide (write_disposition ∈ _)).
  { unfold tbl_add. rewrite M_bind_unfold, open_table_unfold, Ht, Hstep.
    destruct (arrow_valid t records); [by eexists t, _, _ | done]. }
  destruct (bool_decide (write_disposition = Some "replace")).
  { unfold tbl_add_overwrite.
    rewrite M_bind_unfold, open_table_unfold, Ht, Hstep.
    destruct (arrow_valid t records); [by eexists t, _, _ | done]. }
  destruct (bool_decide (write_disposition = Some "merge")); [|done].
  destruct (negb (truthy id_field_name)); [done|].
  destruct remove_orphans.
  - unfold tbl_merge_delete_orphans.
    rewrite M_bind_unfold, open_table_unfold, Ht, Hstep.
    destruct (arrow_valid t records); [by eexists t, _, _ | done].
  - unfold tbl_merge_upsert.
    rewrite M_bind_unfold, open_table_unfold, Ht, Hstep.
    destruct (arrow_valid t records); [by eexists t, _, _ | done].
Qed.

(* ===================================================================== *)
(** * Properties: PostgresCsvCopyJob *)
(* ===================================================================== *)

Lemma list_difference_nil {A : Type} `{EqDecision A} (l k : list A) :
  (forall x, x ∈ l -> x ∈ k) -> list_difference (remove_dups l) k = [].
Proof.
  intros Hsub. apply elem_of_nil_inv. intros x Hx.
  apply list_elem_of_difference in Hx as [Hx Hnot].
  apply Hnot, Hsub. by apply elem_of_remove_dups.
Qed.

Lemma list_difference_nil_inv {A : Type} `{EqDecision A} (l k : list A) :
  list_difference (remove_dups l) k = [] -> forall x, x ∈ l -> x ∈ k.
Proof.
  intros Hnil x Hx. destruct (decide (x ∈ k)) as [|Hnot]; [done|].
  assert (Hin : x ∈ list_difference (remove_dups l) k).
  { apply list_elem_of_difference. split; [by apply elem_of_remove_dups|done]. }
  rewrite Hnil in Hin. by apply elem_of_nil in Hin.
Qed.

Section CsvCopyFacts.
Variable escape_column_name : string -> string.
Variable make_qualified_table_name : string -> string.
Variable is_nullable_column : TColumnSchema -> bool.
Variable _file_path : string.
Variable csv_format : CsvFormatConfiguration.
Variable load_table_name : string.
Variable table_columns : list (string * TColumnSchema).
Variable first_line : string.

(** X15.  A statement that [PostgresCsvCopyJob.run] sends is validated:
    each of its headers is an escaped column of the table, and each
    column under [FORCE_NULL] is one of its headers and a column of the
    table that may be NULL. *)
Theorem csv_copy_statement_validated (warnings : list string) (sql : string) :
  PostgresCsvCopyJob.run escape_column_name make_qualified_table_name
    is_nullable_column _file_path csv_format load_table_name table_columns
    first_line
  = (warnings, Returns sql) ->
  exists headers,
    sql = PostgresCsvCopyJob.copy_sql make_qualified_table_name csv_format
            load_table_name headers
            (PostgresCsvCopyJob.split_null_headers escape_column_name
               is_nullable_column table_columns headers)
    /\ (forall h, h ∈ headers ->
          h ∈ PostgresCsvCopyJob.split_columns escape_column_name
                table_columns)
    /\ forall h,
         h ∈ PostgresCsvCopyJob.split_null_headers escape_column_name
               is_nullable_column table_columns headers ->
         h ∈ headers
         /\ exists col,
              col ∈ map snd table_columns
              /\ h = escape_column_name (col_name col)
              /\ is_nullable_column col = true.
Proof.
  unfold PostgresCsvCopyJob.run.
  destruct (PostgresCsvCopyJob.read_headers _ _ _ _ _)
    as [warnings0 [split_headers|e]]; [|discriminate].
  cbv zeta.
  destruct (list_difference _ _) as [|x l] eqn:Hdiff; [|discriminate].
  intros [= _ <-]. eexists. split; [reflexivity|]. split.
  - by apply list_difference_nil_inv.
  - intros h Hh. unfold PostgresCsvCopyJob.split_null_headers in Hh.
    apply list_elem_of_fmap in Hh as (col & -> & Hcol).
    apply list_elem_of_In, filter_In in Hcol as [Hcol Hok].
    apply andb_true_iff in Hok as [Hhead Hnull].
    apply bool_decide_eq_true in Hhead. split; [done|].
    exists col. by rewrite list_elem_of_In.
Qed.

(** X16.  Without a header row the headers are the columns of the
    table in their order: a first row with more fields than the table
    has columns is refused with [DestinationInvalidFileFormat]; with [k]
    fields, up to the number of columns, the statement copies into the
    first [k] columns.  The keys of the columns are taken to escape to
    the same text as the columns' names. *)
Theorem csv_copy_without_header :
  include_header csv_format = false ->
  delimiter csv_format <> "" ->
  (forall key col, (key, col) ∈ table_columns ->
     escape_column_name (PostgresCsvCopyJob.strip_quotes key)
     = escape_column_name (col_name col)) ->
  let fields := split_go (delimiter csv_format) 0 "" (strip first_line) in
  let headers :=
    map (fun h => escape_column_name (PostgresCsvCopyJob.strip_quotes h))
      (take (length fields) (map fst table_columns)) in
  snd (PostgresCsvCopyJob.run escape_column_name make_qualified_table_name
         is_nullable_column _file_path csv_format load_table_name
         table_columns first_line)
  = if (length table_columns <? length fields)%nat
    then Raises DestinationInvalidFileFormat
    else Returns
           (PostgresCsvCopyJob.copy_sql make_qualified_table_name csv_format
              load_table_name headers
              (PostgresCsvCopyJob.split_null_headers escape_column_name
                 is_nullable_column table_columns headers)).
Proof.
  intros Hheader Hsep Hkeys fields headers.
  assert (Hknown : list_difference (remove_dups headers)
                     (PostgresCsvCopyJob.split_columns escape_column_name
                        table_columns) = []).
  { apply list_difference_nil. intros h Hh. unfold headers in Hh.
    apply list_elem_of_fmap in Hh as (key & -> & Hkey).
    apply elem_of_take in Hkey as (i & Hi & _).
    apply list_elem_of_lookup_2 in Hi.
    apply list_elem_of_fmap in Hi as ([key' col] & -> & Hin).
    simpl. rewrite (Hkeys _ _ Hin).
    unfold PostgresCsvCopyJob.split_columns.
    apply list_elem_of_fmap. exists col. split; [done|].
    apply list_elem_of_fmap. by exists (key', col). }
  unfold PostgresCsvCopyJob.run, PostgresCsvCopyJob.read_headers.
  rewrite Hheader. unfold split. rewrite bool_decide_eq_false_2 by done.
  fold fields. cbv zeta. rewrite length_map.
  destruct (length table_columns <? length fields)%nat eqn:Hmore; [done|].
  apply Nat.ltb_ge in Hmore.
  destruct (length fields <? length table_columns)%nat eqn:Hless.
  - unfold slice_to. fold headers. by rewrite Hknown.
  - apply Nat.ltb_ge in Hless.
    assert (Htake : take (length fields) (map fst table_columns)
                    = map fst table_columns)
      by (apply take_ge; rewrite length_map; lia).
    unfold headers in Hknown |- *. rewrite Htake in Hknown |- *.
    by rewrite Hknown.
Qed.

End CsvCopyFacts.

Lemma csv_copy_statement_validated_witness :
  exists headers,
    "COPY public.items ([name],[id]) FROM STDIN WITH (FORMAT CSV, DELIMITER ',', NULL '', FORCE_NULL([name]), ENCODING 'utf-8')"
    = PostgresCsvCopyJob.copy_sql (fun t => "public." +:+ t) sample_csv_format
        "items" headers
        (PostgresCsvCopyJob.split_null_headers sample_escape sample_nullable
           sample_csv_columns headers)
    /\ (forall h, h ∈ headers ->
          h ∈ PostgresCsvCopyJob.split_columns sample_escape
                sample_csv_columns)
    /\ forall h,
         h ∈ PostgresCsvCopyJob.split_null_headers sample_escape
               sample_nullable sample_csv_columns headers ->
         h ∈ headers
         /\ exists col,
              col ∈ map snd sample_csv_columns
              /\ h = sample_escape (col_name col)
              /\ sample_nullable col = true.
Proof.
  apply (csv_copy_statement_validated sample_escape
           (fun t => "public." +:+ t) sample_nullable "items.csv"
           sample_csv_format "items" sample_csv_columns
           ("name,id" +:+ newline) []).
  reflexivity.
Defined.

Lemma csv_copy_without_header_witness :
  snd (PostgresCsvCopyJob.run sample_escape (fun t => "public." +:+ t)
         sample_nullable "items.csv" headerless_csv_format "items"
         sample_csv_columns ("7" +:+ newline))
  = Returns
      "COPY public.items ([id]) FROM STDIN WITH (FORMAT CSV, DELIMITER ',', NULL '',  ENCODING 'utf-8')".
Proof.
  refine (csv_copy_without_header sample_escape (fun t => "public." +:+ t)
            sample_nullable "items.csv" headerless_csv_format "items"
            sample_csv_columns ("7" +:+ newline) _ _ _).
  - reflexivity.
  - discriminate.
  - intros key col Hin.
    repeat (apply elem_of_cons in Hin as [[= -> ->] | Hin]; [reflexivity|]).
    by apply elem_of_nil in Hin.
Defined.

(* ===================================================================== *)
(** * Properties: ReadableDBAPIRelation *)
(* ===================================================================== *)

Lemma dict_get_dict_set {K V : Type} `{EqDecision K}
    (d : list (K * V)) (k k' : K) (v : V) :
  dict_get (dict_set d k v) k'
  = if decide (k' = k) then Some v else dict_get d k'.
Proof.
  induction d as [|[k0 v0] d IH]; simpl.
  - destruct (decide (k = k')), (decide (k' = k)); congruence.
  - destruct (decide (k0 = k)) as [->|Hne]; simpl.
    + destruct (decide (k = k')), (decide (k' = k)); congruence.
    + destruct (decide (k0 = k')) as [->|Hne'].
      * by rewrite decide_False by congruence.
      * apply IH.
Qed.

Section RelationFacts.
Variable make_qualified_table_name : option string -> string.
Variable escape_column_name : string -> string.
Variable normalize_identifier : string -> string.

Import ReadableDBAPIRelation.

(** X17.  The query of [rel.limit(n)] is the query of the relation
    without limit followed by [LIMIT n], except that for [n = 0] there
    is no limit clause: [limit(0)] asks for all rows. *)
Theorem limit_query (self rel : Relation) (n : Z) :
  limit self n = Returns rel ->
  query make_qualified_table_name escape_column_name normalize_identifier rel
  = query make_qualified_table_name escape_column_name normalize_identifier
      (without_limit self)
    +:+ (if n =? 0 then "" else "LIMIT " +:+ str_of_int n).
Proof.
  unfold limit, __copy__, __init__.
  destruct (truthy (_provided_query self)) eqn:Hq; [discriminate|].
  destruct (bool_decide _); [|discriminate]. simpl.
  intros [= <-]. unfold query. simpl. rewrite Hq.
  rewrite !string_app_assoc. reflexivity.
Qed.

End RelationFacts.

Section SelectFacts.
Variable normalize_identifier : string -> string.

Import ReadableDBAPIRelation.

(** X18.  Limits and selections compose in any order: of two limits
    the last one counts, and a limit set before a selection gives the
    same relation, or the same exception, as the limit set after it. *)
Theorem limit_select_compose (self : Relation) (m n : Z)
    (selected_columns : list string) :
  Outcome_bind (limit self m) (fun rel => limit rel n) = limit self n
  /\ Outcome_bind (limit self n)
       (fun rel => select normalize_identifier rel selected_columns)
     = Outcome_bind (select normalize_identifier self selected_columns)
         (fun rel => limit rel n).
Proof.
  unfold limit, select, __copy__, __init__, computed_schema_columns.
  destruct (truthy (_provided_query self)) eqn:Hq; [done|].
  destruct (bool_decide (truthy (_table_name self) <> false)) eqn:Hb;
    [|done].
  cbn [Outcome_bind _provided_query _table_name _schema_columns _limit
       _selected_columns].
  rewrite Hq, Hb.
  cbn [Outcome_bind _provided_query _table_name _schema_columns _limit
       _selected_columns].
  split; [done|].
  destruct (negb (truthy_list (_schema_columns self)));
    cbn [Outcome_bind _provided_query _table_name _schema_columns _limit
         _selected_columns].
  { by rewrite Hq, Hb. }
  destruct (negb (truthy_list (Some selected_columns)));
    cbn [Outcome_bind _provided_query _table_name _schema_columns _limit
         _selected_columns].
  { by rewrite Hq, Hb. }
  destruct (filter_columns _ _ _ _);
    cbn [Outcome_bind _provided_query _table_name _schema_columns _limit
         _selected_columns]; [|done].
  by rewrite Hq, Hb.
Qed.

Lemma filter_columns_spec
    (schema_columns : list (string * TColumnSchema))
    (selected_columns : list string) :
  forall filtered_columns,
    (Forall (fun c => is_Some (dict_get schema_columns
                                 (normalize_identifier c)))
       selected_columns
     /\ exists filtered,
          filter_columns normalize_identifier schema_columns selected_columns
            filtered_columns
          = Returns filtered
          /\ forall k,
               dict_get filtered k
               = if bool_decide
                      (k ∈ map normalize_identifier selected_columns)
                 then dict_get schema_columns k
                 else dict_get filtered_columns k)
    \/ (~ Forall (fun c => is_Some (dict_get schema_columns
                                      (normalize_identifier c)))
          selected_columns
        /\ filter_columns normalize_identifier schema_columns selected_columns
             filtered_columns
           = Raises AssertionError).
Proof.
  induction selected_columns as [|c cols IH]; intros acc.
  - left. split; [constructor|]. exists acc. split; [done|].
    intros k. rewrite bool_decide_eq_false_2; [done|]. apply not_elem_of_nil.
  - simpl filter_columns.
    destruct (dict_get schema_columns (normalize_identifier c))
      as [column|] eqn:Hc.
    + destruct (IH (dict_set acc (normalize_identifier c) column))
        as [(Hall & filtered & Hrun & Hget) | (Hnot & Hrun)].
      * left. split; [constructor; [by rewrite Hc | done]|].
        exists filtered. split; [done|]. intros k. rewrite Hget.
        simpl map. rewrite dict_get_dict_set.
        destruct (decide (k = normalize_identifier c)) as [->|Hne].
        -- rewrite (bool_decide_eq_true_2 (_ ∈ _ :: _))
             by (apply elem_of_cons; by left).
           by case_bool_decide.
        -- apply (f_equal (fun b : bool =>
                    if b then dict_get schema_columns k else dict_get acc k)).
           apply bool_decide_ext. rewrite elem_of_cons. tauto.
      * right. split; [|done]. intros Hall. apply Hnot.
        by inversion Hall.
    + right. split; [|done]. intros Hall. inversion Hall as [|? ? Hsome _].
      rewrite Hc in Hsome. by destruct Hsome.
Qed.

(** X19.  On a relation of a table whose schema columns are known,
    [select] of a list of columns that is not empty returns exactly
    when every selected column, normalized, is a column of the schema,
    and raises [AssertionError] otherwise; the schema columns computed
    for the relation it returns are those of the schema under the
    selected names and no others. *)
Theorem select_checks_columns (table_name : string)
    (column : string * TColumnSchema)
    (schema_columns : list (string * TColumnSchema))
    (c : string) (selected_columns : list string) :
  table_name <> "" ->
  let self := table_relation table_name (Some (column :: schema_columns)) in
  let known :=
    Forall (fun c => is_Some (dict_get (column :: schema_columns)
                                (normalize_identifier c)))
      (c :: selected_columns) in
  (known ->
   exists rel filtered,
     select normalize_identifier self (c :: selected_columns) = Returns rel
     /\ computed_schema_columns normalize_identifier rel
        = Returns (Some filtered)
     /\ forall k,
          dict_get filtered k
          = if bool_decide
                 (k ∈ map normalize_identifier (c :: selected_columns))
            then dict_get (column :: schema_columns) k
            else None)
  /\ (~ known ->
      select normalize_identifier self (c :: selected_columns)
      = Raises AssertionError).
Proof.
  intros Hname self known.
  assert (Hselect :
    select normalize_identifier self (c :: selected_columns)
    = Outcome_bind
        (filter_columns normalize_identifier (column :: schema_columns)
           (c :: selected_columns) [])
        (fun _ =>
           Returns
             {| _provided_query := None;
                _table_name := Some table_name;
                _schema_columns := Some (column :: schema_columns);
                _limit := None;
                _selected_columns := Some (c :: selected_columns) |})).
  { unfold select, self, table_relation, __copy__, __init__. simpl.
    rewrite bool_decide_eq_true_2.
    - simpl. unfold computed_schema_columns. simpl.
      match goal with
      | |- Outcome_bind (Outcome_bind ?X _) _ = _ => by destruct X
      end.
    - rewrite bool_decide_eq_false_2 by done. done. }
  destruct (filter_columns_spec (column :: schema_columns)
              (c :: selected_columns) [])
    as [(Hall & filtered & Hrun & Hget) | (Hnot & Hrun)].
  - split; [|by intros Hnot]. intros _. eexists _, filtered.
    split; [by rewrite Hselect, Hrun|]. split.
    + change (Outcome_bind
                (filter_columns normalize_identifier (column :: schema_columns)
                   (c :: selected_columns) [])
                (fun filtered_columns => Returns (Some filtered_columns))
              = Returns (Some filtered)).
      by rewrite Hrun.
    + intros k. rewrite Hget. by case_bool_decide.
  - split; [by intros Hall|]. intros _. by rewrite Hselect, Hrun.
Qed.

End SelectFacts.

Lemma limit_query_witness :
  ReadableDBAPIRelation.query (fun t => "ds." +:+ default "" t) sample_escape
    (fun c => c)
    {| ReadableDBAPIRelation._provided_query := None;
       ReadableDBAPIRelation._table_name := Some "items";
       ReadableDBAPIRelation._schema_columns := None;
       ReadableDBAPIRelation._limit := Some 0;
       ReadableDBAPIRelation._selected_columns := None |}
  = ReadableDBAPIRelation.query (fun t => "ds." +:+ default "" t)
      sample_escape (fun c => c) (without_limit (table_relation "items" None))
    +:+ (if 0 =? 0 then "" else "LIMIT " +:+ str_of_int 0).
Proof.
  apply (limit_query (fun t => "ds." +:+ default "" t) sample_escape
           (fun c => c) (table_relation "items" None) _ 0).
  reflexivity.
Defined.

Lemma select_checks_columns_witness :
  let self := table_relation "items" (Some sample_csv_columns) in
  let known :=
    Forall (fun c => is_Some (dict_get sample_csv_columns c))
      ["name"; "id"] in
  (known ->
   exists rel filtered,
     ReadableDBAPIRelation.select (fun c => c) self ["name"; "id"]
     = Returns rel
     /\ ReadableDBAPIRelation.computed_schema_columns (fun c => c) rel
        = Returns (Some filtered)
     /\ forall k,
          dict_get filtered k
          = if bool_decide (k ∈ map (fun c : string => c) ["name"; "id"])
            then dict_get sample_csv_columns k
            else None)
  /\ (~ known ->
      ReadableDBAPIRelation.select (fun c => c) self ["name"; "id"]
      = Raises AssertionError).
Proof.
  apply (select_checks_columns (fun c => c) "items"
           ("id", plain_column "id" "bigint")
           [("name", plain_column "name" "text")] "name" ["id"]).
  discriminate.
Defined.

Lemma drop_storage_prefix_overlap_witness :
  tables (snd (drop_storage sample_client "dltSentinelTable"
                 initialized_world))
    !! make_qualified_table_name
         {| schema := sample_schema;
            capabilities := lancedb_capabilities;
            dataset_name := Some ("ds" +:+ "___" +:+ "staging");
            dataset_separator := "___";
            vector_field_name := "vector";
            id_field_name := "id__" |}
         "items"
  = None.
Proof.
  apply (drop_storage_prefix_overlap sample_client "dltSentinelTable"
           _ "ds" "staging" "items" initialized_world).
  - discriminate.
  - reflexivity.
  - reflexivity.
Defined.

(* ===================================================================== *)
(** * Properties: the datums of a fragment, quoted or bare *)
(* ===================================================================== *)

Lemma free_of_subset (small big : list ascii) (t : string) :
  (forall c, c ∈ small -> c ∈ big) ->
  free_of big t = true -> free_of small t = true.
Proof.
  intros Hsub. induction t as [|c t IH]; [done|]. simpl.
  rewrite !andb_true_iff, !negb_true_iff, !bool_decide_eq_false.
  intros [Hc Ht]. split; [|by apply IH]. intros Hin. by apply Hc, Hsub.
Qed.

Lemma free_of_app (chars : list ascii) (a b : string) :
  free_of chars (a +:+ b) = free_of chars a && free_of chars b.
Proof.
  induction a as [|c a IH]; [done|].
  rewrite string_app_cons. simpl. by rewrite IH, andb_assoc.
Qed.

Lemma lstrip_chars_free (c0 : ascii) (t : string) :
  free_of [c0] t = true -> lstrip_chars (is_char c0) t = t.
Proof.
  destruct t as [|c t]; [done|]. simpl.
  rewrite andb_true_iff, negb_true_iff, bool_decide_eq_false.
  intros [Hc _]. unfold is_char. rewrite bool_decide_eq_false_2; [done|].
  intros ->. apply Hc. apply elem_of_cons. by left.
Qed.

Lemma rstrip_chars_free (c0 : ascii) (t : string) :
  free_of [c0] t = true -> rstrip_chars (is_char c0) t = t.
Proof.
  induction t as [|c t IH]; [done|]. simpl.
  rewrite andb_true_iff, negb_true_iff, bool_decide_eq_false.
  intros [Hc Ht]. rewrite IH by done. destruct t; [|done].
  unfold is_char. rewrite bool_decide_eq_false_2; [done|].
  intros ->. apply Hc. apply elem_of_cons. by left.
Qed.

Lemma endswith_free (c0 : ascii) (t : string) :
  free_of [c0] t = true -> endswith t (String c0 "") = false.
Proof.
  intros Hfree. destruct (endswith t (String c0 "")) eqn:E; [|done].
  apply endswith_spec in E as [p ->]. rewrite free_of_app in Hfree.
  apply andb_true_iff in Hfree as [_ Hfree]. simpl in Hfree.
  rewrite bool_decide_eq_true_2 in Hfree; [done|].
  apply elem_of_cons. by left.
Qed.

Ltac elem_of_list :=
  repeat first [ apply elem_of_cons; left; reflexivity
               | apply elem_of_cons; right ].

Lemma _parse_value_bare (t : string) :
  datum_ok (Bare t) = true ->
  PostgresInsertValuesWithGeometryTypesLoadJob._parse_value t = t.
Proof.
  unfold datum_ok. rewrite !andb_true_iff, negb_true_iff.
  rewrite bool_decide_eq_false, bool_decide_eq_true.
  intros [[Hne Hstrip] Hfree].
  assert (Hclean :
            PostgresInsertValuesWithGeometryTypesLoadJob._clean_value t = t).
  { unfold PostgresInsertValuesWithGeometryTypesLoadJob._clean_value.
    rewrite Hstrip, lstrip_chars_free, rstrip_chars_free; [done|..];
      (eapply free_of_subset; [|exact Hfree]);
      intros c Hc; apply list_elem_of_singleton in Hc as ->; elem_of_list. }
  unfold PostgresInsertValuesWithGeometryTypesLoadJob._parse_value.
  rewrite Hclean. rewrite (bool_decide_eq_false_2 (t = "")) by done.
  simpl orb. case_bool_decide as Hnull; [done|].
  rewrite (endswith_free "'" t), !andb_false_r; [done|].
  eapply free_of_subset; [|exact Hfree].
  intros c Hc; apply list_elem_of_singleton in Hc as ->; elem_of_list.
Qed.

Lemma datum_step_bare (V : list string) (cur : string) (c : ascii) :
  c ∉ [","; "\"; "'"; "["; "]"; "("; ")"]%char ->
  PostgresInsertValuesWithGeometryTypesLoadJob.datum_step
    (PostgresInsertValuesWithGeometryTypesLoadJob.Build_DatumState
       V cur 0 false false false) c
  = PostgresInsertValuesWithGeometryTypesLoadJob.Build_DatumState
      V (append_char cur c) 0 false false false.
Proof.
  intros Hc. unfold PostgresInsertValuesWithGeometryTypesLoadJob.datum_step.
  simpl.
  rewrite !bool_decide_eq_false_2; [done|..]; intros ->; apply Hc;
    elem_of_list.
Qed.

Lemma datum_bare (t : string) :
  free_of [","; "\"; "'"; "["; "]"; "("; ")"]%char t = true ->
  forall V cur,
    for_char PostgresInsertValuesWithGeometryTypesLoadJob.datum_step t
      (PostgresInsertValuesWithGeometryTypesLoadJob.Build_DatumState
         V cur 0 false false false)
    = PostgresInsertValuesWithGeometryTypesLoadJob.Build_DatumState
        V (cur +:+ t) 0 false false false.
Proof.
  induction t as [|c t IH]; intros H V cur.
  - simpl. by rewrite string_app_nil_r.
  - simpl in H. apply andb_true_iff in H as [Hc Ht].
    apply negb_true_iff, bool_decide_eq_false in Hc.
    simpl for_char. rewrite datum_step_bare, IH by done.
    unfold append_char. by rewrite string_app_assoc.
Qed.

Lemma datum_quoted_after (d cur : string) (V : list string) :
  free_of ["\"; "'"; "["; "]"]%char d = true ->
  for_char PostgresInsertValuesWithGeometryTypesLoadJob.datum_step (quoted d)
    (PostgresInsertValuesWithGeometryTypesLoadJob.Build_DatumState
       V cur 0 false false false)
  = PostgresInsertValuesWithGeometryTypesLoadJob.Build_DatumState
      V (cur +:+ quoted d) 0 false false false.
Proof.
  intros H. unfold quoted.
  change ("'" +:+ d +:+ "'") with (String "'" (d +:+ "'")).
  simpl for_char. rewrite for_char_app.
  change (PostgresInsertValuesWithGeometryTypesLoadJob.datum_step
            (PostgresInsertValuesWithGeometryTypesLoadJob.Build_DatumState
               V cur 0 false false false) "'")
    with (PostgresInsertValuesWithGeometryTypesLoadJob.Build_DatumState
            V (append_char cur "'") 0 true false false).
  rewrite datum_quoted_body by done. simpl for_char.
  change (PostgresInsertValuesWithGeometryTypesLoadJob.datum_step
            (PostgresInsertValuesWithGeometryTypesLoadJob.Build_DatumState
               V (append_char cur "'" +:+ d) 0 true false false) "'")
    with (PostgresInsertValuesWithGeometryTypesLoadJob.Build_DatumState
            V (append_char (append_char cur "'" +:+ d) "'") 0 false false
            false).
  unfold append_char. by rewrite !string_app_assoc.
Qed.

Lemma datum_text_scanned (x : DatumText) (V : list string) :
  datum_ok x = true ->
  for_char PostgresInsertValuesWithGeometryTypesLoadJob.datum_step
    (datum_text x)
    (PostgresInsertValuesWithGeometryTypesLoadJob.Build_DatumState
       V "" 0 false false false)
  = PostgresInsertValuesWithGeometryTypesLoadJob.Build_DatumState
      V (datum_text x) 0 false false false.
Proof.
  destruct x as [d|d|t]; cbn [datum_text datum_ok]; intros Hok.
  - by rewrite datum_quoted_after.
  - change ("E" +:+ quoted d) with (String "E" (quoted d)).
    cbn [for_char].
    change (PostgresInsertValuesWithGeometryTypesLoadJob.datum_step
              (PostgresInsertValuesWithGeometryTypesLoadJob.Build_DatumState
                 V "" 0 false false false) "E")
      with (PostgresInsertValuesWithGeometryTypesLoadJob.Build_DatumState
              V "E" 0 false false false).
    by rewrite datum_quoted_after.
  - apply andb_true_iff in Hok as [_ Hfree]. by rewrite datum_bare.
Qed.

Lemma _parse_value_datum_text (x : DatumText) :
  datum_ok x = true ->
  PostgresInsertValuesWithGeometryTypesLoadJob._parse_value (datum_text x)
  = datum_value x.
Proof.
  destruct x as [d|d|t]; intros Hok.
  - apply _parse_value_quoted.
  - apply _parse_value_escape_quoted.
  - by apply _parse_value_bare.
Qed.

Lemma datum_text_not_empty (x : DatumText) :
  datum_ok x = true -> datum_text x <> "".
Proof.
  destruct x as [d|d|t]; cbn [datum_text datum_ok]; [done..|].
  rewrite !andb_true_iff, negb_true_iff, bool_decide_eq_false. tauto.
Qed.

Lemma datum_all_texts (xs : list DatumText) :
  forall x V,
    Forall (fun x => datum_ok x = true) (x :: xs) ->
    for_char PostgresInsertValuesWithGeometryTypesLoadJob.datum_step
      (String.concat "," (map datum_text (x :: xs)))
      (PostgresInsertValuesWithGeometryTypesLoadJob.Build_DatumState
         V "" 0 false false false)
    = PostgresInsertValuesWithGeometryTypesLoadJob.Build_DatumState
        (V ++ map datum_value (removelast (x :: xs)))
        (datum_text (List.last xs x)) 0 false false false.
Proof.
  induction xs as [|x' xs IH]; intros x V Hxs;
    inversion Hxs as [|? ? Hx Hxs']; subst.
  - simpl String.concat. rewrite datum_text_scanned by done.
    simpl. by rewrite app_nil_r.
  - change (String.concat "," (map datum_text (x :: x' :: xs)))
      with (datum_text x +:+ ","
            +:+ String.concat "," (map datum_text (x' :: xs))).
    rewrite !for_char_app, datum_text_scanned by done.
    change (for_char PostgresInsertValuesWithGeometryTypesLoadJob.datum_step
              ","
              (PostgresInsertValuesWithGeometryTypesLoadJob.Build_DatumState
                 V (datum_text x) 0 false false false))
      with (PostgresInsertValuesWithGeometryTypesLoadJob.Build_DatumState
              (V ++ [PostgresInsertValuesWithGeometryTypesLoadJob._parse_value
                       (datum_text x)]) "" 0 false false false).
    rewrite IH by done. rewrite _parse_value_datum_text by done.
    rewrite <- app_assoc. do 2 f_equal.
    destruct xs as [|y l]; [done|].
    change (List.last (y :: l) x' = List.last (y :: l) x).
    apply last_cons_default.
Qed.

Lemma last_cons_elem {A : Type} (l : list A) (y d : A) :
  List.last (y :: l) d ∈ y :: l.
Proof.
  revert y. induction l as [|z l IH]; intros y.
  - apply elem_of_cons. by left.
  - change (List.last (z :: l) d ∈ y :: z :: l).
    apply elem_of_cons. right. apply IH.
Qed.

Lemma _split_record_to_datums_texts (xs : list DatumText) :
  Forall (fun x => datum_ok x = true) xs ->
  PostgresInsertValuesWithGeometryTypesLoadJob._split_record_to_datums
    (String.concat "," (map datum_text xs))
  = map datum_value xs.
Proof.
  intros Hxs. destruct xs as [|x xs]; [reflexivity|].
  unfold PostgresInsertValuesWithGeometryTypesLoadJob._split_record_to_datums.
  unfold PostgresInsertValuesWithGeometryTypesLoadJob.datum_start.
  rewrite datum_all_texts by done.
  cbv zeta. cbn [PostgresInsertValuesWithGeometryTypesLoadJob.ds_current
                 PostgresInsertValuesWithGeometryTypesLoadJob.ds_values].
  assert (Hlast : datum_ok (List.last xs x) = true).
  { rewrite Forall_forall in Hxs. apply Hxs.
    destruct xs as [|y l]; [apply elem_of_cons; by left|].
    apply elem_of_cons. right. apply last_cons_elem. }
  rewrite bool_decide_eq_false_2 by (by apply datum_text_not_empty).
  rewrite _parse_value_datum_text by done.
  transitivity (map datum_value (removelast (x :: xs) ++ [List.last xs x]));
    [by rewrite map_app|].
  f_equal. destruct xs as [|y l]; [done|].
  rewrite (last_cons_default l y x y).
  change (x :: (removelast (y :: l) ++ [List.last (y :: l) y]) = x :: y :: l).
  f_equal. symmetry. by apply app_removelast_last.
Qed.

Lemma quotes_paired_bare (t : string) :
  free_of [","; "\"; "'"; "["; "]"; "("; ")"]%char t = true ->
  quotes_paired false t = true.
Proof.
  induction t as [|c t IH]; [done|]. simpl.
  rewrite andb_true_iff, negb_true_iff, bool_decide_eq_false.
  intros [Hc Ht].
  rewrite (bool_decide_eq_false_2 (c = "\"%char))
    by (intros ->; apply Hc; elem_of_list).
  rewrite (bool_decide_eq_false_2 (c = "'"%char))
    by (intros ->; apply Hc; elem_of_list).
  rewrite (bool_decide_eq_false_2 (c ∈ _)).
  - by apply IH.
  - intros Hin. apply Hc.
    apply elem_of_cons in Hin as [-> | Hin]; [elem_of_list|].
    apply list_elem_of_singleton in Hin as ->. elem_of_list.
Qed.

Lemma quotes_paired_datum_text (x : DatumText) :
  datum_ok x = true -> quotes_paired false (datum_text x) = true.
Proof.
  destruct x as [d|d|t]; cbn [datum_text datum_ok]; intros Hok.
  - by apply quotes_paired_quoted.
  - change ("E" +:+ quoted d) with (String "E" (quoted d)).
    change (quotes_paired false (quoted d) = true).
    by apply quotes_paired_quoted.
  - apply andb_true_iff in Hok as [_ Hfree]. by apply quotes_paired_bare.
Qed.

Lemma quotes_paired_texts (xs : list DatumText) :
  Forall (fun x => datum_ok x = true) xs ->
  quotes_paired false (String.concat "," (map datum_text xs)) = true.
Proof.
  induction xs as [|x xs IH]; intros Hxs; [done|].
  inversion Hxs as [|? ? Hx Hxs']; subst.
  destruct xs as [|x' xs].
  - by apply quotes_paired_datum_text.
  - change (String.concat "," (map datum_text (x :: x' :: xs)))
      with (datum_text x +:+ ","
            +:+ String.concat "," (map datum_text (x' :: xs))).
    apply quotes_paired_app; [by apply quotes_paired_datum_text|].
    apply (quotes_paired_app "," _ false); [done | by apply IH].
Qed.

Lemma process_records_texts (GEOMETRY_HINT : string)
    (_parse_geometry : string -> option string)
    (srid : TColumnSchema -> string)
    (columns : list (string * TColumnSchema))
    (records : list (list DatumText)) :
  Forall (fun c => PostgresClient.has_geometry_hint GEOMETRY_HINT c = false)
    (map snd columns) ->
  Forall (fun xs =>
            length xs = length columns
            /\ Forall (fun x => datum_ok x = true) xs)
    records ->
  forall warnings processed_fragment,
    PostgresInsertValuesWithGeometryTypesLoadJob.process_records
      GEOMETRY_HINT _parse_geometry srid columns
      (map (fun xs => String.concat "," (map datum_text xs)) records)
      warnings processed_fragment
    = (warnings,
       Returns
         (processed_fragment
          ++ map (fun xs =>
                    in_parentheses
                      (String.concat ","
                         (map (fun x =>
                                 PostgresInsertValuesWithGeometryTypesLoadJob.quote_datum
                                   (datum_value x)) xs)))
               records)).
Proof.
  intros Hcols. induction 1 as [|xs records (Hlen & Hok) _ IH];
    intros warnings processed_fragment.
  - simpl. by rewrite app_nil_r.
  - simpl. rewrite _split_record_to_datums_texts by done.
    rewrite bool_decide_eq_true_2 by (by rewrite length_map).
    rewrite process_datum_plain by (by rewrite ?length_map).
    rewrite (map_map (fun d => ([], d)) fst), (map_map (fun d => ([], d)) snd).
    simpl. rewrite map_id.
    replace (concat (map (fun _ : string => ([] : list string))
                       (map datum_value xs)))
      with ([] : list string)
      by (clear; induction xs; simpl; auto).
    rewrite app_nil_r, IH, <- app_assoc. simpl. by rewrite map_map.
Qed.

(** X3.  [_split_record_to_datums] reads a record of datums joined by
    commas as the list of their values, in order: a quoted text or an
    escape string [E'...'] gives the text between its quotation marks,
    whatever commas and parentheses it holds, and a bare token such as
    a number or [NULL] gives itself.  Quoted texts are taken to hold no
    quotation mark, backslash or square bracket, and bare tokens to be
    free of the characters that structure a record. *)
Theorem split_record_to_datums_values (datums : list DatumText) :
  Forall (fun datum => datum_ok datum = true) datums ->
  PostgresInsertValuesWithGeometryTypesLoadJob._split_record_to_datums
    (String.concat "," (map datum_text datums))
  = map datum_value datums.
Proof. apply _split_record_to_datums_texts. Qed.

Lemma split_record_to_datums_values_witness :
  PostgresInsertValuesWithGeometryTypesLoadJob._split_record_to_datums
    (String.concat ","
       (map datum_text
          [Bare "1"; Quoted "a, (b"; EscapeQuoted "x"; Bare "NULL";
           Quoted ""]))
  = map datum_value
      [Bare "1"; Quoted "a, (b"; EscapeQuoted "x"; Bare "NULL"; Quoted ""].
Proof.
  apply (split_record_to_datums_values
           [Bare "1"; Quoted "a, (b"; EscapeQuoted "x"; Bare "NULL";
            Quoted ""]).
  repeat constructor.
Defined.

(** X21.  For a table without geometry column, the rewriting of
    [_insert] turns every datum of a fragment into its value between
    quotation marks: numbers and other bare tokens come out quoted and
    escape strings lose their [E] prefix; only a value that reads NULL
    or starts with [ST_] comes out bare.  No warning is logged.  Every
    record is taken to have one datum per column. *)
Theorem process_fragment_normal_form (GEOMETRY_HINT : string)
    (_parse_geometry : string -> option string)
    (srid : TColumnSchema -> string)
    (columns : list (string * TColumnSchema))
    (records : list (list DatumText)) :
  Forall (fun c => PostgresClient.has_geometry_hint GEOMETRY_HINT c = false)
    (map snd columns) ->
  Forall (fun datums =>
            length datums = length columns
            /\ Forall (fun datum => datum_ok datum = true) datums)
    records ->
  PostgresInsertValuesWithGeometryTypesLoadJob.process_fragment
    GEOMETRY_HINT _parse_geometry srid columns
    (fragment_of
       (map (fun datums => String.concat "," (map datum_text datums))
          records))
  = ([],
     Returns
       (fragment_of
          (map (fun datums =>
                  String.concat ","
                    (map (fun datum =>
                            PostgresInsertValuesWithGeometryTypesLoadJob.quote_datum
                              (datum_value datum)) datums))
             records))).
Proof.
  intros Hcols Hrecords.
  unfold PostgresInsertValuesWithGeometryTypesLoadJob.process_fragment.
  rewrite _split_fragment_to_records_plain.
  - rewrite (process_records_texts _ _ _ _ _ Hcols Hrecords).
    unfold fragment_of. by rewrite map_map.
  - apply Forall_map. eapply Forall_impl; [exact Hrecords|].
    intros xs (_ & Hok). by apply quotes_paired_texts.
Qed.

Lemma process_fragment_normal_form_witness :
  PostgresInsertValuesWithGeometryTypesLoadJob.process_fragment
    "x-postgres-geometry" (fun _ => None) (fun _ => "4326")
    [("id", plain_column "id" "bigint"); ("name", plain_column "name" "text")]
    (fragment_of
       (map (fun datums => String.concat "," (map datum_text datums))
          [[Bare "1"; EscapeQuoted "a, (b)"]; [Bare "2"; Bare "NULL"]]))
  = ([],
     Returns
       (fragment_of
          (map (fun datums =>
                  String.concat ","
                    (map (fun datum =>
                            PostgresInsertValuesWithGeometryTypesLoadJob.quote_datum
                              (datum_value datum)) datums))
             [[Bare "1"; EscapeQuoted "a, (b)"]; [Bare "2"; Bare "NULL"]]))).
Proof.
  apply process_fragment_normal_form.
  - repeat constructor.
  - repeat constructor.
Defined.
